(** * Aluminum: a shallow embedding of the repository's Python scripts

    The development follows the source files one module each:
    - [Calculator]      src/tools/webapps/Utility.Calcuator.py
    - [HistoryRemoval]  src/sys/History/Atomics.HistoryRemoval.py
    - [Coder]           src/tools/webapps/Utility.Coder.py
    - [BrowserHistory]  src/sys/History/BrowserHistory.py
    - [Database]        src/sys/database.py
    with [Py], [Str] and [Effects] for what they share.  The modules
    [DatabaseFacts], [HistoryRemovalFacts], [CalculatorFacts] and
    [BrowserHistoryFacts] at the end hold further methods of the same files
    and further properties of them.

    Python exceptions are values of [Py.exn]; a call that may raise returns a
    [Py.result].  Methods that mutate [self] or the outside world (files, the
    SQLite engine) thread an explicit state. *)

From Stdlib Require Import ZArith NArith QArith String Ascii List Lia.
From Stdlib Require Import Floats.PrimFloat Floats.SpecFloat Floats.FloatOps.
From Stdlib Require Import Sorted Floats.FloatAxioms.
From stdpp Require Import base option list strings gmap pretty.

Local Open Scope string_scope.
Local Open Scope list_scope.

(* ===================================================================== *)
(** * Python basics: exceptions, results, strings                          *)
(* ===================================================================== *)

Module Py.

(** The exception classes the scripts raise or catch.  [IOError] is
    Python 3's alias of [OSError]; [FileNotFoundError] and
    [PermissionError] are subclasses of it; [OperationalError] is
    [sqlite3.OperationalError], a subclass of [sqlite3.Error]. *)
Inductive exn_class : Set :=
| ValueError | IndexError | KeyError | TypeError | AttributeError
| ZeroDivisionError | OverflowError | UnboundLocalError
| OSError | FileNotFoundError | PermissionError
| SqliteError | OperationalError
| OtherException.

Definition exn_class_eqb (a b : exn_class) : bool :=
  match a, b with
  | ValueError, ValueError | IndexError, IndexError | KeyError, KeyError
  | TypeError, TypeError | AttributeError, AttributeError
  | ZeroDivisionError, ZeroDivisionError | OverflowError, OverflowError
  | UnboundLocalError, UnboundLocalError
  | OSError, OSError | FileNotFoundError, FileNotFoundError
  | PermissionError, PermissionError
  | SqliteError, SqliteError | OperationalError, OperationalError
  | OtherException, OtherException => true
  | _, _ => false
  end.

(** [issubclass c base]: the part of Python's hierarchy below [Exception]. *)
Definition issubclass (c base : exn_class) : bool :=
  exn_class_eqb c base ||
  match c, base with
  | FileNotFoundError, OSError | PermissionError, OSError => true
  | OperationalError, SqliteError => true
  | _, _ => false
  end.

(** An exception object: its class and [str(e)]. *)
Record exn : Set := Exn { exn_cls : exn_class; exn_msg : string }.

Inductive result (A : Type) : Type :=
| Ok (a : A)
| Raise (e : exn).
Arguments Ok {A} a.
Arguments Raise {A} e.

Definition bind {A B} (r : result A) (k : A -> result B) : result B :=
  match r with
  | Ok a => k a
  | Raise e => Raise e
  end.

Definition is_ok {A} (r : result A) : bool :=
  match r with Ok _ => true | Raise _ => false end.

(** [except (c1, c2, ...)]: does the handler catch [e]? *)
Definition caught_by (classes : list exn_class) (e : exn) : bool :=
  existsb (issubclass (exn_cls e)) classes.

End Py.
Import Py.

#[global] Instance result_ret : MRet result := fun A a => Ok a.
#[global] Instance result_bind : MBind result := fun A B k r => Py.bind r k.

(** [d.get(key)], [key in d] and [d[key]] on a dictionary literal. *)
Fixpoint dict_get {V} (key : string) (d : list (string * V)) : option V :=
  match d with
  | [] => None
  | (k, v) :: rest => if String.eqb key k then Some v else dict_get key rest
  end.

Definition dict_in {V} (key : string) (d : list (string * V)) : bool :=
  bool_decide (is_Some (dict_get key d)).



(** ** [str] methods on ASCII text *)

Module Str.

Definition in_range (lo hi : N) (c : ascii) : bool :=
  (lo <=? N_of_ascii c)%N && (N_of_ascii c <=? hi)%N.

(** [0-9], [a-z], [A-Z] *)
Definition is_digit : ascii -> bool := in_range 48 57.
Definition is_lower : ascii -> bool := in_range 97 122.
Definition is_upper : ascii -> bool := in_range 65 90.

Fixpoint all (p : ascii -> bool) (s : string) : bool :=
  match s with
  | EmptyString => true
  | String c r => p c && all p r
  end.

Fixpoint any (p : ascii -> bool) (s : string) : bool :=
  match s with
  | EmptyString => false
  | String c r => p c || any p r
  end.

Fixpoint count (p : ascii -> bool) (s : string) : nat :=
  match s with
  | EmptyString => 0
  | String c r => (if p c then 1 else 0) + count p r
  end.

Fixpoint map (f : ascii -> ascii) (s : string) : string :=
  match s with
  | EmptyString => EmptyString
  | String c r => String (f c) (map f r)
  end.

Fixpoint drop (n : nat) (s : string) : string :=
  match n, s with
  | S k, String _ r => drop k r
  | _, _ => s
  end.

(** [s.isdigit()]: non-empty and every character a digit. *)
Definition isdigit (s : string) : bool :=
  negb (String.eqb s "") && all is_digit s.

(** [s.lower()] *)
Definition lower_char (c : ascii) : ascii :=
  if is_upper c then ascii_of_N (N_of_ascii c + 32) else c.
Definition lower : string -> string := map lower_char.

(** [s.replace(old, new)]: the occurrences of [old] are found from the
    left and do not overlap.  [skip] counts the characters of an occurrence
    still to be passed over.  For an empty [old] Python puts [new] before
    every character and at the end. *)
Fixpoint replace_from (old new : string) (skip : nat) (s : string) : string :=
  match s with
  | EmptyString => EmptyString
  | String c r =>
      match skip with
      | S k => replace_from old new k r
      | O =>
          if String.prefix old s
          then new +:+ replace_from old new (String.length old - 1) r
          else String c (replace_from old new 0 r)
      end
  end.

Fixpoint intersperse (new s : string) : string :=
  match s with
  | EmptyString => new
  | String c r => new +:+ String c (intersperse new r)
  end.

Definition replace (old new s : string) : string :=
  if String.eqb old "" then intersperse new s else replace_from old new 0 s.

(** [old in s] *)
Fixpoint contains (old s : string) : bool :=
  String.prefix old s ||
  match s with
  | EmptyString => false
  | String _ r => contains old r
  end.

(** Longest prefix whose characters satisfy [p], and the rest. *)
Fixpoint span (p : ascii -> bool) (s : string) : string * string :=
  match s with
  | EmptyString => (EmptyString, EmptyString)
  | String c r =>
      if p c then let '(a, b) := span p r in (String c a, b)
      else (EmptyString, s)
  end.

Definition mem (x : string) (l : list string) : bool :=
  existsb (String.eqb x) l.

End Str.


(** ** Facts about [replace], [contains] and [span] *)

Module StrFacts.
Import Str.

Lemma app_cons (c : ascii) (s t : string) :
  String c s +:+ t = String c (s +:+ t).
Proof. reflexivity. Qed.

Lemma count_app (p : ascii -> bool) (s t : string) :
  count p (s +:+ t) = count p s + count p t.
Proof. induction s as [|c s IH]; simpl; [reflexivity|]. rewrite IH. lia. Qed.

Lemma drop_empty (n : nat) : drop n "" = "".
Proof. destruct n; reflexivity. Qed.

Lemma count_drop_le (p : ascii -> bool) (s : string) (n : nat) :
  count p (drop n s) <= count p s.
Proof.
  revert n. induction s as [|c s IH]; intros [|n]; simpl; try lia.
  specialize (IH n). lia.
Qed.

Lemma prefix_nil_inv (old : string) : String.prefix old "" = true -> old = "".
Proof. destruct old; simpl; [reflexivity|discriminate]. Qed.

Lemma prefix_drop (old s : string) :
  String.prefix old s = true -> s = old +:+ drop (String.length old) s.
Proof.
  revert s. induction old as [|a old IH]; intros s Hp; simpl in *.
  - reflexivity.
  - destruct s as [|b s]; simpl in Hp; [discriminate|].
    destruct (ascii_dec a b) as [->|]; [|discriminate].
    simpl. rewrite app_cons. f_equal. apply IH, Hp.
Qed.

Lemma contains_cons (old : string) (c : ascii) (r : string) :
  contains old (String c r) = String.prefix old (String c r) || contains old r.
Proof. reflexivity. Qed.

Lemma replace_from_cons0 (old new : string) (c : ascii) (r : string) :
  replace_from old new 0 (String c r) =
  if String.prefix old (String c r)
  then new +:+ replace_from old new (String.length old - 1) r
  else String c (replace_from old new 0 r).
Proof. reflexivity. Qed.

Section Letters.

(** [p] picks out a kind of character that [new] does not have. *)
Variable p : ascii -> bool.
Variables old new : string.
Hypothesis new_free : count p new = 0.

Lemma replace_from_count_le (s : string) (skip : nat) :
  count p (replace_from old new skip s) <= count p (drop skip s).
Proof.
  revert skip. induction s as [|c r IH]; intros skip.
  - rewrite drop_empty. simpl. lia.
  - destruct skip as [|k].
    + rewrite replace_from_cons0. simpl drop.
      destruct (String.prefix old (String c r)).
      * rewrite count_app, new_free.
        pose proof (IH (String.length old - 1)).
        pose proof (count_drop_le p r (String.length old - 1)).
        simpl. lia.
      * specialize (IH 0). simpl in *.
        replace (drop 0 r) with r in IH by (destruct r; reflexivity). lia.
    + simpl. apply IH.
Qed.

Lemma replace_from_count_lt (s : string) :
  0 < count p old ->
  contains old s = true ->
  count p (replace_from old new 0 s) < count p s.
Proof.
  intros Hold. induction s as [|c r IH]; intros Hin.
  - simpl in Hin. rewrite orb_false_r in Hin.
    apply prefix_nil_inv in Hin. subst old. simpl in Hold. lia.
  - rewrite contains_cons in Hin. rewrite replace_from_cons0.
    destruct (String.prefix old (String c r)) eqn:Hp.
    + rewrite count_app, new_free.
      pose proof (replace_from_count_le r (String.length old - 1)) as Hle.
      apply prefix_drop in Hp.
      assert (Hdrop : drop (String.length old) (String c r)
                      = drop (String.length old - 1) r).
      { destruct old as [|a o]; [simpl in Hold; lia|].
        simpl. rewrite Nat.sub_0_r. reflexivity. }
      rewrite Hdrop in Hp. rewrite Hp, count_app. lia.
    + simpl in Hin. specialize (IH Hin). simpl. lia.
Qed.

Lemma replace_from_absent (s : string) :
  contains old s = false -> replace_from old new 0 s = s.
Proof.
  induction s as [|c r IH]; intros Hout; [reflexivity|].
  rewrite contains_cons in Hout. apply orb_false_elim in Hout as [Hp Hr].
  rewrite replace_from_cons0, Hp, (IH Hr). reflexivity.
Qed.

End Letters.

Lemma span_rest_length (p : ascii -> bool) (s : string) :
  String.length (snd (span p s)) <= String.length s.
Proof.
  induction s as [|c r IH]; simpl; [lia|].
  destruct (p c); simpl; [|lia].
  destruct (span p r) as [a b]. simpl in *. lia.
Qed.

End StrFacts.


(* ===================================================================== *)
(** * src/tools/webapps/Utility.Calcuator.py                               *)
(* ===================================================================== *)

Module Calculator.

(** ** The numbers on the evaluator's stack

    The evaluator only ever builds numbers with [float(token)] and combines
    them with [+ - * /]; the class below is that interface.  Two instances
    follow: IEEE binary64 (what CPython's [float] is) and exact rationals.
    [of_decimal n k] is the value of a decimal literal whose digits, read
    without the point, are [n], [k] of them after the point. *)
Class Number (R : Type) := {
  of_decimal : N -> nat -> R;
  add : R -> R -> R;
  sub : R -> R -> R;
  mul : R -> R -> R;
  div : R -> R -> R;
  (** [x == 0] *)
  is_zero : R -> bool
}.

(** *** binary64 *)

(** The binary64 number nearest to [num / den] (ties to even), for
    [0 <= num] and [0 < den]: the quotient is cut to at least 56 bits, a
    sticky bit records a non-zero remainder, and [binary_normalize] rounds. *)
Definition nearest_binary64 (num den : Z) : spec_float :=
  if (num =? 0)%Z then S754_zero false
  else
    let e := (Z.log2 num - Z.log2 den - 56)%Z in
    let '(q, r) := if (0 <=? e)%Z then Z.div_eucl num (den * 2 ^ e)
                   else Z.div_eucl (num * 2 ^ (- e)) den in
    let m := if (r =? 0)%Z then (2 * q)%Z else (2 * q + 1)%Z in
    binary_normalize 53 1024 m (e - 1) false.

Definition float_of_decimal (n : N) (k : nat) : float :=
  SF2Prim (nearest_binary64 (Z.of_N n) (10 ^ Z.of_nat k)).

#[export] Instance binary64 : Number float := {
  of_decimal := float_of_decimal;
  add := PrimFloat.add;
  sub := PrimFloat.sub;
  mul := PrimFloat.mul;
  div := PrimFloat.div;
  is_zero := fun x => PrimFloat.eqb x 0%float
}.

(** *** exact rationals *)

Definition Q_of_decimal (n : N) (k : nat) : Q :=
  Qmake (Z.of_N n) (Z.to_pos (10 ^ Z.of_nat k)).

#[export] Instance rational : Number Q := {
  of_decimal := Q_of_decimal;
  add := Qplus;
  sub := Qminus;
  mul := Qmult;
  div := Qdiv;
  is_zero := fun x => Qeq_bool x 0
}.

(** ** [WebCalculator]

    [py_pow] stands for Python's [a ** b] and [math] for a call of the named
    function of the [math] module (or of the builtins [abs], [round], [int]):
    both may raise, and what they compute is left open. *)

Section WebCalculator.

Context {R : Type} `{Number R}.
Variable py_pow : R -> R -> result R.
Variable math : string -> list R -> result R.

(** [float(token)], for the tokens that pass the guard
    [token.replace('.', '').isdigit()]: digits with any number of points.
    More than one point is a [ValueError]. *)
Fixpoint digits_value (acc : N) (s : string) : N :=
  match s with
  | EmptyString => acc
  | String c r => digits_value (acc * 10 + (N_of_ascii c - 48))%N r
  end.

Definition float_of_token (token : string) : result R :=
  let '(int_part, rest) := Str.span Str.is_digit token in
  match rest with
  | EmptyString =>
      if String.eqb int_part "" then
        Raise (Exn ValueError ("could not convert string to float: '" +:+ token +:+ "'"))
      else Ok (of_decimal (digits_value 0 int_part) 0)
  | String c frac =>
      if Ascii.eqb c "." && Str.all Str.is_digit frac
         && negb (String.eqb (int_part +:+ frac) "")
      then Ok (of_decimal (digits_value 0 (int_part +:+ frac)) (String.length frac))
      else Raise (Exn ValueError ("could not convert string to float: '" +:+ token +:+ "'"))
  end.

(** [_get_supported_functions] *)
Definition _get_supported_functions : list string :=
  [ "sin"; "cos"; "tan"; "asin"; "acos"; "atan"; "sinh"; "cosh"; "tanh";
    "log"; "log10"; "exp"; "sqrt"; "abs"; "ceil"; "floor"; "round";
    "factorial"; "degrees"; "radians" ].

(** [token.replace('.', '').isdigit()] *)
Definition is_number_token (token : string) : bool :=
  Str.isdigit (Str.replace "." "" token).

(** *** [_infix_to_rpn] *)

(** [precedence = {'+': 1, '-': 1, '*': 2, '/': 2, '^': 3}] *)
Definition precedence (op : string) : option nat :=
  if String.eqb op "+" then Some 1
  else if String.eqb op "-" then Some 1
  else if String.eqb op "*" then Some 2
  else if String.eqb op "/" then Some 2
  else if String.eqb op "^" then Some 3
  else None.

(** The operator stack is a list whose head is [operators[-1]]. *)

(** [while operators and operators[-1] != '(': output.append(operators.pop())] *)
Fixpoint pop_to_paren (output operators : list string) : list string * list string :=
  match operators with
  | [] => (output, [])
  | top :: below =>
      if String.eqb top "(" then (output, operators)
      else pop_to_paren (output ++ [top]) below
  end.

(** [while (operators and operators[-1] != '(' and
            precedence.get(operators[-1], 0) >= precedence[token]):
        output.append(operators.pop())] *)
Fixpoint pop_higher (p : nat) (output operators : list string) : list string * list string :=
  match operators with
  | [] => (output, [])
  | top :: below =>
      if negb (String.eqb top "(") && Nat.leb p (default 0 (precedence top))
      then pop_higher p (output ++ [top]) below
      else (output, operators)
  end.

(** One turn of the [for token in tokens] loop. *)
Definition infix_step (st : list string * list string) (token : string)
  : result (list string * list string) :=
  let '(output, operators) := st in
  if is_number_token token then Ok (output ++ [token], operators)
  else if Str.mem token _get_supported_functions then Ok (output, token :: operators)
  else if String.eqb token "(" then Ok (output, token :: operators)
  else if String.eqb token ")" then
    let '(output', operators') := pop_to_paren output operators in
    match operators' with
    | [] => Raise (Exn IndexError "pop from empty list")
    | _ :: below => Ok (output', below)
    end
  else
    match precedence token with
    | Some p =>
        let '(output', operators') := pop_higher p output operators in
        Ok (output', token :: operators')
    | None => Ok (output, operators)
    end.

Fixpoint infix_loop (st : list string * list string) (tokens : list string)
  : result (list string * list string) :=
  match tokens with
  | [] => Ok st
  | token :: rest => st' ← infix_step st token; infix_loop st' rest
  end.

Definition _infix_to_rpn (tokens : list string) : result (list string) :=
  '(output, operators) ← infix_loop ([], []) tokens;
  Ok (output ++ operators).

(** *** [_get_function_args], [_apply_function] *)

(** The evaluation stack is a list whose head is the top. *)
Definition _get_function_args (func : string) (stack : list R)
  : result (list R * list R) :=
  let args_count := if String.eqb func "log" then 2 else 1 in
  if Nat.ltb (length stack) args_count then
    Raise (Exn ValueError ("Not enough arguments for " +:+ func))
  else Ok (rev (firstn args_count stack), skipn args_count stack).

(** [args[i]] *)
Definition arg (args : list R) (i : nat) : result R :=
  match nth_error args i with
  | Some x => Ok x
  | None => Raise (Exn IndexError "list index out of range")
  end.

Definition call1 (name : string) (args : list R) : result R :=
  x ← arg args 0; math name [x].

Definition _apply_function (func : string) (args : list R) : result R :=
  let body :=
    if String.eqb func "sin" then call1 "sin" args
    else if String.eqb func "cos" then call1 "cos" args
    else if String.eqb func "tan" then call1 "tan" args
    else if String.eqb func "asin" then call1 "asin" args
    else if String.eqb func "acos" then call1 "acos" args
    else if String.eqb func "atan" then call1 "atan" args
    else if String.eqb func "sinh" then call1 "sinh" args
    else if String.eqb func "cosh" then call1 "cosh" args
    else if String.eqb func "tanh" then call1 "tanh" args
    else if String.eqb func "log" then
      x ← arg args 1; base ← arg args 0; math "log" [x; base]
    else if String.eqb func "log10" then call1 "log10" args
    else if String.eqb func "exp" then call1 "exp" args
    else if String.eqb func "sqrt" then call1 "sqrt" args
    else if String.eqb func "abs" then call1 "abs" args
    else if String.eqb func "ceil" then call1 "ceil" args
    else if String.eqb func "floor" then call1 "floor" args
    else if String.eqb func "round" then call1 "round" args
    else if String.eqb func "factorial" then
      x ← arg args 0; n ← math "int" [x]; math "factorial" [n]
    else if String.eqb func "degrees" then call1 "degrees" args
    else if String.eqb func "radians" then call1 "radians" args
    else Raise (Exn ValueError ("Unsupported function: " +:+ func)) in
  match body with
  | Ok v => Ok v
  | Raise e =>
      Raise (Exn ValueError ("Error in function " +:+ func +:+ ": " +:+ exn_msg e))
  end.

(** *** [_evaluate_rpn] *)

(** One turn of the [for token in rpn] loop. *)
Definition rpn_step (stack : list R) (token : string) : result (list R) :=
  if is_number_token token then
    x ← float_of_token token; Ok (x :: stack)
  else if Str.mem token _get_supported_functions then
    '(args, stack') ← _get_function_args token stack;
    r ← _apply_function token args;
    Ok (r :: stack')
  else if Str.mem token ["+"; "-"; "*"; "/"; "^"] then
    match stack with
    | b :: a :: stack' =>
        if String.eqb token "+" then Ok (add a b :: stack')
        else if String.eqb token "-" then Ok (sub a b :: stack')
        else if String.eqb token "*" then Ok (mul a b :: stack')
        else if String.eqb token "/" then
          if is_zero b then Raise (Exn ValueError "Division by zero")
          else Ok (div a b :: stack')
        else if String.eqb token "^" then
          r ← py_pow a b; Ok (r :: stack')
        else Ok stack'
    | _ => Raise (Exn IndexError "pop from empty list")
    end
  else Ok stack.

Fixpoint rpn_loop (stack : list R) (rpn : list string) : result (list R) :=
  match rpn with
  | [] => Ok stack
  | token :: rest => stack' ← rpn_step stack token; rpn_loop stack' rest
  end.

Definition _evaluate_rpn (rpn : list string) : result R :=
  stack ← rpn_loop [] rpn;
  match stack with
  | [x] => Ok x
  | _ => Raise (Exn ValueError "Invalid expression")
  end.

(** *** [_safe_eval] *)

(** The characters outside the class [[^0-9+\-*/^().a-z]]. *)
Definition is_op_char (c : ascii) : bool :=
  Str.any (Ascii.eqb c) "+-*/^()".

Definition allowed_char (c : ascii) : bool :=
  Str.is_digit c || is_op_char c || Ascii.eqb c "." || Str.is_lower c.

(** [re.findall(r'(\d+\.?\d*|\+|\-|\*|/|\^|\(|\)|[a-z]+)', expression)]:
    at each position the alternatives are tried in order; a number is the
    longest run of digits, an optional point and the longest run of digits
    after it; a character that starts no alternative is skipped.  Every turn
    consumes a character, so [String.length s] turns suffice. *)
Fixpoint findall (fuel : nat) (s : string) : list string :=
  match fuel with
  | O => []
  | S fuel' =>
      match s with
      | EmptyString => []
      | String c r =>
          if Str.is_digit c then
            let '(int_part, r1) := Str.span Str.is_digit s in
            let '(point, r2) :=
              match r1 with
              | String "."%char r2 => (".", r2)
              | _ => ("", r1)
              end in
            let '(frac, r3) := Str.span Str.is_digit r2 in
            (int_part +:+ point +:+ frac) :: findall fuel' r3
          else if is_op_char c then String c "" :: findall fuel' r
          else if Str.is_lower c then
            let '(word, r1) := Str.span Str.is_lower s in
            word :: findall fuel' r1
          else findall fuel' r
      end
  end.

Definition tokenize (expression : string) : list string :=
  findall (String.length expression) expression.

Definition _safe_eval (expression : string) : result R :=
  let expression := Str.lower (Str.replace " " "" expression) in
  if Str.any (fun c => negb (allowed_char c)) expression then
    Raise (Exn ValueError "Invalid characters in expression")
  else
    let tokens := tokenize expression in
    rpn ← _infix_to_rpn tokens;
    _evaluate_rpn rpn.

(** *** The object and [evaluate]

    [constants] keeps the dictionary's insertion order; [evaluate] uses a
    constant's value only through [str(value)], and that text is what the
    model stores.  A history line [f"{expression} = {result}"] is kept as
    the pair of its two parts. *)
Record calculator : Type := {
  memory : R;
  history : list (string * R);
  constants : list (string * string)
}.

(** [__init__]: [str] of [math.pi], [math.e], [(1 + math.sqrt(5)) / 2],
    [299792458] and [9.80665]. *)
Definition init : calculator := {|
  memory := of_decimal 0 0;
  history := [];
  constants :=
    [ ("pi", "3.141592653589793");
      ("e", "2.718281828459045");
      ("phi", "1.618033988749895");
      ("c", "299792458");
      ("g", "9.80665") ]
|}.

(** [for const, value in self.constants.items():
        expression = expression.replace(const, str(value))] *)
Definition substitute_constants (table : list (string * string)) (expression : string)
  : string :=
  fold_left (fun e cv => Str.replace (fst cv) (snd cv) e) table expression.

(** [Union[float, str]] *)
Inductive evaluated : Type :=
| Value (result : R)
| Message (text : string).

Definition evaluate (self : calculator) (expression : string)
  : evaluated * calculator :=
  let expression := substitute_constants (constants self) expression in
  match _safe_eval expression with
  | Ok result =>
      (Value result,
       {| memory := memory self;
          history := history self ++ [(expression, result)];
          constants := constants self |})
  | Raise e => (Message ("Error: " +:+ exn_msg e), self)
  end.

(** *** [convert_units] *)

(** Python's [a / b] on floats. *)
Definition truediv (a b : R) : result R :=
  if is_zero b then Raise (Exn ZeroDivisionError "float division by zero")
  else Ok (div a b).






End WebCalculator.

(** ** Properties of the evaluator *)

Section EvaluatorFacts.

Context {R : Type} `{Number R}.
Variable py_pow : R -> R -> result R.
Variable math : string -> list R -> result R.

(** The loop over an RPN list runs its prefix first. *)
Lemma rpn_loop_app (pre suf : list string) (stack : list R) :
  rpn_loop py_pow math stack (pre ++ suf) =
  (stack' ← rpn_loop py_pow math stack pre; rpn_loop py_pow math stack' suf).
Proof.
  revert stack. induction pre as [|t pre IH]; intros stack; simpl.
  - reflexivity.
  - destruct (rpn_step py_pow math stack t) as [stack'|e]; simpl.
    + apply IH.
    + reflexivity.
Qed.

(** A ["/"] token met with a zero on top of the stack raises. *)
Lemma rpn_step_div_zero (a b : R) (rest : list R) :
  is_zero b = true ->
  rpn_step py_pow math (b :: a :: rest) "/" = Raise (Exn ValueError "Division by zero").
Proof. intros Hz. unfold rpn_step. simpl. rewrite Hz. reflexivity. Qed.

(** [2+3*4] becomes [2 3 4 * +] and evaluates to [2 + (3 * 4)], whatever
    the numbers are. *)
Lemma safe_eval_2_3_4 :
  _infix_to_rpn (tokenize "2+3*4") = Ok ["2"; "3"; "4"; "*"; "+"] /\
  _safe_eval py_pow math "2+3*4" =
    Ok (add (of_decimal 2 0) (mul (of_decimal 3 0) (of_decimal 4 0))).
Proof. split; reflexivity. Qed.

End EvaluatorFacts.

(** ** Enough fuel for [findall] *)

Lemma findall_fuel (fuel1 fuel2 : nat) (s : string) :
  String.length s <= fuel1 -> String.length s <= fuel2 ->
  findall fuel1 s = findall fuel2 s.
Proof.
  revert fuel2 s. induction fuel1 as [|fuel1 IH]; intros fuel2 s H1 H2.
  - destruct s; [|simpl in H1; lia]. destruct fuel2; reflexivity.
  - destruct fuel2 as [|fuel2].
    + destruct s; [reflexivity|simpl in H2; lia].
    + destruct s as [|c r]; [reflexivity|]. simpl in H1, H2. simpl.
      destruct (Str.is_digit c).
      * pose proof (StrFacts.span_rest_length Str.is_digit r) as Hr1.
        destruct (Str.span Str.is_digit r) as [a r1]. simpl in Hr1.
        assert (Hpoint : forall r2, String.length r2 <= String.length r1 ->
                  forall fuel, String.length r <= fuel -> String.length r <= fuel2 ->
                  (let '(frac, r3) := Str.span Str.is_digit r2 in
                   findall fuel1 r3) =
                  (let '(frac, r3) := Str.span Str.is_digit r2 in
                   findall fuel2 r3)).
        { intros r2 Hr2 _ _ _.
          pose proof (StrFacts.span_rest_length Str.is_digit r2) as Hr3.
          destruct (Str.span Str.is_digit r2) as [frac r3]. simpl in Hr3.
          apply IH; lia. }
        destruct r1 as [|d r1'].
        -- specialize (Hpoint "" (Nat.le_refl _) fuel1 ltac:(lia) ltac:(lia)).
           destruct (Str.span Str.is_digit "") as [frac r3].
           f_equal. exact Hpoint.
        -- destruct d as [[] [] [] [] [] [] [] []];
             first
               [ specialize (Hpoint r1' ltac:(simpl; lia) fuel1 ltac:(lia) ltac:(lia));
                 destruct (Str.span Str.is_digit r1') as [frac r3];
                 f_equal; exact Hpoint
               | specialize (Hpoint _ (Nat.le_refl _) fuel1 ltac:(lia) ltac:(lia));
                 match goal with
                 | |- context [Str.span Str.is_digit ?t] =>
                     destruct (Str.span Str.is_digit t) as [frac r3]
                 end;
                 f_equal; exact Hpoint ].
      * destruct (is_op_char c); [f_equal; apply IH; lia|].
        destruct (Str.is_lower c); [|apply IH; lia].
        pose proof (StrFacts.span_rest_length Str.is_lower r) as Hr1.
        destruct (Str.span Str.is_lower r) as [a r1]. simpl in Hr1.
        f_equal. apply IH; lia.
Qed.

(** [tokenize] gives [findall] all the turns it can use. *)
Lemma tokenize_fuel (fuel : nat) (s : string) :
  String.length s <= fuel -> findall fuel s = tokenize s.
Proof. intros Hf. apply findall_fuel; [exact Hf|apply Nat.le_refl]. Qed.

(** The expression ["2+3*4"] alone: it is tokenised to [2 + 3 * 4],
    converted to the RPN [2 3 4 * +] and evaluated to [14.0] by
    [_safe_eval], and [evaluate] returns the same [14.0] (and records it in
    the history).  The numbers are binary64 floats; [py_pow] and [math] are
    arbitrary. *)
Lemma safe_eval_2_3_4_float
  (py_pow : float -> float -> result float)
  (math : string -> list float -> result float) :
  tokenize "2+3*4" = ["2"; "+"; "3"; "*"; "4"] /\
  _infix_to_rpn (tokenize "2+3*4") = Ok ["2"; "3"; "4"; "*"; "+"] /\
  _safe_eval py_pow math "2+3*4" = Ok 14%float /\
  _safe_eval py_pow math "2+3*4" = Ok (2 + 3 * 4)%float /\
  _safe_eval py_pow math "2+3*4" <> Ok ((2 + 3) * 4)%float /\
  evaluate py_pow math init "2+3*4" =
    (Value 14%float,
     {| memory := memory init;
        history := [("2+3*4", 14%float)];
        constants := constants init |}).
Proof.
  repeat split; try reflexivity.
  vm_compute. intros Heq. discriminate Heq.
Qed.

(** C4: whenever the RPN evaluation reaches a ["/"] with a right operand
    [b] such that [b == 0] (the prefix [pre] of the RPN list has left [b] on
    top of the stack and [a] below it), [_evaluate_rpn] raises
    [ValueError("Division by zero")] whatever follows; so does [_safe_eval]
    on every expression with that RPN form, and [evaluate] returns the
    error text instead of a number. *)
Theorem division_by_zero_raises
  {R : Type} `{Number R}
  (py_pow : R -> R -> result R) (math : string -> list R -> result R)
  (pre suf : list string) (a b : R) (rest : list R)
  (Hpre : rpn_loop py_pow math [] pre = Ok (b :: a :: rest))
  (Hzero : is_zero b = true) :
  _evaluate_rpn py_pow math (pre ++ "/" :: suf)
    = Raise (Exn ValueError "Division by zero") /\
  (forall expression : string,
     let text := Str.lower (Str.replace " " "" expression) in
     Str.any (fun c => negb (allowed_char c)) text = false ->
     _infix_to_rpn (tokenize text) = Ok (pre ++ "/" :: suf) ->
     _safe_eval py_pow math expression
       = Raise (Exn ValueError "Division by zero")) /\
  (forall (self : calculator) (expression : string),
     let text :=
       Str.lower (Str.replace " " "" (substitute_constants (constants self) expression)) in
     Str.any (fun c => negb (allowed_char c)) text = false ->
     _infix_to_rpn (tokenize text) = Ok (pre ++ "/" :: suf) ->
     evaluate py_pow math self expression
       = (Message "Error: Division by zero", self)).
Proof.
  assert (Hrpn : _evaluate_rpn py_pow math (pre ++ "/" :: suf)
                 = Raise (Exn ValueError "Division by zero")).
  { unfold _evaluate_rpn. rewrite rpn_loop_app, Hpre. simpl.
    rewrite rpn_step_div_zero by exact Hzero. reflexivity. }
  split; [exact Hrpn|]. split.
  - intros expression text Hchars Hto_rpn. unfold _safe_eval. fold text.
    rewrite Hchars, Hto_rpn. simpl. exact Hrpn.
  - intros self expression text Hchars Hto_rpn. unfold evaluate, _safe_eval.
    fold text. rewrite Hchars, Hto_rpn. simpl. rewrite Hrpn. reflexivity.
Qed.

(** The theorem at [1/0] on binary64 floats. *)
Lemma division_by_zero_raises_witness :
  let py_pow := fun _ _ : float => Raise (Exn OverflowError "") in
  let math := fun (_ : string) (_ : list float) => Raise (Exn ValueError "") in
  rpn_loop py_pow math [] ["1"; "0"] = Ok [0%float; 1%float] /\
  is_zero 0%float = true /\
  _evaluate_rpn py_pow math (["1"; "0"] ++ "/" :: [])
    = Raise (Exn ValueError "Division by zero") /\
  _safe_eval py_pow math "1/0" = Raise (Exn ValueError "Division by zero") /\
  evaluate py_pow math init "1 / 0" = (Message "Error: Division by zero", init).
Proof.
  intros py_pow math.
  pose proof (division_by_zero_raises py_pow math ["1"; "0"] [] 1%float 0%float []
                eq_refl eq_refl) as (Hrpn & Hsafe & Heval).
  split; [reflexivity|]. split; [reflexivity|]. split; [exact Hrpn|]. split.
  - apply Hsafe; reflexivity.
  - apply Heval; reflexivity.
Defined.

(** ** Constant substitution *)

(** The lower-case letters of a text. *)
Definition letters : string -> nat := Str.count Str.is_lower.

(** A table entry whose name has a letter and whose text has none. *)
Definition numeric_entry (cv : string * string) : Prop :=
  0 < letters (fst cv) /\ letters (snd cv) = 0.

Lemma replace_nonempty (old new s : string) :
  0 < letters old -> Str.replace old new s = Str.replace_from old new 0 s.
Proof.
  intros Hold. unfold Str.replace.
  destruct old; [inversion Hold|reflexivity].
Qed.

Lemma replace_letters_le (cv : string * string) (e : string) :
  numeric_entry cv -> letters (Str.replace (fst cv) (snd cv) e) <= letters e.
Proof.
  intros [Hname Htext]. rewrite replace_nonempty by exact Hname.
  pose proof (StrFacts.replace_from_count_le Str.is_lower (fst cv) (snd cv) Htext e 0) as Hle.
  pose proof (StrFacts.count_drop_le Str.is_lower e 0). unfold letters. lia.
Qed.

Lemma substitute_letters_le (table : list (string * string)) :
  Forall numeric_entry table ->
  forall e, letters (substitute_constants table e) <= letters e.
Proof.
  unfold substitute_constants.
  induction 1 as [|cv table Hcv _ IH]; intros e; simpl; [lia|].
  etransitivity; [apply IH|]. apply replace_letters_le, Hcv.
Qed.

Lemma substitute_letters_lt (table : list (string * string)) :
  Forall numeric_entry table ->
  forall e name,
    In name (map fst table) -> Str.contains name e = true ->
    letters (substitute_constants table e) < letters e.
Proof.
  induction 1 as [|cv table Hcv Htable IH]; intros e name Hname Hin; simpl in *.
  - contradiction.
  - unfold substitute_constants. simpl.
    fold (substitute_constants table (Str.replace (fst cv) (snd cv) e)).
    destruct (Str.contains (fst cv) e) eqn:Hhead.
    + destruct Hcv as [Hn Ht].
      pose proof (substitute_letters_le table Htable
                    (Str.replace (fst cv) (snd cv) e)) as Hle.
      rewrite replace_nonempty in * by exact Hn.
      pose proof (StrFacts.replace_from_count_lt Str.is_lower (fst cv) (snd cv) Ht e Hn Hhead).
      unfold letters in *. lia.
    + destruct Hcv as [Hn Ht].
      rewrite replace_nonempty by exact Hn.
      rewrite StrFacts.replace_from_absent by exact Hhead.
      destruct Hname as [Heq|Htail]; [congruence|].
      apply (IH e name Htail Hin).
Qed.

Lemma builtin_constants_numeric {R : Type} `{Number R} :
  Forall numeric_entry (constants init).
Proof. repeat constructor. Qed.

(** C8: [evaluate] replaces constant names textually before parsing.  Every
    expression in which one of the names [pi], [e], [phi], [c], [g] occurs
    as a substring (inside a function name or not) reaches [_safe_eval] as
    a different text.  [evaluate("cos(0)")] parses ["299792458os(0)"] and
    [evaluate("exp(1)")] parses ["2.718281828459045xp(1)"]; both return the
    text ["Error: Invalid expression"], although [_safe_eval] on the
    untouched text calls [math.cos(0.0)] and [math.exp(1.0)]. *)
Theorem constant_substitution_corrupts
  {R : Type} `{Number R}
  (py_pow : R -> R -> result R) (math : string -> list R -> result R) :
  (forall expression name : string,
     In name ["pi"; "e"; "phi"; "c"; "g"] ->
     Str.contains name expression = true ->
     substitute_constants (constants init) expression <> expression) /\
  substitute_constants (constants init) "cos(0)" = "299792458os(0)" /\
  evaluate py_pow math init "cos(0)" = (Message "Error: Invalid expression", init) /\
  _safe_eval py_pow math "cos(0)" = _apply_function math "cos" [of_decimal 0 0] /\
  substitute_constants (constants init) "exp(1)" = "2.718281828459045xp(1)" /\
  evaluate py_pow math init "exp(1)" = (Message "Error: Invalid expression", init) /\
  _safe_eval py_pow math "exp(1)" = _apply_function math "exp" [of_decimal 1 0].
Proof.
  split; [|repeat split; try reflexivity].
  - intros expression name Hname Hin Heq.
    pose proof (substitute_letters_lt (constants init) builtin_constants_numeric
                  expression name Hname Hin) as Hlt.
    rewrite Heq in Hlt. lia.
  - cbv. destruct (math _ _); reflexivity.
  - cbv. destruct (math _ _); reflexivity.
Qed.

(** The theorem's first part at ["cos(0)"], where the name [c] occurs. *)
Lemma constant_substitution_corrupts_witness :
  In "c" ["pi"; "e"; "phi"; "c"; "g"] /\
  Str.contains "c" "cos(0)" = true /\
  substitute_constants (constants (R := float) init) "cos(0)" <> "cos(0)".
Proof.
  split; [simpl; tauto|]. split; [reflexivity|].
  apply (proj1 (constant_substitution_corrupts (R := float)
                  (fun _ _ => Raise (Exn OverflowError ""))
                  (fun _ _ => Raise (Exn ValueError ""))) "cos(0)" "c").
  - simpl; tauto.
  - reflexivity.
Defined.

(** ** Keys of a dictionary literal *)


Lemma dict_in_get {V} (key : string) (d : list (string * V)) (v : V) :
  dict_get key d = Some v -> dict_in key d = true.
Proof. intros Hv. unfold dict_in. apply bool_decide_eq_true. eauto. Qed.

End Calculator.


(* ===================================================================== *)
(** * Methods with effects                                                 *)
(* ===================================================================== *)

(** The scripts act on files and on SQLite.  A method body is a function
    of a state made of the outside world [W] and of the trace of what the
    body has done so far (events [E]); it returns a value or raises. *)

Module Effects.

Record state (W E : Type) : Type := { world : W; trace : list E }.
Arguments world {W E} s.
Arguments trace {W E} s.

Definition M (W E A : Type) : Type := state W E -> result A * state W E.

#[export] Instance M_ret {W E} : MRet (M W E) := fun A a s => (Ok a, s).
#[export] Instance M_bind {W E} : MBind (M W E) := fun A B k m s =>
  match m s with
  | (Ok a, s') => k a s'
  | (Raise e, s') => (Raise e, s')
  end.

Definition raise {W E A} (e : exn) : M W E A := fun s => (Raise e, s).

(** [try: body except Exception as e: handler e] *)
Definition try_except {W E A} (body : M W E A) (handler : exn -> M W E A)
  : M W E A :=
  fun s =>
    match body s with
    | (Ok a, s') => (Ok a, s')
    | (Raise e, s') => handler e s'
    end.

(** [try: body except (c1, c2, ...) as e: handler e] *)
Definition try_except_of {W E A} (classes : list exn_class)
  (body : M W E A) (handler : exn -> M W E A) : M W E A :=
  fun s =>
    match body s with
    | (Ok a, s') => (Ok a, s')
    | (Raise e, s') => if caught_by classes e then handler e s' else (Raise e, s')
    end.

(** [try: body finally: cleanup] (an exception of [cleanup] replaces the
    one of [body]). *)
Definition try_finally {W E A} (body : M W E A) (cleanup : M W E unit)
  : M W E A :=
  fun s =>
    match body s with
    | (r, s') =>
        match cleanup s' with
        | (Ok _, s'') => (r, s'')
        | (Raise e, s'') => (Raise e, s'')
        end
    end.

(** A call [f] on the world; [ev] makes the event from its outcome. *)
Definition invoke {W E A} (ev : result A -> E) (f : W -> result A * W) : M W E A :=
  fun s =>
    match f (world s) with
    | (r, w') => (r, {| world := w'; trace := trace s ++ [ev r] |})
    end.

(** An event that leaves the world alone. *)
Definition emit {W E} (e : E) : M W E unit := fun s =>
  (Ok tt, {| world := world s; trace := trace s ++ [e] |}).

(** ** What a body adds to the trace

    [emits m P]: from every state, [m] extends the trace by some [t] with
    [P r t], where [r] is what [m] returns or raises. *)
Definition emits {W E A} (m : M W E A) (P : result A -> list E -> Prop) : Prop :=
  forall s, exists t,
    trace (snd (m s)) = trace s ++ t /\ P (fst (m s)) t.

Section Emits.

Context {W E : Type}.

Lemma emits_weaken {A} (m : M W E A) (P Q : result A -> list E -> Prop) :
  emits m P -> (forall r t, P r t -> Q r t) -> emits m Q.
Proof.
  intros Hm HPQ s. destruct (Hm s) as (t & Ht & HP). exists t. auto.
Qed.

Lemma emits_ret {A} (a : A) : emits (W := W) (E := E) (mret a) (fun r t => r = Ok a /\ t = []).
Proof. intros s. exists []. simpl. rewrite app_nil_r. auto. Qed.

Lemma emits_raise {A} (e : exn) :
  emits (W := W) (E := E) (A := A) (raise e) (fun r t => r = Raise e /\ t = []).
Proof. intros s. exists []. simpl. rewrite app_nil_r. auto. Qed.

Lemma emits_invoke {A} (ev : result A -> E) (f : W -> result A * W) :
  emits (invoke ev f) (fun r t => t = [ev r]).
Proof.
  intros s. unfold invoke. destruct (f (world s)) as [r w']. simpl. eauto.
Qed.

Lemma emits_emit (e : E) :
  emits (W := W) (emit e) (fun r t => r = Ok tt /\ t = [e]).
Proof. intros s. simpl. eauto. Qed.

(** Sequencing: either the first part raised and that is all, or the
    second part ran after it. *)
Lemma emits_bind {A B} (m : M W E A) (k : A -> M W E B)
  (P : result A -> list E -> Prop) (Q : A -> result B -> list E -> Prop) :
  emits m P -> (forall a, emits (k a) (Q a)) ->
  emits (m ≫= k)
    (fun r t =>
       (exists e, r = Raise e /\ P (Raise e) t) \/
       (exists a t1 t2, t = t1 ++ t2 /\ P (Ok a) t1 /\ Q a r t2)).
Proof.
  intros Hm Hk s. unfold mbind, M_bind.
  destruct (Hm s) as (t1 & Ht1 & HP).
  destruct (m s) as [[a|e] s1]; simpl in *.
  - destruct (Hk a s1) as (t2 & Ht2 & HQ).
    exists (t1 ++ t2). rewrite Ht2, Ht1, app_assoc. split; [reflexivity|].
    right. exists a, t1, t2. auto.
  - exists t1. split; [exact Ht1|]. left. eauto.
Qed.

Lemma emits_try_except {A} (body : M W E A) (handler : exn -> M W E A)
  (P : result A -> list E -> Prop) (Q : exn -> result A -> list E -> Prop) :
  emits body P -> (forall e, emits (handler e) (Q e)) ->
  emits (try_except body handler)
    (fun r t =>
       (exists a, r = Ok a /\ P (Ok a) t) \/
       (exists e t1 t2, t = t1 ++ t2 /\ P (Raise e) t1 /\ Q e r t2)).
Proof.
  intros Hb Hh s. unfold try_except.
  destruct (Hb s) as (t1 & Ht1 & HP).
  destruct (body s) as [[a|e] s1]; simpl in *.
  - exists t1. split; [exact Ht1|]. left. eauto.
  - destruct (Hh e s1) as (t2 & Ht2 & HQ).
    exists (t1 ++ t2). rewrite Ht2, Ht1, app_assoc. split; [reflexivity|].
    right. exists e, t1, t2. auto.
Qed.

Lemma emits_try_finally {A} (body : M W E A) (cleanup : M W E unit)
  (P : result A -> list E -> Prop) (Q : result unit -> list E -> Prop) :
  emits body P -> emits cleanup Q ->
  emits (try_finally body cleanup)
    (fun r t =>
       exists rb rc t1 t2,
         t = t1 ++ t2 /\ P rb t1 /\ Q rc t2 /\
         r = match rc with Ok _ => rb | Raise e => Raise e end).
Proof.
  intros Hb Hc s. unfold try_finally.
  destruct (Hb s) as (t1 & Ht1 & HP).
  destruct (body s) as [rb s1]; simpl in *.
  destruct (Hc s1) as (t2 & Ht2 & HQ).
  destruct (cleanup s1) as [rc s2]; simpl in *.
  exists (t1 ++ t2).
  destruct rc as [[]|e]; simpl; rewrite Ht2, Ht1, app_assoc;
    (split; [reflexivity|]);
    eexists rb, _, t1, t2; (split; [reflexivity|]); eauto.
Qed.

(** A body all of whose events are [good], whatever it returns. *)
Definition only {A} (good : E -> Prop) (m : M W E A) : Prop :=
  emits m (fun _ t => Forall good t).

Lemma only_ret {A} (good : E -> Prop) (a : A) : only good (mret a).
Proof. eapply emits_weaken; [apply emits_ret|]. intros r t [_ ->]. constructor. Qed.

Lemma only_raise {A} (good : E -> Prop) (e : exn) : only (A := A) good (raise e).
Proof. eapply emits_weaken; [apply emits_raise|]. intros r t [_ ->]. constructor. Qed.

Lemma only_invoke {A} (good : E -> Prop) (ev : result A -> E) (f : W -> result A * W) :
  (forall r, good (ev r)) -> only good (invoke ev f).
Proof.
  intros Hev. eapply emits_weaken; [apply emits_invoke|].
  intros r t ->. constructor; [apply Hev|constructor].
Qed.

Lemma only_emit (good : E -> Prop) (e : E) : good e -> only good (emit e).
Proof.
  intros He. eapply emits_weaken; [apply emits_emit|].
  intros r t [_ ->]. constructor; [exact He|constructor].
Qed.

Lemma only_bind {A B} (good : E -> Prop) (m : M W E A) (k : A -> M W E B) :
  only good m -> (forall a, only good (k a)) -> only good (m ≫= k).
Proof.
  intros Hm Hk.
  eapply emits_weaken;
    [apply (emits_bind m k _ (fun _ _ t => Forall good t) Hm Hk)|].
  intros r t [(e & _ & Ht)|(a & t1 & t2 & -> & H1 & H2)]; [exact Ht|].
  apply Forall_app; auto.
Qed.

Lemma only_try_except {A} (good : E -> Prop) (body : M W E A) (handler : exn -> M W E A) :
  only good body -> (forall e, only good (handler e)) ->
  only good (try_except body handler).
Proof.
  intros Hb Hh.
  eapply emits_weaken;
    [apply (emits_try_except body handler _ (fun _ _ t => Forall good t) Hb Hh)|].
  intros r t [(a & _ & Ht)|(e & t1 & t2 & -> & H1 & H2)]; [exact Ht|].
  apply Forall_app; auto.
Qed.

Lemma only_try_except_of {A} (good : E -> Prop) (classes : list exn_class)
  (body : M W E A) (handler : exn -> M W E A) :
  only good body -> (forall e, only good (handler e)) ->
  only good (try_except_of classes body handler).
Proof.
  intros Hb Hh s. unfold try_except_of.
  destruct (Hb s) as (t1 & Ht1 & HP).
  destruct (body s) as [[a|e] s1]; simpl in *.
  - exists t1. auto.
  - destruct (caught_by classes e).
    + destruct (Hh e s1) as (t2 & Ht2 & HQ).
      exists (t1 ++ t2). rewrite Ht2, Ht1, app_assoc. split; [reflexivity|].
      apply Forall_app; auto.
    + exists t1. auto.
Qed.

Lemma only_try_finally {A} (good : E -> Prop) (body : M W E A) (cleanup : M W E unit) :
  only good body -> only good cleanup -> only good (try_finally body cleanup).
Proof.
  intros Hb Hc. eapply emits_weaken; [apply (emits_try_finally _ _ _ _ Hb Hc)|].
  intros r t (rb & rc & t1 & t2 & -> & H1 & H2 & _). apply Forall_app; auto.
Qed.

Lemma only_weaken {A} (good better : E -> Prop) (m : M W E A) :
  only good m -> (forall e, good e -> better e) -> only better m.
Proof.
  intros Hm Himp. eapply emits_weaken; [exact Hm|].
  intros r t Ht. induction Ht; constructor; auto.
Qed.

(** A trace made of consecutive phases, each with its kind of events (a
    phase may be empty). *)
Fixpoint phased (phases : list (E -> Prop)) (t : list E) : Prop :=
  match phases with
  | [] => t = []
  | P :: later =>
      exists t1 t2, t = t1 ++ t2 /\ Forall P t1 /\ phased later t2
  end.

Lemma phased_nil (phases : list (E -> Prop)) : phased phases [].
Proof.
  induction phases as [|P later IH]; simpl; [reflexivity|].
  exists [], []. auto.
Qed.

Lemma phased_last (P : E -> Prop) (t : list E) : Forall P t -> phased [P] t.
Proof. intros Ht. exists t, []. rewrite app_nil_r. simpl. auto. Qed.

Lemma phased_snoc (phases : list (E -> Prop)) (P : E -> Prop) (t tr : list E) :
  phased phases t -> Forall P tr -> phased (phases ++ [P]) (t ++ tr).
Proof.
  revert t. induction phases as [|P0 later IH]; intros t Ht Htr; simpl in *.
  - subst t. apply (phased_last P), Htr.
  - destruct Ht as (t1 & t2 & -> & H1 & H2).
    exists t1, (t2 ++ tr). rewrite app_assoc. auto.
Qed.

(** A body of one phase followed by a body of the later phases. *)
Lemma emits_phase {A B} (P : E -> Prop) (later : list (E -> Prop))
  (m : M W E A) (k : A -> M W E B) :
  only P m -> (forall a, emits (k a) (fun _ t => phased later t)) ->
  emits (m ≫= k) (fun _ t => phased (P :: later) t).
Proof.
  intros Hm Hk.
  eapply emits_weaken;
    [apply (emits_bind m k _ (fun _ _ t => phased later t) Hm Hk)|].
  intros r t [(e & _ & Ht)|(a & t1 & t2 & -> & H1 & H2)]; simpl.
  - exists t, []. rewrite app_nil_r. split; [reflexivity|].
    split; [exact Ht|apply phased_nil].
  - exists t1, t2. auto.
Qed.

(** An event that is not of the first phase comes after that phase. *)
Lemma after_first_phase (P : E -> Prop) (t1 u pre post : list E) (e : E) :
  t1 ++ u = pre ++ e :: post -> Forall P t1 -> ~ P e ->
  exists pre', pre = t1 ++ pre'.
Proof.
  revert pre. induction t1 as [|x t1 IH]; intros pre Heq Ht1 He.
  - exists pre. reflexivity.
  - inversion Ht1 as [|? ? Hx Ht1']; subst.
    destruct pre as [|y pre]; simpl in Heq; inversion Heq; subst.
    + contradiction.
    + destruct (IH pre ltac:(assumption) Ht1' He) as [pre' ->].
      exists pre'. reflexivity.
Qed.

End Emits.

(** One step towards a goal [only good m]. *)
Ltac only_step :=
  first
    [ apply only_bind; [|intros]
    | apply only_try_except; [|intros]
    | apply only_try_finally
    | apply only_ret
    | apply only_raise
    | apply only_invoke; intros; simpl; auto
    | apply only_emit; simpl; auto
    | match goal with
      | |- only _ (match ?x with _ => _ end) => destruct x
      end ].

End Effects.
Import Effects.


(* ===================================================================== *)
(** * src/sys/History/Atomics.HistoryRemoval.py                            *)
(* ===================================================================== *)

Module HistoryRemoval.

(** ** Paths, the operating system, the trace *)

(** A [pathlib.Path] as the list of its parts. *)
Definition Path : Type := list string.

(** [p / child], [p.parent], [p.name] *)
Definition joinpath (p : Path) (child : string) : Path := p ++ [child].
Definition parent (p : Path) : Path := removelast p.
Definition name (p : Path) : string := List.last p "".

Definition path_str (p : Path) : string := String.concat "/" p.

(** The calls the script makes on the operating system and on SQLite. *)
Inductive call : Type :=
| Makedirs (p : Path) (exist_ok : bool)
| Copy2 (src dst : Path)
| PathExists (p : Path)
| IsFile (p : Path)
| IsDir (p : Path)
| OpenWB (p : Path)
| StatSize (p : Path)
| Urandom (n : N)
| Write (p : Path) (data : list Byte.byte)
| Close (p : Path)
| Remove (p : Path)
| Rmtree (p : Path)
| SqliteConnect (db : Path)
| SqliteExecute (db : Path) (sql : string)
| SqliteClose (db : Path).

Inductive level : Set := Info | Warning | Error | Critical.

(** What a run leaves behind, in order: each call with whether it returned
    ([true]) or raised ([false]), and each line given to [logger]. *)
Inductive event : Type :=
| Called (c : call) (returned : bool)
| Logged (l : level) (message : string).

(** The world outside the script.  Every call may change it and may raise
    any exception; nothing else is assumed. *)
Class OS (W : Type) := {
  os_makedirs : Path -> bool -> W -> result unit * W;
  shutil_copy2 : Path -> Path -> W -> result unit * W;
  path_exists : Path -> W -> result bool * W;
  path_is_file : Path -> W -> result bool * W;
  path_is_dir : Path -> W -> result bool * W;
  open_wb : Path -> W -> result unit * W;
  stat_st_size : Path -> W -> result N * W;
  os_urandom : N -> W -> result (list Byte.byte) * W;
  file_write : Path -> list Byte.byte -> W -> result unit * W;
  file_close : Path -> W -> result unit * W;
  os_remove : Path -> W -> result unit * W;
  shutil_rmtree : Path -> W -> result unit * W;
  sqlite3_connect : Path -> W -> result unit * W;
  conn_execute : Path -> string -> W -> result unit * W;
  conn_close : Path -> W -> result unit * W
}.

(** What [__init__] and [determine_os] read from the process: [os.name],
    [os.uname().sysname], [Path.home()], [os.environ.get("LOCALAPPDATA", "")]
    as a path, and the decimal text of [int(time.time())]. *)
Record environment : Type := {
  os_name : string;
  sysname : string;
  home : Path;
  localappdata : Path;
  timestamp : string
}.

Abbreviation state W := (Effects.state W event).
Abbreviation M W := (Effects.M W event).

(** A call on the world, recorded in the trace with its outcome. *)
Definition perform {W A} (c : call) (f : W -> result A * W) : M W A :=
  Effects.invoke (fun r => Called c (is_ok r)) f.

Definition log {W} (l : level) (message : string) : M W unit :=
  Effects.emit (Logged l message).

Section Remover.

Context {W : Type} `{OS W}.
Variable env : environment.

(** ** [AluminumHistoryRemover] *)

Definition browser_name : string := "Aluminum".

(** [self.history_locations] *)
Definition history_locations : list (string * Path) :=
  [ ("windows", localappdata env ++ ["Aluminum"; "User Data"; "Default"; "History"]);
    ("macos", home env ++ ["Library"; "Application Support"; "Aluminum"; "Default"; "History"]);
    ("linux", home env ++ [".config"; "aluminum"; "Default"; "History"]) ].

(** [self.backup_dir] *)
Definition backup_dir : Path :=
  joinpath (home env) (browser_name +:+ "_History_Backup_" +:+ timestamp env).

Definition determine_os : result string :=
  if String.eqb (os_name env) "nt" then Ok "windows"
  else if String.eqb (os_name env) "posix" then
    if String.eqb (Str.lower (sysname env)) "darwin" then Ok "macos"
    else Ok "linux"
  else Raise (Exn OSError "Unsupported operating system").

Definition create_backup (history_path : Path) : M W unit :=
  try_except
    (perform (Makedirs backup_dir true) (os_makedirs backup_dir true);;
     perform (Copy2 history_path backup_dir) (shutil_copy2 history_path backup_dir);;
     log Info ("Backup created at: " +:+ path_str backup_dir))
    (fun e =>
       log Error ("Failed to create backup: " +:+ exn_msg e);;
       raise e).

(** [with open(path, "wb") as f: f.write(os.urandom(path.stat().st_size))]:
    the file is opened (and so truncated) first; the argument of [write] is
    evaluated inside the block. *)
Definition overwrite_with_random (path : Path) : M W unit :=
  perform (OpenWB path) (open_wb path);;
  try_finally
    (size ← perform (StatSize path) (stat_st_size path);
     data ← perform (Urandom size) (os_urandom size);
     perform (Write path data) (file_write path data))
    (perform (Close path) (file_close path)).

Definition remove_history_file (history_path : Path) : M W unit :=
  try_except
    (present ← perform (PathExists history_path) (path_exists history_path);
     if present : bool then
       (* Overwrite the file with random data before deletion *)
       overwrite_with_random history_path;;
       perform (Remove history_path) (os_remove history_path);;
       log Info ("History file removed: " +:+ path_str history_path)
     else
       log Warning ("History file not found: " +:+ path_str history_path))
    (fun e =>
       log Error ("Failed to remove history file: " +:+ exn_msg e);;
       raise e).

Definition related_paths (base_path : Path) : list Path :=
  [ joinpath (parent base_path) "History-journal";
    joinpath (parent base_path) "Visited Links";
    joinpath (parent base_path) "Top Sites";
    joinpath (parent base_path) "Shortcuts";
    joinpath (parent base_path) "Login Data";
    joinpath (parent base_path) "Web Data" ].

(** One turn of the loop of [clear_related_files]. *)
Definition clear_related_path (path : Path) : M W unit :=
  try_except
    (file ← perform (IsFile path) (path_is_file path);
     if file : bool then remove_history_file path
     else
       dir ← perform (IsDir path) (path_is_dir path);
       if dir : bool then
         perform (Rmtree path) (shutil_rmtree path);;
         log Info ("Removed directory: " +:+ path_str path)
       else mret tt)
    (fun e =>
       log Error ("Failed to clear related file/directory "
                  +:+ path_str path +:+ ": " +:+ exn_msg e)).

Fixpoint for_each (paths : list Path) (body : Path -> M W unit) : M W unit :=
  match paths with
  | [] => mret tt
  | path :: rest => body path;; for_each rest body
  end.

Definition clear_related_files (base_path : Path) : M W unit :=
  for_each (related_paths base_path) clear_related_path.

Definition vacuum_database (db_path : Path) : M W unit :=
  try_except
    (perform (SqliteConnect db_path) (sqlite3_connect db_path);;
     perform (SqliteExecute db_path "VACUUM") (conn_execute db_path "VACUUM");;
     perform (SqliteClose db_path) (conn_close db_path);;
     log Info ("Vacuumed database: " +:+ path_str db_path))
    (fun e =>
       log Error ("Failed to vacuum database " +:+ path_str db_path
                  +:+ ": " +:+ exn_msg e)).

Definition clear_cache (cache_dir : Path) : M W unit :=
  try_except
    (present ← perform (PathExists cache_dir) (path_exists cache_dir);
     if present : bool then
       perform (Rmtree cache_dir) (shutil_rmtree cache_dir);;
       perform (Makedirs cache_dir false) (os_makedirs cache_dir false);;
       log Info ("Cleared cache directory: " +:+ path_str cache_dir)
     else
       log Warning ("Cache directory not found: " +:+ path_str cache_dir))
    (fun e => log Error ("Failed to clear cache: " +:+ exn_msg e)).

Definition restore_backup (history_path : Path) : M W unit :=
  try_except
    (let backup_file := joinpath backup_dir (name history_path) in
     present ← perform (PathExists backup_file) (path_exists backup_file);
     if present : bool then
       perform (Copy2 backup_file history_path) (shutil_copy2 backup_file history_path);;
       log Info ("Backup restored from: " +:+ path_str backup_file)
     else
       log Warning "Backup file not found, unable to restore")
    (fun e => log Error ("Failed to restore backup: " +:+ exn_msg e)).

(** The [try] block of [remove_history_atomic]. *)
Definition removal_steps (history_path : Path) : M W unit :=
  (* Step 1: Create a backup *)
  create_backup history_path;;
  (* Step 2: Remove the main history file *)
  remove_history_file history_path;;
  (* Step 3: Clear related files and directories *)
  clear_related_files history_path;;
  (* Step 4: Vacuum the database *)
  vacuum_database (joinpath (parent history_path) "Web Data");;
  (* Step 5: Clear the cache *)
  let cache_dir := joinpath (parent (parent history_path)) "Cache" in
  clear_cache cache_dir;;
  log Info "History removal completed successfully".

Definition remove_history_atomic : M W unit :=
  match determine_os with
  | Raise e => raise e
  | Ok os_type =>
      match dict_get os_type history_locations with
      | None => raise (Exn ValueError ("Unsupported operating system: " +:+ os_type))
      | Some history_path =>
          try_except
            (removal_steps history_path)
            (fun e =>
               log Error ("History removal failed: " +:+ exn_msg e);;
               restore_backup history_path)
      end
  end.

(** [run] *)
Definition run : M W unit :=
  log Info ("Starting " +:+ browser_name +:+ " history removal process");;
  try_finally
    (try_except remove_history_atomic
       (fun e => log Critical ("Critical error during history removal: " +:+ exn_msg e)))
    (log Info (browser_name +:+ " history removal process completed")).

End Remover.

(** ** A small in-memory file system

    One concrete world, used to run the script on inputs: files are byte
    strings, directories are marked, [open(path, "wb")] truncates, and
    [os.urandom] draws its bytes from a counter.  SQLite is reduced to what
    a connection does to the file system ([connect] creates a missing file;
    [VACUUM] leaves it as it is). *)

Inductive node : Type :=
| File (data : list Byte.byte)
| Dir.

Record memfs : Type := {
  nodes : gmap Path node;
  seed : N
}.

Definition set_nodes (fs : memfs) (m : gmap Path node) : memfs :=
  {| nodes := m; seed := seed fs |}.

(** The root always is a directory. *)
Definition lookup_node (fs : memfs) (p : Path) : option node :=
  match p with
  | [] => Some Dir
  | _ => nodes fs !! p
  end.

Definition is_dir_node (fs : memfs) (p : Path) : bool :=
  match lookup_node fs p with Some Dir => true | _ => false end.

Definition os_error {A} (c : exn_class) (message : string) (fs : memfs)
  : result A * memfs :=
  (Raise (Exn c message), fs).

(** The proper prefixes of [p] and [p] itself, shortest first. *)
Fixpoint prefixes (p : Path) : list Path :=
  match p with
  | [] => []
  | part :: rest => [part] :: List.map (cons part) (prefixes rest)
  end.

Definition mem_makedirs (p : Path) (exist_ok : bool) (fs : memfs)
  : result unit * memfs :=
  match lookup_node fs p with
  | Some Dir =>
      if exist_ok then (Ok tt, fs) else os_error OSError "File exists" fs
  | Some (File _) => os_error OSError "File exists" fs
  | None =>
      if forallb (fun q => match lookup_node fs q with
                           | Some (File _) => false
                           | _ => true
                           end) (prefixes p)
      then (Ok tt, set_nodes fs (foldr (fun q m => <[q := Dir]> m) (nodes fs) (prefixes p)))
      else os_error OSError "Not a directory" fs
  end.

Definition mem_copy2 (src dst : Path) (fs : memfs) : result unit * memfs :=
  match lookup_node fs src with
  | Some (File data) =>
      let target := if is_dir_node fs dst then joinpath dst (name src) else dst in
      if is_dir_node fs target then os_error OSError "Is a directory" fs
      else if is_dir_node fs (parent target)
      then (Ok tt, set_nodes fs (<[target := File data]> (nodes fs)))
      else os_error FileNotFoundError "No such file or directory" fs
  | Some Dir => os_error OSError "Is a directory" fs
  | None => os_error FileNotFoundError "No such file or directory" fs
  end.

Definition mem_exists (p : Path) (fs : memfs) : result bool * memfs :=
  (Ok (bool_decide (is_Some (lookup_node fs p))), fs).

Definition mem_is_file (p : Path) (fs : memfs) : result bool * memfs :=
  (Ok (match lookup_node fs p with Some (File _) => true | _ => false end), fs).

Definition mem_is_dir (p : Path) (fs : memfs) : result bool * memfs :=
  (Ok (is_dir_node fs p), fs).

Definition mem_open_wb (p : Path) (fs : memfs) : result unit * memfs :=
  if is_dir_node fs p then os_error OSError "Is a directory" fs
  else if is_dir_node fs (parent p)
  then (Ok tt, set_nodes fs (<[p := File []]> (nodes fs)))
  else os_error FileNotFoundError "No such file or directory" fs.

Definition mem_stat_size (p : Path) (fs : memfs) : result N * memfs :=
  match lookup_node fs p with
  | Some (File data) => (Ok (N.of_nat (length data)), fs)
  | Some Dir => (Ok 4096%N, fs)
  | None => os_error FileNotFoundError "No such file or directory" fs
  end.

Definition byte_of_N (n : N) : Byte.byte :=
  default Byte.x00 (Byte.of_N (n mod 256)).

Definition mem_urandom (n : N) (fs : memfs) : result (list Byte.byte) * memfs :=
  (Ok (List.map (fun i => byte_of_N (seed fs * 7 + N.of_nat i * 13 + 1))
         (seq 0 (N.to_nat n))),
   {| nodes := nodes fs; seed := (seed fs + n + 1)%N |}).

Definition mem_write (p : Path) (data : list Byte.byte) (fs : memfs)
  : result unit * memfs :=
  match lookup_node fs p with
  | Some (File old) => (Ok tt, set_nodes fs (<[p := File (old ++ data)]> (nodes fs)))
  | _ => os_error OSError "Bad file descriptor" fs
  end.

Definition mem_close (p : Path) (fs : memfs) : result unit * memfs := (Ok tt, fs).

Definition mem_remove (p : Path) (fs : memfs) : result unit * memfs :=
  match lookup_node fs p with
  | Some (File _) => (Ok tt, set_nodes fs (delete p (nodes fs)))
  | Some Dir => os_error PermissionError "Operation not permitted" fs
  | None => os_error FileNotFoundError "No such file or directory" fs
  end.

Definition is_prefix (p q : Path) : bool :=
  bool_decide (take (length p) q = p).

Definition mem_rmtree (p : Path) (fs : memfs) : result unit * memfs :=
  match lookup_node fs p with
  | Some Dir =>
      (Ok tt, set_nodes fs (filter (fun kv => is_prefix p (fst kv) = false) (nodes fs)))
  | Some (File _) => os_error OSError "Not a directory" fs
  | None => os_error FileNotFoundError "No such file or directory" fs
  end.

Definition mem_connect (db : Path) (fs : memfs) : result unit * memfs :=
  match lookup_node fs db with
  | Some (File _) => (Ok tt, fs)
  | Some Dir => os_error OperationalError "unable to open database file" fs
  | None =>
      if is_dir_node fs (parent db)
      then (Ok tt, set_nodes fs (<[db := File []]> (nodes fs)))
      else os_error OperationalError "unable to open database file" fs
  end.

Definition mem_execute (db : Path) (sql : string) (fs : memfs)
  : result unit * memfs := (Ok tt, fs).

#[export] Instance memfs_os : OS memfs := {
  os_makedirs := mem_makedirs;
  shutil_copy2 := mem_copy2;
  path_exists := mem_exists;
  path_is_file := mem_is_file;
  path_is_dir := mem_is_dir;
  open_wb := mem_open_wb;
  stat_st_size := mem_stat_size;
  os_urandom := mem_urandom;
  file_write := mem_write;
  file_close := mem_close;
  os_remove := mem_remove;
  shutil_rmtree := mem_rmtree;
  sqlite3_connect := mem_connect;
  conn_execute := mem_execute;
  conn_close := mem_close
}.

(** A Linux profile under [/home/u] holding a history file of three bytes. *)
Definition linux : environment := {|
  os_name := "posix";
  sysname := "Linux";
  home := ["home"; "u"];
  localappdata := [];
  timestamp := "1700000000"
|}.

Definition profile : Path := ["home"; "u"; ".config"; "aluminum"; "Default"].

Definition history_file : Path := joinpath profile "History".

Definition sample_fs (history : list Byte.byte) : memfs := {|
  nodes :=
    <[history_file := File history]>
      (foldr (fun q m => <[q := Dir]> m) ∅ (prefixes profile));
  seed := 0
|}.

Definition start (fs : memfs) : state memfs := {| world := fs; trace := [] |}.

(** The same file system with the history file held open elsewhere:
    [os.remove] is refused. *)
Definition locked_os : OS memfs := {|
  os_makedirs := mem_makedirs;
  shutil_copy2 := mem_copy2;
  path_exists := mem_exists;
  path_is_file := mem_is_file;
  path_is_dir := mem_is_dir;
  open_wb := mem_open_wb;
  stat_st_size := mem_stat_size;
  os_urandom := mem_urandom;
  file_write := mem_write;
  file_close := mem_close;
  os_remove := fun p fs => os_error PermissionError "Permission denied" fs;
  shutil_rmtree := mem_rmtree;
  sqlite3_connect := mem_connect;
  conn_execute := mem_execute;
  conn_close := mem_close
|}.

(** ** What a run does *)

(** The calls that change files (the others only ask). *)
Definition mutating (c : call) : bool :=
  match c with
  | PathExists _ | IsFile _ | IsDir _ | StatSize _ | Urandom _ => false
  | _ => true
  end.

Definition mutations (t : list event) : list call :=
  omap (fun e => match e with
                 | Called c _ => if mutating c then Some c else None
                 | Logged _ _ => None
                 end) t.

(** The data handed to [f.write] for the file [p], in order. *)
Definition written (p : Path) (t : list event) : list (list Byte.byte) :=
  omap (fun e => match e with
                 | Called (Write q data) _ =>
                     if bool_decide (q = p) then Some data else None
                 | _ => None
                 end) t.

(** The sizes asked of [os.urandom], in order. *)
Definition random_requests (t : list event) : list N :=
  omap (fun e => match e with
                 | Called (Urandom n) _ => Some n
                 | _ => None
                 end) t.

(** *** The phases of a run

    The events each step may leave, for the history path [hp]. *)

Section Phases.

Variable env : environment.
Variable hp : Path.

(** Step 1, [create_backup]. *)
Definition backup_event (e : event) : Prop :=
  match e with
  | Called (Makedirs p true) _ => p = backup_dir env
  | Called (Copy2 src dst) _ => src = hp /\ dst = backup_dir env
  | Logged _ _ => True
  | _ => False
  end.

(** [remove_history_file p]. *)
Definition removal_event (p : Path) (e : event) : Prop :=
  match e with
  | Called (PathExists q) _ | Called (OpenWB q) _ | Called (StatSize q) _
  | Called (Write q _) _ | Called (Close q) _ | Called (Remove q) _ => q = p
  | Called (Urandom _) _ => True
  | Logged _ _ => True
  | _ => False
  end.

(** Step 3, [clear_related_files]: the same on a related path, or a test
    or [rmtree] of one. *)
Definition related_event (e : event) : Prop :=
  exists p, In p (related_paths hp) /\
    (removal_event p e \/
     match e with
     | Called (IsFile q) _ | Called (IsDir q) _ | Called (Rmtree q) _ => q = p
     | _ => False
     end).

(** Step 4, [vacuum_database]. *)
Definition vacuum_event (e : event) : Prop :=
  match e with
  | Called (SqliteConnect q) _ | Called (SqliteExecute q _) _
  | Called (SqliteClose q) _ => q = joinpath (parent hp) "Web Data"
  | Logged _ _ => True
  | _ => False
  end.

(** Step 5, [clear_cache], and the closing log line. *)
Definition cache_event (e : event) : Prop :=
  match e with
  | Called (PathExists q) _ | Called (Rmtree q) _
  | Called (Makedirs q false) _ => q = joinpath (parent (parent hp)) "Cache"
  | Logged _ _ => True
  | _ => False
  end.

(** The handler: [restore_backup]. *)
Definition restore_event (e : event) : Prop :=
  match e with
  | Called (PathExists q) _ => q = joinpath (backup_dir env) (name hp)
  | Called (Copy2 src dst) _ =>
      src = joinpath (backup_dir env) (name hp) /\ dst = hp
  | Logged _ _ => True
  | _ => False
  end.

(** The calls that destroy the file [hp] or its content. *)
Definition destructive (c : call) : Prop :=
  match c with
  | OpenWB q | Write q _ | Remove q | Rmtree q => q = hp
  | _ => False
  end.

End Phases.

Section RemoverFacts.

Context {W : Type} `{OS W}.
Variable env : environment.

Lemma determine_os_known (os_type : string) :
  determine_os env = Ok os_type ->
  exists history_path, dict_get os_type (history_locations env) = Some history_path.
Proof.
  unfold determine_os. intros Hos.
  destruct (String.eqb (os_name env) "nt").
  - inversion Hos. eexists. reflexivity.
  - destruct (String.eqb (os_name env) "posix"); [|discriminate].
    destruct (String.eqb (Str.lower (sysname env)) "darwin");
      inversion Hos; eexists; reflexivity.
Qed.

(** [restore_backup] returns whatever the world does, after at most one
    copy of the backup file onto the history path. *)
Lemma restore_backup_best_effort (history_path : Path) (s : state W) :
  exists t,
    fst (restore_backup env history_path s) = Ok tt /\
    trace (snd (restore_backup env history_path s)) = trace s ++ t /\
    (mutations t = [] \/
     mutations t = [Copy2 (joinpath (backup_dir env) (name history_path)) history_path]).
Proof.
  unfold restore_backup, try_except, mbind, M_bind, perform, log, invoke, emit. simpl.
  destruct (path_exists _ (world s)) as [[[]|e] w]; simpl.
  - destruct (shutil_copy2 _ _ w) as [[[]|e] w']; simpl;
      rewrite <- !app_assoc; eexists; (split; [reflexivity|]);
      (split; [reflexivity|]); right; reflexivity.
  - rewrite <- !app_assoc; eexists; split; [reflexivity|].
    split; [reflexivity|]. left; reflexivity.
  - rewrite <- !app_assoc; eexists; split; [reflexivity|].
    split; [reflexivity|]. left; reflexivity.
Qed.

Ltac only_fs :=
  unfold overwrite_with_random, perform, log;
  repeat only_step.

Lemma remove_history_file_events (p : Path) :
  only (removal_event p) (remove_history_file p).
Proof. unfold remove_history_file. only_fs. Qed.

Lemma for_each_only (good : event -> Prop) (paths : list Path)
  (body : Path -> M W unit) :
  (forall p, In p paths -> only good (body p)) -> only good (for_each paths body).
Proof.
  induction paths as [|p rest IH]; intros Hbody; simpl.
  - apply only_ret.
  - apply only_bind; [apply Hbody; left; reflexivity|].
    intros _. apply IH. intros q Hq. apply Hbody. right. exact Hq.
Qed.

Lemma clear_related_files_events (hp : Path) :
  only (related_event hp) (clear_related_files hp).
Proof.
  unfold clear_related_files. apply for_each_only. intros p Hp.
  unfold clear_related_path.
  assert (Hremove : only (related_event hp) (remove_history_file p)).
  { eapply only_weaken; [apply remove_history_file_events|].
    intros e He. exists p. auto. }
  assert (Htest : forall c r, match c with
                              | IsFile q | IsDir q | Rmtree q => q = p
                              | _ => False
                              end -> related_event hp (Called c r)).
  { intros c r Hc. exists p. split; [exact Hp|]. right. exact Hc. }
  assert (Hlog : forall l m, related_event hp (Logged l m)).
  { intros l m. exists p. split; [exact Hp|]. left. exact I. }
  unfold perform, log.
  repeat first
    [ exact Hremove
    | apply only_bind; [|intros]
    | apply only_try_except; [|intros]
    | apply only_ret
    | apply only_invoke; intros; apply Htest; reflexivity
    | apply only_emit; apply Hlog
    | match goal with
      | |- only _ (match ?x with _ => _ end) => destruct x
      end ].
Qed.

Lemma vacuum_database_events (hp : Path) :
  only (vacuum_event hp) (vacuum_database (joinpath (parent hp) "Web Data")).
Proof. unfold vacuum_database. only_fs. Qed.

Lemma clear_cache_events (hp : Path) :
  only (cache_event hp) (clear_cache (joinpath (parent (parent hp)) "Cache")).
Proof. unfold clear_cache. only_fs. Qed.

Lemma restore_backup_events (hp : Path) :
  only (restore_event env hp) (restore_backup env hp).
Proof. unfold restore_backup. only_fs. Qed.

(** [create_backup] returns only after a copy that returned. *)
Lemma create_backup_events (hp : Path) :
  emits (create_backup env hp)
    (fun r t => Forall (backup_event env hp) t /\
                (is_ok r = true -> In (Called (Copy2 hp (backup_dir env)) true) t)).
Proof.
  intros s. unfold create_backup, try_except, mbind, M_bind, perform, log, invoke,
    emit, raise. simpl.
  destruct (os_makedirs _ _ (world s)) as [[[]|e1] w1]; simpl.
  - destruct (shutil_copy2 _ _ w1) as [[[]|e2] w2]; simpl;
      rewrite <- !app_assoc; eexists; (split; [reflexivity|]);
      (split; [repeat constructor; simpl; auto
              |first [discriminate|intros _; simpl; tauto]]).
  - rewrite <- !app_assoc; eexists; (split; [reflexivity|]).
    split; [repeat constructor; simpl; auto|discriminate].
Qed.

(** The [try] block: the backup, then the four later steps in order, which
    start only after the copy has returned. *)
Lemma removal_steps_events (hp : Path) :
  emits (removal_steps env hp)
    (fun _ t =>
       exists t1 t2,
         t = t1 ++ t2 /\ Forall (backup_event env hp) t1 /\
         phased [removal_event hp; related_event hp; vacuum_event hp; cache_event hp] t2 /\
         (t2 <> [] -> In (Called (Copy2 hp (backup_dir env)) true) t1)).
Proof.
  unfold removal_steps.
  eapply emits_weaken.
  - apply (emits_bind (create_backup env hp) _ _
             (fun _ _ t => phased [removal_event hp; related_event hp;
                                   vacuum_event hp; cache_event hp] t)
             (create_backup_events hp)).
    intros _.
    apply emits_phase; [apply remove_history_file_events|]. intros _.
    apply emits_phase; [apply clear_related_files_events|]. intros _.
    apply emits_phase; [apply vacuum_database_events|]. intros _.
    eapply emits_weaken; [|intros r t Ht; apply phased_last; exact Ht].
    apply only_bind; [apply clear_cache_events|].
    intros _. apply only_emit. exact I.
  - intros r t [(e & _ & Hb & _)|(a & t1 & t2 & -> & (Hb & Hcopy) & Hlater)].
    + exists t, []. rewrite app_nil_r. split; [reflexivity|].
      split; [exact Hb|]. split; [apply phased_nil|]. congruence.
    + exists t1, t2. split; [reflexivity|]. split; [exact Hb|].
      split; [exact Hlater|]. intros _. apply Hcopy. reflexivity.
Qed.

End RemoverFacts.

(** C3: once [determine_os] has named the system, [remove_history_atomic]
    never raises: an exception [e] raised anywhere in its [try] block
    ([removal_steps]) is caught, logged, and followed by
    [restore_backup] on the history path, whose outcome is the method's
    outcome; a block that returns is not followed by a restore.
    [restore_backup] itself returns [None] in every world, whatever its
    calls raise, and changes files by at most one [shutil.copy2] of the
    backup file onto the history path: nothing else is rolled back. *)
Theorem removal_failure_restores
  {W : Type} `{OS W} (env : environment) (os_type : string) (s : state W)
  (Hos : determine_os env = Ok os_type) :
  exists history_path : Path,
    dict_get os_type (history_locations env) = Some history_path /\
    fst (remove_history_atomic env s) = Ok tt /\
    (forall (e : exn) (s1 : state W),
       removal_steps env history_path s = (Raise e, s1) ->
       remove_history_atomic env s =
         restore_backup env history_path
           (snd (log Error ("History removal failed: " +:+ exn_msg e) s1))) /\
    (forall s1 : state W,
       removal_steps env history_path s = (Ok tt, s1) ->
       remove_history_atomic env s = (Ok tt, s1)) /\
    (forall s1 : state W,
       exists t,
         fst (restore_backup env history_path s1) = Ok tt /\
         trace (snd (restore_backup env history_path s1)) = trace s1 ++ t /\
         (mutations t = [] \/
          mutations t =
            [Copy2 (joinpath (backup_dir env) (name history_path)) history_path])).
Proof.
  destruct (determine_os_known env os_type Hos) as [history_path Hpath].
  exists history_path. split; [exact Hpath|].
  assert (Hrun : remove_history_atomic env s =
                 try_except (removal_steps env history_path)
                   (fun e => log Error ("History removal failed: " +:+ exn_msg e);;
                             restore_backup env history_path) s).
  { unfold remove_history_atomic. rewrite Hos, Hpath. reflexivity. }
  split; [|split; [|split]].
  - rewrite Hrun. unfold try_except.
    destruct (removal_steps env history_path s) as [[[]|e] s1]; [reflexivity|].
    unfold mbind, M_bind. simpl.
    destruct (restore_backup_best_effort env history_path
                {| world := world s1;
                   trace := trace s1 ++ [Logged Error ("History removal failed: " +:+ exn_msg e)] |})
      as (t & Hok & _). exact Hok.
  - intros e s1 Hsteps. rewrite Hrun. unfold try_except. rewrite Hsteps. reflexivity.
  - intros s1 Hsteps. rewrite Hrun. unfold try_except. rewrite Hsteps. reflexivity.
  - intros s1. apply restore_backup_best_effort.
Qed.

(** The theorem on the profile whose history file cannot be removed: the
    block raises [PermissionError] after the backup, and the restore copies
    the three bytes back. *)
Lemma removal_failure_restores_witness :
  determine_os linux = Ok "linux" /\
  removal_steps (H := locked_os) linux history_file
      (start (sample_fs [Byte.x01; Byte.x02; Byte.x03]))
    = (Raise (Exn PermissionError "Permission denied"),
       snd (removal_steps (H := locked_os) linux history_file
              (start (sample_fs [Byte.x01; Byte.x02; Byte.x03])))) /\
  fst (remove_history_atomic (H := locked_os) linux
         (start (sample_fs [Byte.x01; Byte.x02; Byte.x03]))) = Ok tt /\
  nodes (world (snd (remove_history_atomic (H := locked_os) linux
                       (start (sample_fs [Byte.x01; Byte.x02; Byte.x03])))))
    !! history_file = Some (File [Byte.x01; Byte.x02; Byte.x03]).
Proof.
  destruct (removal_failure_restores (H := locked_os) linux "linux"
              (start (sample_fs [Byte.x01; Byte.x02; Byte.x03])) eq_refl)
    as (history_path & Hpath & Hok & _).
  split; [reflexivity|]. split; [vm_compute; reflexivity|].
  split; [exact Hok|]. vm_compute. reflexivity.
Defined.

(** X1: the order of a run.  Once [determine_os] has named the system, the
    events of [remove_history_atomic] come in six consecutive phases, the
    backup, the removal of the history file, the related files, the
    vacuum, the cache and (after an exception) the restore, any of which
    may be cut short or empty; and every call that destroys the history
    file or its content ([open(.., "wb")], [write], [os.remove],
    [rmtree]) comes after a [shutil.copy2] of it into the backup directory
    that returned. *)
Theorem removal_steps_in_order
  {W : Type} `{OS W} (env : environment) (os_type : string) (s : state W)
  (Hos : determine_os env = Ok os_type) :
  exists (hp : Path) (t : list event),
    dict_get os_type (history_locations env) = Some hp /\
    trace (snd (remove_history_atomic env s)) = trace s ++ t /\
    phased [ backup_event env hp; removal_event hp; related_event hp;
             vacuum_event hp; cache_event hp; restore_event env hp ] t /\
    (forall (pre post : list event) (c : call) (returned : bool),
       t = pre ++ Called c returned :: post ->
       destructive hp c ->
       In (Called (Copy2 hp (backup_dir env)) true) pre).
Proof.
  destruct (determine_os_known env os_type Hos) as [hp Hpath].
  exists hp.
  assert (Hrun : remove_history_atomic env =
                 try_except (removal_steps env hp)
                   (fun e => log Error ("History removal failed: " +:+ exn_msg e);;
                             restore_backup env hp)).
  { unfold remove_history_atomic. rewrite Hos, Hpath. reflexivity. }
  assert (Hhandler : forall e,
            only (restore_event env hp)
              (log Error ("History removal failed: " +:+ exn_msg e);;
               restore_backup env hp)).
  { intros e. apply only_bind; [apply only_emit; exact I|].
    intros _. apply restore_backup_events. }
  pose proof (emits_try_except _ _ _ (fun _ _ t => Forall (restore_event env hp) t)
                (removal_steps_events env hp) Hhandler s) as (t & Ht & Hshape).
  assert (Hparts : exists t1 t2 tr,
            t = t1 ++ t2 ++ tr /\ Forall (backup_event env hp) t1 /\
            phased [removal_event hp; related_event hp; vacuum_event hp;
                    cache_event hp] t2 /\
            Forall (restore_event env hp) tr /\
            (t2 <> [] -> In (Called (Copy2 hp (backup_dir env)) true) t1)).
  { destruct Hshape as [(a & _ & t1 & t2 & -> & Hb & Hl & Hc)
                       |(e & t' & tr & -> & (t1 & t2 & -> & Hb & Hl & Hc) & Hr)].
    - exists t1, t2, []. rewrite app_nil_r. auto.
    - exists t1, t2, tr. rewrite <- app_assoc. auto. }
  destruct Hparts as (t1 & t2 & tr & -> & Hb & Hl & Hr & Hc).
  exists (t1 ++ t2 ++ tr). split; [exact Hpath|].
  split; [rewrite Hrun; exact Ht|]. split.
  - exists t1, (t2 ++ tr). split; [reflexivity|]. split; [exact Hb|].
    apply (phased_snoc [removal_event hp; related_event hp; vacuum_event hp;
                        cache_event hp] (restore_event env hp)); assumption.
  - intros pre post c returned Heq Hd.
    assert (Hnb : ~ backup_event env hp (Called c returned))
      by (destruct c; simpl in *; tauto).
    assert (Hnr : ~ restore_event env hp (Called c returned))
      by (destruct c; simpl in *; tauto).
    destruct (after_first_phase _ _ _ _ _ _ Heq Hb Hnb) as [pre' ->].
    apply in_or_app. left. apply Hc. intros ->. simpl in Heq.
    rewrite <- app_assoc in Heq. apply app_inv_head in Heq. subst tr.
    apply Forall_app in Hr as [_ Hr]. inversion Hr. contradiction.
Qed.

(** The order theorem on the sample profile in memory. *)
Lemma removal_steps_in_order_witness :
  determine_os linux = Ok "linux" /\
  exists (hp : Path) (t : list event),
    dict_get "linux" (history_locations linux) = Some hp /\
    trace (snd (remove_history_atomic linux
                  (start (sample_fs [Byte.x01; Byte.x02; Byte.x03])))) = [] ++ t /\
    phased [ backup_event linux hp; removal_event hp; related_event hp;
             vacuum_event hp; cache_event hp; restore_event linux hp ] t /\
    (forall (pre post : list event) (c : call) (returned : bool),
       t = pre ++ Called c returned :: post ->
       destructive hp c ->
       In (Called (Copy2 hp (backup_dir linux)) true) pre).
Proof.
  split; [reflexivity|].
  exact (removal_steps_in_order linux "linux"
           (start (sample_fs [Byte.x01; Byte.x02; Byte.x03])) eq_refl).
Defined.

(** C2 (what the code does at the overwrite step): on a profile whose
    history file holds [data], the run of [remove_history_atomic] returns,
    asks [os.urandom] for [0] bytes and hands the empty byte string to the
    one [f.write] on the history file: [open(path, "wb")] has truncated the
    file before [path.stat().st_size] is read.  No byte of random data is
    written over the [length data] bytes of history. *)
Theorem overwrite_writes_no_random_bytes (data : list Byte.byte) :
  let run := remove_history_atomic linux (start (sample_fs data)) in
  fst run = Ok tt /\
  random_requests (trace (snd run)) = [0%N] /\
  written history_file (trace (snd run)) = [[]] /\
  nodes (world (snd run)) !! history_file = None /\
  nodes (world (snd run)) !! joinpath (backup_dir linux) "History" = Some (File data).
Proof. vm_compute. repeat split; reflexivity. Qed.

End HistoryRemoval.


(* ===================================================================== *)
(** * src/tools/webapps/Utility.Coder.py                                   *)
(* ===================================================================== *)

Module Coder.

(** What a method hands back: [None] or some other object. *)
Inductive object : Type :=
| NoneObject
| StrObject (s : string)
| IntObject (z : Z).

(** The attributes [__init__] sets. *)
Record coder : Type := {
  language_extensions : list (string * string);
  code_snippets : list (string * object);
  api_endpoints : list (string * object);
  current_project : object
}.

Definition init : coder := {|
  language_extensions :=
    [ ("python", ".py"); ("javascript", ".js"); ("html", ".html");
      ("css", ".css"); ("java", ".java"); ("c++", ".cpp"); ("ruby", ".rb");
      ("php", ".php"); ("swift", ".swift"); ("go", ".go"); ("rust", ".rs");
      ("typescript", ".ts") ];
  code_snippets := [];
  api_endpoints := [];
  current_project := NoneObject
|}.

(** The body [pass]: nothing happens and the call evaluates to [None]. *)
Definition pass (self : coder) : object * coder := (NoneObject, self).

(** The methods, each with the parameters of its [def]. *)

Definition detect_language (self : coder) (code : string) : object * coder :=
  pass self.

Definition format_code (self : coder) (code : string) (language : string) : object * coder :=
  pass self.

Definition generate_documentation (self : coder) (code : string) (language : string) : object * coder :=
  pass self.

Definition analyze_complexity (self : coder) (code : string) : object * coder :=
  pass self.

Definition suggest_optimizations (self : coder) (code : string) (language : string) : object * coder :=
  pass self.

Definition search_documentation (self : coder) (query : string) (language : string) : object * coder :=
  pass self.

Definition generate_unit_tests (self : coder) (code : string) (language : string) : object * coder :=
  pass self.

Definition lint_code (self : coder) (code : string) (language : string) : object * coder :=
  pass self.

Definition encrypt_code (self : coder) (code : string) (key : string) : object * coder :=
  pass self.

Definition decrypt_code (self : coder) (encrypted_code : string) (key : string) : object * coder :=
  pass self.

Definition compress_code (self : coder) (code : string) : object * coder :=
  pass self.

Definition decompress_code (self : coder) (compressed_code : string) : object * coder :=
  pass self.

Definition convert_language (self : coder) (code : string) (from_language : string) (to_language : string) : object * coder :=
  pass self.

Definition generate_api_documentation (self : coder) (code : string) (language : string) : object * coder :=
  pass self.

Definition analyze_dependencies (self : coder) (code : string) (language : string) : object * coder :=
  pass self.

Definition generate_code_snippet (self : coder) (description : string) (language : string) : object * coder :=
  pass self.

Definition analyze_code_quality (self : coder) (code : string) (language : string) : object * coder :=
  pass self.

Definition generate_commit_message (self : coder) (diff : string) : object * coder :=
  pass self.

Definition suggest_code_reviews (self : coder) (code : string) (language : string) : object * coder :=
  pass self.

Definition generate_code_metrics (self : coder) (code : string) (language : string) : object * coder :=
  pass self.

Definition suggest_refactoring (self : coder) (code : string) (language : string) : object * coder :=
  pass self.

Definition generate_code_summary (self : coder) (code : string) (language : string) : object * coder :=
  pass self.

Definition detect_security_vulnerabilities (self : coder) (code : string) (language : string) : object * coder :=
  pass self.

Definition generate_performance_profile (self : coder) (code : string) (language : string) : object * coder :=
  pass self.

Definition suggest_design_patterns (self : coder) (code : string) (language : string) : object * coder :=
  pass self.

Definition generate_code_visualization (self : coder) (code : string) (language : string) : object * coder :=
  pass self.

Definition analyze_code_similarity (self : coder) (code1 : string) (code2 : string) (language : string) : object * coder :=
  pass self.

Definition generate_code_documentation_website (self : coder) (code : string) (language : string) : object * coder :=
  pass self.

Definition suggest_code_completions (self : coder) (code : string) (cursor_position : Z) (language : string) : object * coder :=
  pass self.

Definition generate_code_quiz (self : coder) (code : string) (language : string) : object * coder :=
  pass self.

Definition suggest_code_optimizations (self : coder) (code : string) (language : string) : object * coder :=
  pass self.

Definition generate_code_documentation_pdf (self : coder) (code : string) (language : string) : object * coder :=
  pass self.

Definition analyze_code_readability (self : coder) (code : string) (language : string) : object * coder :=
  pass self.


(** A call of one of the methods with its arguments. *)
Inductive invocation : Type :=
| Call_detect_language (code : string)
| Call_format_code (code : string) (language : string)
| Call_generate_documentation (code : string) (language : string)
| Call_analyze_complexity (code : string)
| Call_suggest_optimizations (code : string) (language : string)
| Call_search_documentation (query : string) (language : string)
| Call_generate_unit_tests (code : string) (language : string)
| Call_lint_code (code : string) (language : string)
| Call_encrypt_code (code : string) (key : string)
| Call_decrypt_code (encrypted_code : string) (key : string)
| Call_compress_code (code : string)
| Call_decompress_code (compressed_code : string)
| Call_convert_language (code : string) (from_language : string) (to_language : string)
| Call_generate_api_documentation (code : string) (language : string)
| Call_analyze_dependencies (code : string) (language : string)
| Call_generate_code_snippet (description : string) (language : string)
| Call_analyze_code_quality (code : string) (language : string)
| Call_generate_commit_message (diff : string)
| Call_suggest_code_reviews (code : string) (language : string)
| Call_generate_code_metrics (code : string) (language : string)
| Call_suggest_refactoring (code : string) (language : string)
| Call_generate_code_summary (code : string) (language : string)
| Call_detect_security_vulnerabilities (code : string) (language : string)
| Call_generate_performance_profile (code : string) (language : string)
| Call_suggest_design_patterns (code : string) (language : string)
| Call_generate_code_visualization (code : string) (language : string)
| Call_analyze_code_similarity (code1 : string) (code2 : string) (language : string)
| Call_generate_code_documentation_website (code : string) (language : string)
| Call_suggest_code_completions (code : string) (cursor_position : Z) (language : string)
| Call_generate_code_quiz (code : string) (language : string)
| Call_suggest_code_optimizations (code : string) (language : string)
| Call_generate_code_documentation_pdf (code : string) (language : string)
| Call_analyze_code_readability (code : string) (language : string).

Definition invoke (i : invocation) (self : coder) : object * coder :=
  match i with
  | Call_detect_language code => detect_language self code
  | Call_format_code code language => format_code self code language
  | Call_generate_documentation code language => generate_documentation self code language
  | Call_analyze_complexity code => analyze_complexity self code
  | Call_suggest_optimizations code language => suggest_optimizations self code language
  | Call_search_documentation query language => search_documentation self query language
  | Call_generate_unit_tests code language => generate_unit_tests self code language
  | Call_lint_code code language => lint_code self code language
  | Call_encrypt_code code key => encrypt_code self code key
  | Call_decrypt_code encrypted_code key => decrypt_code self encrypted_code key
  | Call_compress_code code => compress_code self code
  | Call_decompress_code compressed_code => decompress_code self compressed_code
  | Call_convert_language code from_language to_language => convert_language self code from_language to_language
  | Call_generate_api_documentation code language => generate_api_documentation self code language
  | Call_analyze_dependencies code language => analyze_dependencies self code language
  | Call_generate_code_snippet description language => generate_code_snippet self description language
  | Call_analyze_code_quality code language => analyze_code_quality self code language
  | Call_generate_commit_message diff => generate_commit_message self diff
  | Call_suggest_code_reviews code language => suggest_code_reviews self code language
  | Call_generate_code_metrics code language => generate_code_metrics self code language
  | Call_suggest_refactoring code language => suggest_refactoring self code language
  | Call_generate_code_summary code language => generate_code_summary self code language
  | Call_detect_security_vulnerabilities code language => detect_security_vulnerabilities self code language
  | Call_generate_performance_profile code language => generate_performance_profile self code language
  | Call_suggest_design_patterns code language => suggest_design_patterns self code language
  | Call_generate_code_visualization code language => generate_code_visualization self code language
  | Call_analyze_code_similarity code1 code2 language => analyze_code_similarity self code1 code2 language
  | Call_generate_code_documentation_website code language => generate_code_documentation_website self code language
  | Call_suggest_code_completions code cursor_position language => suggest_code_completions self code cursor_position language
  | Call_generate_code_quiz code language => generate_code_quiz self code language
  | Call_suggest_code_optimizations code language => suggest_code_optimizations self code language
  | Call_generate_code_documentation_pdf code language => generate_code_documentation_pdf self code language
  | Call_analyze_code_readability code language => analyze_code_readability self code language
  end.

(** The names of the methods other than [__init__]. *)
Definition method_names : list string :=
  [ "detect_language";
    "format_code";
    "generate_documentation";
    "analyze_complexity";
    "suggest_optimizations";
    "search_documentation";
    "generate_unit_tests";
    "lint_code";
    "encrypt_code";
    "decrypt_code";
    "compress_code";
    "decompress_code";
    "convert_language";
    "generate_api_documentation";
    "analyze_dependencies";
    "generate_code_snippet";
    "analyze_code_quality";
    "generate_commit_message";
    "suggest_code_reviews";
    "generate_code_metrics";
    "suggest_refactoring";
    "generate_code_summary";
    "detect_security_vulnerabilities";
    "generate_performance_profile";
    "suggest_design_patterns";
    "generate_code_visualization";
    "analyze_code_similarity";
    "generate_code_documentation_website";
    "suggest_code_completions";
    "generate_code_quiz";
    "suggest_code_optimizations";
    "generate_code_documentation_pdf";
    "analyze_code_readability" ].

Definition method_name (i : invocation) : string :=
  match i with
  | Call_detect_language _ => "detect_language"
  | Call_format_code _ _ => "format_code"
  | Call_generate_documentation _ _ => "generate_documentation"
  | Call_analyze_complexity _ => "analyze_complexity"
  | Call_suggest_optimizations _ _ => "suggest_optimizations"
  | Call_search_documentation _ _ => "search_documentation"
  | Call_generate_unit_tests _ _ => "generate_unit_tests"
  | Call_lint_code _ _ => "lint_code"
  | Call_encrypt_code _ _ => "encrypt_code"
  | Call_decrypt_code _ _ => "decrypt_code"
  | Call_compress_code _ => "compress_code"
  | Call_decompress_code _ => "decompress_code"
  | Call_convert_language _ _ _ => "convert_language"
  | Call_generate_api_documentation _ _ => "generate_api_documentation"
  | Call_analyze_dependencies _ _ => "analyze_dependencies"
  | Call_generate_code_snippet _ _ => "generate_code_snippet"
  | Call_analyze_code_quality _ _ => "analyze_code_quality"
  | Call_generate_commit_message _ => "generate_commit_message"
  | Call_suggest_code_reviews _ _ => "suggest_code_reviews"
  | Call_generate_code_metrics _ _ => "generate_code_metrics"
  | Call_suggest_refactoring _ _ => "suggest_refactoring"
  | Call_generate_code_summary _ _ => "generate_code_summary"
  | Call_detect_security_vulnerabilities _ _ => "detect_security_vulnerabilities"
  | Call_generate_performance_profile _ _ => "generate_performance_profile"
  | Call_suggest_design_patterns _ _ => "suggest_design_patterns"
  | Call_generate_code_visualization _ _ => "generate_code_visualization"
  | Call_analyze_code_similarity _ _ _ => "analyze_code_similarity"
  | Call_generate_code_documentation_website _ _ => "generate_code_documentation_website"
  | Call_suggest_code_completions _ _ _ => "suggest_code_completions"
  | Call_generate_code_quiz _ _ => "generate_code_quiz"
  | Call_suggest_code_optimizations _ _ => "suggest_code_optimizations"
  | Call_generate_code_documentation_pdf _ _ => "generate_code_documentation_pdf"
  | Call_analyze_code_readability _ _ => "analyze_code_readability"
  end.

(** C9: every method of [AluminumCodingUtility] other than [__init__]
    (there are 33, from [detect_language] to [analyze_code_readability]) is
    a stub: whatever the arguments and whatever the object's attributes, the
    call returns [None] and leaves [language_extensions], [code_snippets],
    [api_endpoints] and [current_project] as they were. *)
Theorem every_method_is_a_stub (i : invocation) (self : coder) :
  invoke i self = (NoneObject, self) /\
  In (method_name i) method_names /\
  length method_names = 33 /\
  NoDup method_names.
Proof.
  split; [destruct i; reflexivity|].
  split; [destruct i; simpl; tauto|].
  split; [reflexivity|].
  apply (bool_decide_unpack _). vm_compute. exact I.
Qed.

End Coder.


(* ===================================================================== *)
(** * src/sys/History/BrowserHistory.py                                    *)
(* ===================================================================== *)

Module BrowserHistory.

(** ** The [urls] table and the query of [get_history]

    The methods run inside [with AluminumBrowserHistory(...) as history]:
    [self.cursor] is a cursor on a copy of the browser's History database,
    which has the table [urls].  The database is the list of its rows. *)

Inductive sql_value : Type :=
| Null
| Integer (z : Z)
| Text (s : string).

(** A row of [urls], the five columns the queries select:
    [id, url, title, visit_count, last_visit_time]. *)
Record url_row : Type := {
  row_id : sql_value;
  row_url : sql_value;
  row_title : sql_value;
  row_visit_count : sql_value;
  row_last_visit_time : sql_value
}.

(** SQLite's order on values: [NULL], then numbers, then text. *)
Definition sql_leb (a b : sql_value) : bool :=
  match a, b with
  | Null, _ => true
  | Integer _, Null => false
  | Integer x, Integer y => (x <=? y)%Z
  | Integer _, Text _ => true
  | Text x, Text y => String.leb x y
  | Text _, _ => false
  end.

(** [ORDER BY urls.last_visit_time DESC], rows with equal keys in table
    order. *)
Fixpoint insert_desc (r : url_row) (sorted : list url_row) : list url_row :=
  match sorted with
  | [] => [r]
  | x :: rest =>
      if negb (sql_leb (row_last_visit_time x) (row_last_visit_time r))
      then x :: insert_desc r rest
      else r :: sorted
  end.

Definition order_by_last_visit_desc (rows : list url_row) : list url_row :=
  foldr insert_desc [] rows.

(** [LIMIT ? OFFSET ?]: SQLite skips [offset] rows (none when negative)
    and then keeps at most [limit] rows (all of them when negative). *)
Definition limit_offset {A} (limit offset : Z) (rows : list A) : list A :=
  let rest := drop (Z.to_nat offset) rows in
  if (limit <? 0)%Z then rest else take (Z.to_nat limit) rest.

(** The [SELECT] of [get_history]. *)
Definition select_history (limit offset : Z) (urls : list url_row) : list url_row :=
  limit_offset limit offset (order_by_last_visit_desc urls).

(** ** [_convert_chrome_time] *)

(** A [datetime.datetime], as microseconds since 1601-01-01 00:00. *)
Record datetime : Type := { microseconds_since_1601 : Z }.

(** [datetime.min] and [datetime.max] on that scale (584388 days before and
    3067671 days after the origin). *)
Definition datetime_min : Z := (- 584388 * 86400 * 1000000)%Z.
Definition datetime_max : Z := (3067671 * 86400 * 1000000 - 1)%Z.

Definition _convert_chrome_time (chrome_timestamp : sql_value) : result datetime :=
  match chrome_timestamp with
  | Integer us =>
      if (datetime_min <=? us)%Z && (us <=? datetime_max)%Z
      then Ok {| microseconds_since_1601 := us |}
      else Raise (Exn OverflowError "date value out of range")
  | Null =>
      Raise (Exn TypeError
               "unsupported type for timedelta microseconds component: NoneType")
  | Text _ =>
      Raise (Exn TypeError
               "unsupported type for timedelta microseconds component: str")
  end.

(** ** [get_history] *)

(** The dictionaries [get_history] returns. *)
Record entry : Type := {
  id : sql_value;
  url : sql_value;
  title : sql_value;
  visit_count : sql_value;
  last_visit_time : datetime
}.

Definition entry_of_row (row : url_row) : result entry :=
  t ← _convert_chrome_time (row_last_visit_time row);
  Ok {| id := row_id row;
        url := row_url row;
        title := row_title row;
        visit_count := row_visit_count row;
        last_visit_time := t |}.

(** [for row in rows: history.append({...})] *)
Fixpoint entries_of_rows (rows : list url_row) : result (list entry) :=
  match rows with
  | [] => Ok []
  | row :: rest =>
      e ← entry_of_row row;
      es ← entries_of_rows rest;
      Ok (e :: es)
  end.

Definition get_history (urls : list url_row) (limit offset : Z)
  : result (list entry) :=
  let rows := select_history limit offset urls in
  entries_of_rows rows.

(** ** [export_history] *)

(** What the export does to files. *)
Inductive event : Type :=
| OpenedForWriting (path : string) (returned : bool)
| Wrote (path : string) (text : string) (returned : bool)
| Closed (path : string) (returned : bool).

(** The file system: [open(path, 'w', ...)], [f.write(text)] and the close
    at the end of the [with] block; each may raise. *)
Class TextFiles (F : Type) := {
  open_w : string -> F -> result unit * F;
  file_write : string -> string -> F -> result unit * F;
  file_close : string -> F -> result unit * F
}.

Abbreviation M F := (Effects.M F event).

Section ExportHistory.

Context {F : Type} `{TextFiles F}.

(** For a non-empty list, the chunks [json.dump] writes before it returns
    or raises, and the line [csv.DictWriter] writes for one row. *)
Variable json_chunks : list entry -> list string * result unit.
Variable csv_line : entry -> string.

Definition write (path text : string) : M F unit :=
  invoke (fun r => Wrote path text (is_ok r)) (file_write path text).

(** [with open(path, 'w', ...) as f: body] *)
Definition with_open (path : string) (body : M F unit) : M F unit :=
  invoke (fun r => OpenedForWriting path (is_ok r)) (open_w path);;
  try_finally body
    (invoke (fun r => Closed path (is_ok r)) (file_close path)).

Fixpoint write_all (path : string) (texts : list string) : M F unit :=
  match texts with
  | [] => mret tt
  | text :: rest => write path text;; write_all path rest
  end.

(** [json.dump(history, f, ensure_ascii=False, indent=4)]: the empty list
    is the single chunk ["[]"]. *)
Definition json_dump (history : list entry) (path : string) : M F unit :=
  match history with
  | [] => write path "[]"
  | _ :: _ =>
      let '(chunks, outcome) := json_chunks history in
      write_all path chunks;;
      match outcome with
      | Ok _ => mret tt
      | Raise e => raise e
      end
  end.

(** The header line of [writer.writeheader()]. *)
Definition csv_header : string :=
  "id,url,title,visit_count,last_visit_time" +:+ String "013" (String "010" "").

Definition export_history (urls : list url_row) (output_file format : string)
  : M F bool :=
  match get_history urls 0 0 with  (* Get all history entries *)
  | Raise e => raise e
  | Ok history =>
      try_except_of [OSError; ValueError]
        ((if String.eqb (Str.lower format) "json" then
            with_open output_file (json_dump history output_file)
          else if String.eqb (Str.lower format) "csv" then
            with_open output_file
              (write output_file csv_header;;
               write_all output_file (List.map csv_line history))
          else
            raise (Exn ValueError "Unsupported export format. Use 'json' or 'csv'."));;
         mret true)
        (fun _ => mret false)
  end.

End ExportHistory.

(** ** What is exported *)

(** The texts written to files, in order. *)
Definition written_texts (t : list event) : list string :=
  omap (fun e => match e with
                 | Wrote _ text _ => Some text
                 | _ => None
                 end) t.

(** What an export without any entry consists of. *)
Definition empty_export (format : string) : string :=
  if String.eqb (Str.lower format) "json" then "[]" else csv_header.

(** [LIMIT 0] selects no row. *)
Lemma get_history_limit_0 (urls : list url_row) (offset : Z) :
  get_history urls 0 offset = Ok [].
Proof. reflexivity. Qed.

(** In-memory text files, to run the export on. *)
#[export] Instance memory_files : TextFiles (gmap string string) := {
  open_w := fun path fs => (Ok tt, <[path := ""]> fs);
  file_write := fun path text fs =>
    (Ok tt, <[path := default "" (fs !! path) +:+ text]> fs);
  file_close := fun path fs => (Ok tt, fs)
}.

(** C6: whatever rows [urls] holds, [export_history] obtains its entries
    with [get_history(limit=0)], which selects none.  For the formats
    ['json'] and ['csv'] (in any letter case) the only text it ever writes
    is the empty export, ["[]"] or the CSV header line, and, when opening,
    writing and closing the output file raise nothing, it returns [True]
    after exactly that one write. *)
Theorem export_history_exports_nothing
  {F : Type} `{TextFiles F}
  (json_chunks : list entry -> list string * result unit)
  (csv_line : entry -> string)
  (urls : list url_row) (output_file format : string) (s : state F event)
  (Hformat : Str.lower format = "json" \/ Str.lower format = "csv") :
  get_history urls 0 0 = Ok [] /\
  (exists t,
     trace (snd (export_history json_chunks csv_line urls output_file format s))
       = trace s ++ t /\
     (written_texts t = [] \/ written_texts t = [empty_export format])) /\
  (forall fs1 fs2 fs3 : F,
     open_w output_file (world s) = (Ok tt, fs1) ->
     file_write output_file (empty_export format) fs1 = (Ok tt, fs2) ->
     file_close output_file fs2 = (Ok tt, fs3) ->
     export_history json_chunks csv_line urls output_file format s =
       (Ok true,
        {| world := fs3;
           trace := trace s ++
             [ OpenedForWriting output_file true;
               Wrote output_file (empty_export format) true;
               Closed output_file true ] |})).
Proof.
  split; [reflexivity|].
  unfold export_history, empty_export. rewrite get_history_limit_0.
  destruct Hformat as [-> | ->]; simpl;
    unfold try_except_of, with_open, json_dump, write, try_finally, mbind,
      M_bind, invoke, mret, M_ret; simpl.
  all: split.
  all: try (intros fs1 fs2 fs3 Hopen Hwrite Hclose;
            rewrite Hopen; simpl; rewrite Hwrite; simpl; rewrite Hclose; simpl;
            rewrite <- !app_assoc; reflexivity).
  all: destruct (open_w output_file (world s)) as [[[]|e1] fs1]; simpl;
    [ match goal with
      | |- context [file_write ?p ?text ?f] =>
          destruct (file_write p text f) as [[[]|e2] fs2]; simpl
      end;
      match goal with
      | |- context [file_close ?p ?f] =>
          destruct (file_close p f) as [[[]|e3] fs3]; simpl
      end;
      repeat match goal with
             | |- context [if ?b then _ else _] => destruct b; simpl
             end;
      rewrite <- ?app_assoc; eexists; (split; [reflexivity|]); right; reflexivity
    | repeat match goal with
             | |- context [if ?b then _ else _] => destruct b; simpl
             end;
      eexists; (split; [reflexivity|]); left; reflexivity ].
Qed.

(** The theorem on a table of two rows, exported as JSON into memory. *)
Lemma export_history_exports_nothing_witness :
  let urls :=
    [ {| row_id := Integer 1; row_url := Text "https://a.example/";
         row_title := Text "A"; row_visit_count := Integer 3;
         row_last_visit_time := Integer 13350000000000000 |};
      {| row_id := Integer 2; row_url := Text "https://b.example/";
         row_title := Null; row_visit_count := Integer 1;
         row_last_visit_time := Integer 13360000000000000 |} ] in
  let s := {| world := (∅ : gmap string string); trace := [] |} in
  let run :=
    export_history (fun _ => ([], Raise (Exn TypeError "")))
      (fun _ => "") urls "out.json" "JSON" s in
  Str.lower "JSON" = "json" /\
  fst run = Ok true /\
  world (snd run) !! "out.json" = Some "[]" /\
  length (select_history 100 0 urls) = 2.
Proof.
  intros urls s run.
  destruct (export_history_exports_nothing
              (fun _ => ([], Raise (Exn TypeError ""))) (fun _ => "")
              urls "out.json" "JSON" s (or_introl eq_refl))
    as (_ & _ & Hrun).
  specialize (Hrun _ _ _ eq_refl eq_refl eq_refl).
  split; [reflexivity|].
  unfold run. rewrite Hrun. repeat split; reflexivity.
Defined.

End BrowserHistory.


(* ===================================================================== *)
(** * src/sys/database.py                                                  *)
(* ===================================================================== *)

Module Database.

(** ** SQLite and the files, from outside *)

(** A [sqlite3.Connection], by its handle. *)
Definition conn : Type := nat.

Inductive sql_value : Type :=
| Null
| Integer (z : Z)
| Text (s : string)
| Blob (b : list Byte.byte).

(** A [sqlite3.Row], and [dict(row)]: the columns with their values. *)
Definition row : Type := list (string * sql_value).

Inductive level : Set := Debug | Info.

(** What a method does, in order.  [Connected path managed c]:
    [sqlite3.connect(path)] was called, from [get_connection] when
    [managed], and returned [c] (or raised, [None]). *)
Inductive event : Type :=
| Connected (path : string) (managed : bool) (c : option conn)
| Closed (c : conn) (returned : bool)
| Executed (c : conn) (sql : string) (params : list sql_value) (returned : bool)
| Committed (c : conn) (returned : bool)
| BackedUp (source target : conn) (returned : bool)
| FileCall (function path : string) (returned : bool)
| Logged (l : level) (message : string).

(** The SQLite library and the file functions the class calls.  Each call
    may change the world and may raise; [execute] returns the rows the
    cursor then holds. *)
Class Sqlite (W : Type) := {
  sqlite3_connect : string -> W -> result conn * W;
  conn_close : conn -> W -> result unit * W;
  execute : conn -> string -> list sql_value -> W -> result (list row) * W;
  conn_commit : conn -> W -> result unit * W;
  conn_backup : conn -> conn -> W -> result unit * W;
  os_path_getsize : string -> W -> result Z * W;
  os_path_exists : string -> W -> result bool * W;
  json_dump_to : string -> list row -> W -> result unit * W;
  json_load_from : string -> W -> result (list row) * W
}.

Abbreviation M W := (Effects.M W event).

(** ** The SQL texts (line breaks and indentation taken out) *)

Definition sql_create_history : string :=
  "CREATE TABLE IF NOT EXISTS history ( id INTEGER PRIMARY KEY AUTOINCREMENT, url TEXT NOT NULL, title TEXT, visit_time TIMESTAMP DEFAULT CURRENT_TIMESTAMP, visit_count INTEGER DEFAULT 1 )".

Definition sql_create_bookmarks : string :=
  "CREATE TABLE IF NOT EXISTS bookmarks ( id INTEGER PRIMARY KEY AUTOINCREMENT, url TEXT NOT NULL, title TEXT, added_time TIMESTAMP DEFAULT CURRENT_TIMESTAMP, folder TEXT DEFAULT 'root' )".

Definition sql_create_settings : string :=
  "CREATE TABLE IF NOT EXISTS settings ( key TEXT PRIMARY KEY, value TEXT )".

Definition sql_create_cache : string :=
  "CREATE TABLE IF NOT EXISTS cache ( url TEXT PRIMARY KEY, content BLOB, last_updated TIMESTAMP DEFAULT CURRENT_TIMESTAMP )".

Definition sql_upsert_history : string :=
  "INSERT INTO history (url, title) VALUES (?, ?) ON CONFLICT(url) DO UPDATE SET visit_count = visit_count + 1, visit_time = CURRENT_TIMESTAMP".

Definition sql_select_history : string :=
  "SELECT * FROM history ORDER BY visit_time DESC LIMIT ?".

Definition sql_insert_bookmark : string :=
  "INSERT INTO bookmarks (url, title, folder) VALUES (?, ?, ?)".

Definition sql_replace_setting : string :=
  "INSERT OR REPLACE INTO settings (key, value) VALUES (?, ?)".

Definition sql_replace_cache : string :=
  "INSERT OR REPLACE INTO cache (url, content, last_updated) VALUES (?, ?, CURRENT_TIMESTAMP)".

Definition sql_most_visited : string :=
  "SELECT url, title, visit_count FROM history ORDER BY visit_count DESC LIMIT ?".

Definition sql_search_history : string :=
  "SELECT * FROM history WHERE url LIKE ? OR title LIKE ? ORDER BY visit_time DESC LIMIT ?".

Definition sql_clear_history_older : string :=
  "DELETE FROM history WHERE visit_time < datetime('now', ?)".

Definition sql_replace_bookmark : string :=
  "INSERT OR REPLACE INTO bookmarks (url, title, folder) VALUES (?, ?, ?)".

Section AluminumDatabase.

Context {W : Type} `{Sqlite W}.

(** [self.db_path]; [self.conn] is set to [None] by [__init__] and assigned
    nowhere else, so the object has no other state. *)
Variable db_path : string.

Definition log (l : level) (message : string) : M W unit :=
  emit (Logged l message).

Definition close (c : conn) : M W unit :=
  invoke (fun r => Closed c (is_ok r)) (conn_close c).

Definition cursor_execute (c : conn) (sql : string) (params : list sql_value)
  : M W (list row) :=
  invoke (fun r => Executed c sql params (is_ok r)) (execute c sql params).

Definition commit (c : conn) : M W unit :=
  invoke (fun r => Committed c (is_ok r)) (conn_commit c).

Definition file_call {A} (function path : string) (f : W -> result A * W) : M W A :=
  invoke (fun r => FileCall function path (is_ok r)) f.

Definition connection_of (r : result conn) : option conn :=
  match r with Ok c => Some c | Raise _ => None end.

(** [with self.get_connection() as conn: body].  When [sqlite3.connect]
    raises, [conn] is unbound in the [finally] block and [if conn:] raises
    [UnboundLocalError] in place of the first exception. *)
Definition get_connection {A} (body : conn -> M W A) : M W A := fun s =>
  match invoke (fun r => Connected db_path true (connection_of r))
          (sqlite3_connect db_path) s with
  | (Ok c, s') => try_finally (body c) (close c) s'
  | (Raise _, s') =>
      (Raise (Exn UnboundLocalError
                "cannot access local variable 'conn' where it is not associated with a value"),
       s')
  end.

(** [cursor.fetchone()], [row[0]], [row['name']] *)
Definition fetchone (rows : list row) : option row := head rows.

Definition row_index (r : option row) (i : nat) : result sql_value :=
  match r with
  | None => Raise (Exn TypeError "'NoneType' object is not subscriptable")
  | Some r =>
      match nth_error r i with
      | Some (_, v) => Ok v
      | None => Raise (Exn IndexError "Index out of range")
      end
  end.

Definition row_item (r : row) (key : string) : result sql_value :=
  match dict_get key r with
  | Some v => Ok v
  | None => Raise (Exn IndexError "No item with that key")
  end.

Definition lift {A} (r : result A) : M W A :=
  match r with
  | Ok a => mret a
  | Raise e => raise e
  end.

(** ** The methods *)

Definition create_tables : M W unit :=
  get_connection (fun conn =>
    cursor_execute conn sql_create_history [];;
    cursor_execute conn sql_create_bookmarks [];;
    cursor_execute conn sql_create_settings [];;
    cursor_execute conn sql_create_cache [];;
    commit conn);;
  log Info "Database tables created successfully".

(** [__init__] *)
Definition init : M W unit := create_tables.

Definition add_history_entry (url title : string) : M W unit :=
  get_connection (fun conn =>
    cursor_execute conn sql_upsert_history [Text url; Text title];;
    commit conn);;
  log Debug ("Added history entry: " +:+ url).

Definition get_history (limit : Z) : M W (list row) :=
  get_connection (fun conn =>
    cursor_execute conn sql_select_history [Integer limit]).

Definition add_bookmark (url title folder : string) : M W unit :=
  get_connection (fun conn =>
    cursor_execute conn sql_insert_bookmark [Text url; Text title; Text folder];;
    commit conn);;
  log Info ("Added bookmark: " +:+ title +:+ " - " +:+ url).

(** [folder] is [None] or a string; [if folder:] fails for both [None]
    and the empty string. *)
Definition get_bookmarks (folder : option string) : M W (list row) :=
  get_connection (fun conn =>
    match folder with
    | Some f =>
        if String.eqb f "" then cursor_execute conn "SELECT * FROM bookmarks" []
        else cursor_execute conn "SELECT * FROM bookmarks WHERE folder = ?" [Text f]
    | None => cursor_execute conn "SELECT * FROM bookmarks" []
    end).

Definition update_setting (key value : string) : M W unit :=
  get_connection (fun conn =>
    cursor_execute conn sql_replace_setting [Text key; Text value];;
    commit conn);;
  log Info ("Updated setting: " +:+ key).

Definition get_setting (key : string) : M W (option sql_value) :=
  get_connection (fun conn =>
    rows ← cursor_execute conn "SELECT value FROM settings WHERE key = ?" [Text key];
    match fetchone rows with
    | Some result => v ← lift (row_item result "value"); mret (Some v)
    | None => mret None
    end).

Definition add_to_cache (url : string) (content : list Byte.byte) : M W unit :=
  get_connection (fun conn =>
    cursor_execute conn sql_replace_cache [Text url; Blob content];;
    commit conn);;
  log Debug ("Added to cache: " +:+ url).

Definition get_from_cache (url : string) : M W (option sql_value) :=
  get_connection (fun conn =>
    rows ← cursor_execute conn "SELECT content FROM cache WHERE url = ?" [Text url];
    match fetchone rows with
    | Some result => v ← lift (row_item result "content"); mret (Some v)
    | None => mret None
    end).

Definition clear_cache : M W unit :=
  get_connection (fun conn =>
    cursor_execute conn "DELETE FROM cache" [];;
    commit conn);;
  log Info "Cache cleared".

Definition optimize_database : M W unit :=
  get_connection (fun conn =>
    cursor_execute conn "VACUUM" [];; mret tt);;
  log Info "Database optimized".

(** [backup_conn = sqlite3.connect(backup_path)] is opened directly, not
    through [get_connection]. *)
Definition connect_directly (path : string) : M W conn :=
  invoke (fun r => Connected path false (connection_of r)) (sqlite3_connect path).

Definition backup_database (backup_path : string) : M W unit :=
  get_connection (fun conn =>
    backup_conn ← connect_directly backup_path;
    invoke (fun r => BackedUp conn backup_conn (is_ok r)) (conn_backup conn backup_conn);;
    close backup_conn);;
  log Info ("Database backed up to: " +:+ backup_path).

Definition restore_database (backup_path : string) : M W unit :=
  present ← file_call "os.path.exists" backup_path (os_path_exists backup_path);
  if present : bool then
    get_connection (fun conn =>
      backup_conn ← connect_directly backup_path;
      invoke (fun r => BackedUp backup_conn conn (is_ok r)) (conn_backup backup_conn conn);;
      close backup_conn);;
    log Info ("Database restored from: " +:+ backup_path)
  else
    raise (Exn FileNotFoundError ("Backup file not found: " +:+ backup_path)).

Definition get_most_visited_sites (limit : Z) : M W (list row) :=
  get_connection (fun conn =>
    cursor_execute conn sql_most_visited [Integer limit]).

Definition search_history (query : string) (limit : Z) : M W (list row) :=
  get_connection (fun conn =>
    cursor_execute conn sql_search_history
      [Text ("%" +:+ query +:+ "%"); Text ("%" +:+ query +:+ "%"); Integer limit]).

Definition delete_history_entry (url : string) : M W unit :=
  get_connection (fun conn =>
    cursor_execute conn "DELETE FROM history WHERE url = ?" [Text url];;
    commit conn);;
  log Info ("Deleted history entry: " +:+ url).

Definition clear_history (days : option Z) : M W unit :=
  get_connection (fun conn =>
    match days with
    | None => cursor_execute conn "DELETE FROM history" []
    | Some d =>
        cursor_execute conn sql_clear_history_older [Text ("-" +:+ pretty d +:+ " days")]
    end;;
    commit conn);;
  log Info ("Cleared history "
            +:+ match days with
                | None => "completely"
                | Some d => "older than " +:+ pretty d +:+ " days"
                end).

Definition get_database_size : M W Z :=
  file_call "os.path.getsize" db_path (os_path_getsize db_path).

Definition export_bookmarks (export_path : string) : M W unit :=
  bookmarks ← get_bookmarks None;
  file_call "json.dump" export_path (json_dump_to export_path bookmarks);;
  log Info ("Bookmarks exported to: " +:+ export_path).

(** [bookmark['url']] and [bookmark.get('folder', 'root')] *)
Definition bookmark_item (bookmark : row) (key : string) : result sql_value :=
  match dict_get key bookmark with
  | Some v => Ok v
  | None => Raise (Exn KeyError key)
  end.

Fixpoint import_each (conn : conn) (bookmarks : list row) : M W unit :=
  match bookmarks with
  | [] => mret tt
  | bookmark :: rest =>
      url ← lift (bookmark_item bookmark "url");
      title ← lift (bookmark_item bookmark "title");
      cursor_execute conn sql_replace_bookmark
        [url; title; default (Text "root") (dict_get "folder" bookmark)];;
      import_each conn rest
  end.

Definition import_bookmarks (import_path : string) : M W unit :=
  bookmarks ← file_call "json.load" import_path (json_load_from import_path);
  get_connection (fun conn =>
    import_each conn bookmarks;;
    commit conn);;
  log Info ("Bookmarks imported from: " +:+ import_path).

Definition get_database_statistics : M W (list (string * sql_value)) :=
  get_connection (fun conn =>
    (* Total number of history entries *)
    rows ← cursor_execute conn "SELECT COUNT(*) FROM history" [];
    total_history_entries ← lift (row_index (fetchone rows) 0);
    (* Total number of bookmarks *)
    rows ← cursor_execute conn "SELECT COUNT(*) FROM bookmarks" [];
    total_bookmarks ← lift (row_index (fetchone rows) 0);
    (* Number of cached pages *)
    rows ← cursor_execute conn "SELECT COUNT(*) FROM cache" [];
    cached_pages ← lift (row_index (fetchone rows) 0);
    (* Database size *)
    database_size_bytes ← get_database_size;
    (* Most recent visit *)
    rows ← cursor_execute conn "SELECT MAX(visit_time) FROM history" [];
    most_recent_visit ← lift (row_index (fetchone rows) 0);
    mret [ ("total_history_entries", total_history_entries);
           ("total_bookmarks", total_bookmarks);
           ("cached_pages", cached_pages);
           ("database_size_bytes", Integer database_size_bytes);
           ("most_recent_visit", most_recent_visit) ]).

(** ** The public methods as one family *)

Inductive operation : Type :=
| Create_tables
| Add_history_entry (url title : string)
| Get_history (limit : Z)
| Add_bookmark (url title folder : string)
| Get_bookmarks (folder : option string)
| Update_setting (key value : string)
| Get_setting (key : string)
| Add_to_cache (url : string) (content : list Byte.byte)
| Get_from_cache (url : string)
| Clear_cache
| Optimize_database
| Backup_database (backup_path : string)
| Restore_database (backup_path : string)
| Get_most_visited_sites (limit : Z)
| Search_history (query : string) (limit : Z)
| Delete_history_entry (url : string)
| Clear_history (days : option Z)
| Get_database_size
| Export_bookmarks (export_path : string)
| Import_bookmarks (import_path : string)
| Get_database_statistics.

(** What a method returns. *)
Inductive returned : Type :=
| NoneReturned
| Rows (rows : list row)
| Cell (value : option sql_value)
| Size (bytes : Z)
| Statistics (stats : list (string * sql_value)).

Definition returning {A} (wrap : A -> returned) (m : M W A) : M W returned :=
  a ← m; mret (wrap a).

Definition perform (op : operation) : M W returned :=
  match op with
  | Create_tables => returning (fun _ => NoneReturned) create_tables
  | Add_history_entry url title =>
      returning (fun _ => NoneReturned) (add_history_entry url title)
  | Get_history limit => returning Rows (get_history limit)
  | Add_bookmark url title folder =>
      returning (fun _ => NoneReturned) (add_bookmark url title folder)
  | Get_bookmarks folder => returning Rows (get_bookmarks folder)
  | Update_setting key value =>
      returning (fun _ => NoneReturned) (update_setting key value)
  | Get_setting key => returning Cell (get_setting key)
  | Add_to_cache url content =>
      returning (fun _ => NoneReturned) (add_to_cache url content)
  | Get_from_cache url => returning Cell (get_from_cache url)
  | Clear_cache => returning (fun _ => NoneReturned) clear_cache
  | Optimize_database => returning (fun _ => NoneReturned) optimize_database
  | Backup_database backup_path =>
      returning (fun _ => NoneReturned) (backup_database backup_path)
  | Restore_database backup_path =>
      returning (fun _ => NoneReturned) (restore_database backup_path)
  | Get_most_visited_sites limit => returning Rows (get_most_visited_sites limit)
  | Search_history query limit => returning Rows (search_history query limit)
  | Delete_history_entry url =>
      returning (fun _ => NoneReturned) (delete_history_entry url)
  | Clear_history days => returning (fun _ => NoneReturned) (clear_history days)
  | Get_database_size => returning Size get_database_size
  | Export_bookmarks export_path =>
      returning (fun _ => NoneReturned) (export_bookmarks export_path)
  | Import_bookmarks import_path =>
      returning (fun _ => NoneReturned) (import_bookmarks import_path)
  | Get_database_statistics => returning Statistics get_database_statistics
  end.

(** ** Connections within a call *)

(** Events that involve no connection. *)
Definition outside (e : event) : Prop :=
  match e with
  | FileCall _ _ _ | Logged _ _ => True
  | _ => False
  end.











Lemma only_lift {A} (good : event -> Prop) (r : result A) :
  only (W := W) good (lift r).
Proof. destruct r; [apply only_ret|apply only_raise]. Qed.

End AluminumDatabase.

(** Closing goals of the form [only good m] for the bodies above. *)
Ltac only_solve :=
  unfold cursor_execute, commit, close, log, file_call, connect_directly,
    get_database_size;
  repeat first [apply only_lift | only_step].

Section Connections.

Context {W : Type} `{Sqlite W}.
Variable db_path : string.


(** [get_database_size] never touches a connection. *)
Lemma get_database_size_outside : only outside (get_database_size db_path).
Proof. only_solve. Qed.



End Connections.

(** ** A small SQLite

    One concrete world: the tables of the database file with their column
    constraints, and the open connections.  It carries out the statements
    of [create_tables] and the upsert of [add_history_entry] as SQLite's
    documentation describes them ([CREATE TABLE IF NOT EXISTS] keeps an
    existing table; an upsert whose conflict target is not the columns of
    a [PRIMARY KEY] or [UNIQUE] constraint is refused when it is prepared);
    every other statement and the file functions are left to
    [oracles], about which nothing is assumed.  A write is applied at once
    (the class commits right after each write). *)

Inductive column_default : Type :=
| NoDefault
| DefaultValue (v : sql_value)
| DefaultCurrentTimestamp.

Record column : Type := {
  col_name : string;
  col_type : string;
  col_primary_key : bool;
  col_unique : bool;
  col_not_null : bool;
  col_default : column_default
}.

Record table : Type := { columns : list column; rows : list row }.

Record minidb : Type := {
  tables : gmap string table;
  next_handle : conn;
  open_handles : list conn;
  clock : string
}.

Definition set_tables (db : minidb) (m : gmap string table) : minidb :=
  {| tables := m; next_handle := next_handle db;
     open_handles := open_handles db; clock := clock db |}.

Inductive set_expr : Type :=
| Increment (col : string)
| CurrentTimestamp.

Inductive statement : Type :=
| CreateTableIfNotExists (name : string) (cols : list column)
| InsertOnConflictUpdate (name : string) (cols target : list string)
    (updates : list (string * set_expr)).

Definition plain (name type : string) : column :=
  {| col_name := name; col_type := type; col_primary_key := false;
     col_unique := false; col_not_null := false; col_default := NoDefault |}.

(** The columns the four [CREATE TABLE] texts declare. *)
Definition history_columns : list column :=
  [ {| col_name := "id"; col_type := "INTEGER"; col_primary_key := true;
       col_unique := false; col_not_null := false; col_default := NoDefault |};
    {| col_name := "url"; col_type := "TEXT"; col_primary_key := false;
       col_unique := false; col_not_null := true; col_default := NoDefault |};
    plain "title" "TEXT";
    {| col_name := "visit_time"; col_type := "TIMESTAMP"; col_primary_key := false;
       col_unique := false; col_not_null := false;
       col_default := DefaultCurrentTimestamp |};
    {| col_name := "visit_count"; col_type := "INTEGER"; col_primary_key := false;
       col_unique := false; col_not_null := false;
       col_default := DefaultValue (Integer 1) |} ].

Definition bookmarks_columns : list column :=
  [ {| col_name := "id"; col_type := "INTEGER"; col_primary_key := true;
       col_unique := false; col_not_null := false; col_default := NoDefault |};
    {| col_name := "url"; col_type := "TEXT"; col_primary_key := false;
       col_unique := false; col_not_null := true; col_default := NoDefault |};
    plain "title" "TEXT";
    {| col_name := "added_time"; col_type := "TIMESTAMP"; col_primary_key := false;
       col_unique := false; col_not_null := false;
       col_default := DefaultCurrentTimestamp |};
    {| col_name := "folder"; col_type := "TEXT"; col_primary_key := false;
       col_unique := false; col_not_null := false;
       col_default := DefaultValue (Text "root") |} ].

Definition settings_columns : list column :=
  [ {| col_name := "key"; col_type := "TEXT"; col_primary_key := true;
       col_unique := false; col_not_null := false; col_default := NoDefault |};
    plain "value" "TEXT" ].

Definition cache_columns : list column :=
  [ {| col_name := "url"; col_type := "TEXT"; col_primary_key := true;
       col_unique := false; col_not_null := false; col_default := NoDefault |};
    plain "content" "BLOB";
    {| col_name := "last_updated"; col_type := "TIMESTAMP"; col_primary_key := false;
       col_unique := false; col_not_null := false;
       col_default := DefaultCurrentTimestamp |} ].

(** The statements the small SQLite understands, by their text. *)
Definition parse (sql : string) : option statement :=
  if String.eqb sql sql_create_history then
    Some (CreateTableIfNotExists "history" history_columns)
  else if String.eqb sql sql_create_bookmarks then
    Some (CreateTableIfNotExists "bookmarks" bookmarks_columns)
  else if String.eqb sql sql_create_settings then
    Some (CreateTableIfNotExists "settings" settings_columns)
  else if String.eqb sql sql_create_cache then
    Some (CreateTableIfNotExists "cache" cache_columns)
  else if String.eqb sql sql_upsert_history then
    Some (InsertOnConflictUpdate "history" ["url"; "title"] ["url"]
            [("visit_count", Increment "visit_count");
             ("visit_time", CurrentTimestamp)])
  else None.

(** The conflict target of an upsert must be the columns of a
    [PRIMARY KEY] or [UNIQUE] constraint of the table. *)
Definition target_matches (cols : list column) (target : list string) : bool :=
  match target with
  | [name] =>
      existsb (fun col => String.eqb (col_name col) name
                          && (col_primary_key col || col_unique col)) cols
  | _ => false
  end.

Definition sql_error {A} (c : exn_class) (message : string) (db : minidb)
  : result A * minidb := (Raise (Exn c message), db).

Definition value_eqb (a b : sql_value) : bool :=
  match a, b with
  | Null, Null => true
  | Integer x, Integer y => (x =? y)%Z
  | Text x, Text y => String.eqb x y
  | Blob x, Blob y => bool_decide (List.map Byte.to_N x = List.map Byte.to_N y)
  | _, _ => false
  end.

Definition cell (r : row) (name : string) : sql_value :=
  default Null (dict_get name r).

Fixpoint set_cell (r : row) (name : string) (v : sql_value) : row :=
  match r with
  | [] => [(name, v)]
  | (k, w) :: rest =>
      if String.eqb k name then (k, v) :: rest else (k, w) :: set_cell rest name v
  end.

Definition next_rowid (rows : list row) (key : string) : Z :=
  foldr (fun r acc => match cell r key with
                      | Integer z => Z.max acc (z + 1)
                      | _ => acc
                      end) 1%Z rows.

(** The row an [INSERT] makes from the values given for [cols]. *)
Definition new_row (db : minidb) (t : table) (cols : list string)
  (values : list sql_value) : row :=
  let given := zip cols values in
  List.map (fun col =>
    (col_name col,
     match dict_get (col_name col) given with
     | Some v => v
     | None =>
         match col_default col with
         | DefaultValue v => v
         | DefaultCurrentTimestamp => Text (clock db)
         | NoDefault =>
             if col_primary_key col && String.eqb (col_type col) "INTEGER"
             then Integer (next_rowid (rows t) (col_name col))
             else Null
         end
     end)) (columns t).

Definition apply_update (db : minidb) (r : row) (u : string * set_expr) : row :=
  match snd u with
  | Increment col =>
      set_cell r (fst u)
        (match cell r col with Integer z => Integer (z + 1) | _ => Null end)
  | CurrentTimestamp => set_cell r (fst u) (Text (clock db))
  end.

Definition run_statement (st : statement) (params : list sql_value) (db : minidb)
  : result (list row) * minidb :=
  match st with
  | CreateTableIfNotExists name cols =>
      match tables db !! name with
      | Some _ => (Ok [], db)
      | None => (Ok [], set_tables db (<[name := {| columns := cols; rows := [] |}]> (tables db)))
      end
  | InsertOnConflictUpdate name cols target updates =>
      match tables db !! name with
      | None => sql_error OperationalError ("no such table: " +:+ name) db
      | Some t =>
          if negb (target_matches (columns t) target) then
            sql_error OperationalError
              "ON CONFLICT clause does not match any PRIMARY KEY or UNIQUE constraint" db
          else
            let fresh := new_row db t cols params in
            if existsb (fun col => col_not_null col
                                   && value_eqb (cell fresh (col_name col)) Null)
                 (columns t)
            then sql_error SqliteError "NOT NULL constraint failed" db
            else
              let clash r :=
                forallb (fun k => value_eqb (cell r k) (cell fresh k)) target in
              let rows' :=
                if existsb clash (rows t)
                then List.map (fun r => if clash r
                                        then foldl (apply_update db) r updates
                                        else r) (rows t)
                else rows t ++ [fresh] in
              (Ok [], set_tables db (<[name := {| columns := columns t; rows := rows' |}]> (tables db)))
      end
  end.

(** What the small SQLite leaves open. *)
Record oracles : Type := {
  other_statement : conn -> string -> list sql_value -> minidb -> result (list row) * minidb;
  backup : conn -> conn -> minidb -> result unit * minidb;
  getsize : string -> minidb -> result Z * minidb;
  exists_ : string -> minidb -> result bool * minidb;
  json_dump : string -> list row -> minidb -> result unit * minidb;
  json_load : string -> minidb -> result (list row) * minidb
}.

Definition mini_connect (path : string) (db : minidb) : result conn * minidb :=
  (Ok (next_handle db),
   {| tables := tables db; next_handle := S (next_handle db);
      open_handles := next_handle db :: open_handles db; clock := clock db |}).

Definition mini_close (c : conn) (db : minidb) : result unit * minidb :=
  (Ok tt,
   {| tables := tables db; next_handle := next_handle db;
      open_handles := List.filter (fun c' => negb (Nat.eqb c' c)) (open_handles db);
      clock := clock db |}).

Definition mini_execute (o : oracles) (c : conn) (sql : string)
  (params : list sql_value) (db : minidb) : result (list row) * minidb :=
  if negb (existsb (Nat.eqb c) (open_handles db)) then
    sql_error SqliteError "Cannot operate on a closed database." db
  else
    match parse sql with
    | Some st => run_statement st params db
    | None => other_statement o c sql params db
    end.

Definition mini_sqlite (o : oracles) : Sqlite minidb := {|
  sqlite3_connect := mini_connect;
  conn_close := mini_close;
  execute := mini_execute o;
  conn_commit := fun c db => (Ok tt, db);
  conn_backup := backup o;
  os_path_getsize := getsize o;
  os_path_exists := exists_ o;
  json_dump_to := json_dump o;
  json_load_from := json_load o
|}.

(** A new, empty database file, and oracles that refuse everything. *)
Definition fresh : minidb :=
  {| tables := ∅; next_handle := 0; open_handles := []; clock := "2026-01-01 00:00:00" |}.

Definition refusing : oracles := {|
  other_statement := fun _ _ _ db => sql_error OperationalError "not supported" db;
  backup := fun _ _ db => sql_error OperationalError "not supported" db;
  getsize := fun _ db => (Ok 4096%Z, db);
  exists_ := fun _ db => (Ok false, db);
  json_dump := fun _ _ db => sql_error OSError "not supported" db;
  json_load := fun _ db => sql_error OSError "not supported" db
|}.

Definition start (db : minidb) : state minidb event := {| world := db; trace := [] |}.

(** ** Connections are closed *)

Section Closing.

Variable db_path : string.





End Closing.

(** ** Connections opened outside [get_connection] *)





Section Direct.

Context {W : Type} `{Sqlite W}.
Variable db_path : string.






End Direct.




(** ** A side path of the connection handling *)

(** X3: [backup_database] closes the connection it opens directly only when
    the backup returns: when [conn.backup] raises, the call ends with the
    managed connection closed and no [close] of [backup_conn]. *)
Theorem backup_failure_skips_close
  {W : Type} `{Sqlite W} (db_path backup_path : string) (s : state W event)
  (c backup_conn : conn) (e : exn) (w1 w2 w3 w4 : W) (closed : result unit)
  (Hconnect : sqlite3_connect db_path (world s) = (Ok c, w1))
  (Hdirect : sqlite3_connect backup_path w1 = (Ok backup_conn, w2))
  (Hbackup : conn_backup c backup_conn w2 = (Raise e, w3))
  (Hclose : conn_close c w3 = (closed, w4)) :
  trace (snd (backup_database db_path backup_path s)) =
    trace s ++ [ Connected db_path true (Some c);
                 Connected backup_path false (Some backup_conn);
                 BackedUp c backup_conn false;
                 Closed c (is_ok closed) ] /\
  is_ok (fst (backup_database db_path backup_path s)) = false.
Proof.
  unfold backup_database, get_connection, try_finally, connect_directly, close,
    log, mbind, M_bind, invoke, emit. simpl.
  rewrite Hconnect. simpl. rewrite Hdirect. simpl. rewrite Hbackup. simpl.
  rewrite Hclose. destruct closed as [[]|e']; simpl;
    rewrite <- !app_assoc; split; reflexivity.
Qed.

Lemma backup_failure_skips_close_witness :
  let run := backup_database (H := mini_sqlite refusing) "aluminum_data.db"
               "backup.db" (start fresh) in
  trace (snd run) =
    [ Connected "aluminum_data.db" true (Some 0);
      Connected "backup.db" false (Some 1);
      BackedUp 0 1 false;
      Closed 0 true ] /\
  open_handles (world (snd run)) = [1].
Proof.
  intros run.
  destruct (backup_failure_skips_close (H := mini_sqlite refusing)
              "aluminum_data.db" "backup.db" (start fresh) 0 1
              (Exn OperationalError "not supported") _ _ _ _ (Ok tt)
              eq_refl eq_refl eq_refl eq_refl) as [Htrace _].
  split; [exact Htrace|reflexivity].
Defined.

(** ** The upsert of [add_history_entry] *)

(** [create_tables] on a database without a [history] table makes the one
    its text declares: no [PRIMARY KEY] or [UNIQUE] on [url]. *)
Lemma init_creates_history (o : oracles) (db_path : string) (s : state minidb event) :
  tables (world s) !! "history" = None ->
  tables (world (snd (init (H := mini_sqlite o) db_path s))) !! "history"
    = Some {| columns := history_columns; rows := [] |}.
Proof.
  intros Hnone.
  unfold init, create_tables, get_connection, try_finally, cursor_execute, commit,
    close, log, mbind, M_bind, invoke, emit. simpl.
  unfold mini_execute. simpl.
  repeat (first
            [ rewrite Nat.eqb_refl
            | rewrite Hnone
            | rewrite lookup_insert_ne by discriminate
            | rewrite lookup_insert_eq
            | match goal with
              | |- context [match ?m !! ?k with _ => _ end] =>
                  destruct (m !! k) eqn:?
              end ];
          simpl).
  all: reflexivity.
Qed.

(** C7: on a database whose [history] table has the columns
    [create_tables] declares, every [add_history_entry(url, title)] raises
    [sqlite3.OperationalError]: the upsert names the conflict target
    [url], and no [PRIMARY KEY] or [UNIQUE] constraint of the table is on
    [url].  The statement is refused, nothing is committed, the connection
    is closed, and all tables are as before. *)
Theorem add_history_entry_always_raises
  (o : oracles) (db_path url title : string) (s : state minidb event) (t : table)
  (Htable : tables (world s) !! "history" = Some t)
  (Hcolumns : columns t = history_columns) :
  let run := add_history_entry (H := mini_sqlite o) db_path url title s in
  let c := next_handle (world s) in
  fst run = Raise (Exn OperationalError
                     "ON CONFLICT clause does not match any PRIMARY KEY or UNIQUE constraint") /\
  tables (world (snd run)) = tables (world s) /\
  trace (snd run) =
    trace s ++ [ Connected db_path true (Some c);
                 Executed c sql_upsert_history [Text url; Text title] false;
                 Closed c true ] /\
  target_matches history_columns ["url"] = false.
Proof.
  unfold add_history_entry, get_connection, try_finally, cursor_execute, commit,
    close, log, mbind, M_bind, invoke, emit. simpl.
  unfold mini_execute. simpl. rewrite Nat.eqb_refl. simpl.
  rewrite Htable, Hcolumns. simpl.
  rewrite <- !app_assoc. repeat split; reflexivity.
Qed.

(** The theorem on the database [__init__] has just created. *)
Lemma add_history_entry_always_raises_witness :
  let s := snd (init (H := mini_sqlite refusing) "aluminum_data.db" (start fresh)) in
  let run :=
    add_history_entry (H := mini_sqlite refusing) "aluminum_data.db"
      "https://www.example.com" "Example Website" s in
  tables (world s) !! "history" = Some {| columns := history_columns; rows := [] |} /\
  fst run = Raise (Exn OperationalError
                     "ON CONFLICT clause does not match any PRIMARY KEY or UNIQUE constraint") /\
  tables (world (snd run)) = tables (world s).
Proof.
  intros s run.
  assert (Htable : tables (world s) !! "history"
                   = Some {| columns := history_columns; rows := [] |})
    by (vm_compute; reflexivity).
  destruct (add_history_entry_always_raises refusing "aluminum_data.db"
              "https://www.example.com" "Example Website" s _ Htable eq_refl)
    as (Hraise & Htables & _).
  split; [exact Htable|]. split; [exact Hraise|exact Htables].
Defined.

(** With a [UNIQUE] constraint on [url] the same statement would go
    through: the failure comes from the table's declaration. *)
Example upsert_with_unique_url :
  let unique_url :=
    List.map (fun col => if String.eqb (col_name col) "url"
                         then {| col_name := "url"; col_type := "TEXT";
                                 col_primary_key := false; col_unique := true;
                                 col_not_null := true; col_default := NoDefault |}
                         else col) history_columns in
  let db := set_tables fresh {[ "history" := {| columns := unique_url; rows := [] |} ]} in
  let once := add_history_entry (H := mini_sqlite refusing) "aluminum_data.db"
                "https://www.example.com" "Example Website" (start db) in
  let twice := add_history_entry (H := mini_sqlite refusing) "aluminum_data.db"
                 "https://www.example.com" "Example Website" (snd once) in
  fst twice = Ok tt /\
  (rows <$> tables (world (snd twice)) !! "history") =
    Some [ [ ("id", Integer 1); ("url", Text "https://www.example.com");
             ("title", Text "Example Website");
             ("visit_time", Text "2026-01-01 00:00:00");
             ("visit_count", Integer 2) ] ].
Proof. vm_compute. split; reflexivity. Qed.

End Database.


(* ===================================================================== *)
(** * src/sys/database.py, further properties                              *)
(* ===================================================================== *)

Module DatabaseFacts.
Import Database.

(** ** [create_tables] and tables that exist already *)

Lemma run_create_keeps (db : minidb) (created : string) (cols : list column)
  (name : string) (t : table) :
  tables db !! name = Some t ->
  tables (snd (run_statement (CreateTableIfNotExists created cols) [] db)) !! name
    = Some t.
Proof.
  intros Hname. simpl. destruct (tables db !! created) eqn:Hcreated; simpl.
  - exact Hname.
  - rewrite lookup_insert_ne; [exact Hname|]. intros ->. congruence.
Qed.

(** X4: [create_tables] (and so [__init__]) leaves every table that exists
    already exactly as it is, columns and rows: [CREATE TABLE IF NOT EXISTS]
    does not touch it.  A [history] table made elsewhere keeps its own
    constraints, and calling [create_tables] again changes nothing. *)
Theorem create_tables_keeps_existing
  (o : oracles) (db_path name : string) (t : table) (s : state minidb event)
  (Hname : tables (world s) !! name = Some t) :
  fst (create_tables (H := mini_sqlite o) db_path s) = Ok tt /\
  tables (world (snd (create_tables (H := mini_sqlite o) db_path s))) !! name
    = Some t.
Proof.
  unfold create_tables, get_connection, try_finally, cursor_execute, commit,
    close, log, mbind, M_bind, invoke, emit. simpl.
  unfold mini_execute. simpl.
  repeat (first
            [ rewrite Nat.eqb_refl
            | rewrite lookup_insert_ne by discriminate
            | match goal with
              | |- context [match ?m !! ?k with _ => _ end] =>
                  destruct (m !! k) eqn:?
              end ];
          simpl).
  all: split; [reflexivity|].
  all: repeat (rewrite lookup_insert_ne; [|intros <-; congruence]).
  all: exact Hname.
Qed.

Lemma create_tables_keeps_existing_witness :
  let once := snd (create_tables (H := mini_sqlite refusing) "aluminum_data.db"
                     (start fresh)) in
  let twice := snd (create_tables (H := mini_sqlite refusing) "aluminum_data.db" once) in
  tables (world once) !! "settings" = Some {| columns := settings_columns; rows := [] |} /\
  tables (world twice) !! "settings" = Some {| columns := settings_columns; rows := [] |}.
Proof.
  intros once twice.
  assert (Honce : tables (world once) !! "settings"
                  = Some {| columns := settings_columns; rows := [] |})
    by (vm_compute; reflexivity).
  split; [exact Honce|].
  exact (proj2 (create_tables_keeps_existing refusing "aluminum_data.db" "settings"
                  _ once Honce)).
Defined.

(** ** [import_bookmarks] and incomplete bookmarks *)

Section ImportBookmarks.

Context {W : Type} `{Sqlite W}.
Variable db_path : string.

(** A bookmark without the key ['url'] or ['title']. *)
Definition incomplete (bookmark : row) : Prop :=
  dict_get "url" bookmark = None \/ dict_get "title" bookmark = None.

Definition no_commit (e : event) : Prop :=
  match e with
  | Committed _ _ => False
  | _ => True
  end.

(** The loop never commits, and with an incomplete bookmark in the list it
    raises (at that bookmark, or earlier if a statement does). *)
Lemma import_each_incomplete (c : conn) (bookmarks : list row) :
  emits (import_each (W := W) c bookmarks)
    (fun r t => Forall no_commit t /\
                (Exists incomplete bookmarks -> is_ok r = false)).
Proof.
  induction bookmarks as [|bookmark rest IH]; intros s.
  - exists []. simpl. rewrite app_nil_r. split; [reflexivity|].
    split; [constructor|]. intros Hex. inversion Hex.
  - simpl. unfold mbind, M_bind, lift, bookmark_item, cursor_execute, invoke.
    destruct (dict_get "url" bookmark) as [url|] eqn:Hurl; simpl.
    + destruct (dict_get "title" bookmark) as [title|] eqn:Htitle; simpl.
      * destruct (execute c sql_replace_bookmark _ (world s)) as [[rows|e] w]; simpl.
        -- destruct (IH {| world := w;
                           trace := trace s ++
                             [Executed c sql_replace_bookmark
                                [url; title;
                                 default (Text "root") (dict_get "folder" bookmark)]
                                true] |})
             as (t & Ht & Hnc & Hfail).
           simpl in Ht.
           eexists (_ :: t). rewrite Ht, <- app_assoc. split; [reflexivity|].
           split; [constructor; [exact I|exact Hnc]|].
           intros Hex. apply Hfail.
           inversion Hex as [? ? [Hu|Ht']|]; subst; [congruence|congruence|assumption].
        -- eexists [_]. split; [reflexivity|].
           split; [repeat constructor|reflexivity].
      * exists []. rewrite app_nil_r. split; [reflexivity|].
        split; [constructor|reflexivity].
    + exists []. rewrite app_nil_r. split; [reflexivity|].
      split; [constructor|reflexivity].
Qed.

End ImportBookmarks.

(** X5: when the file read by [import_bookmarks] holds a bookmark without
    ['url'] or ['title'], the call raises and never commits: whatever
    bookmarks came before it were only submitted on a connection that is
    then closed. *)
Theorem import_incomplete_never_commits
  {W : Type} `{Sqlite W} (db_path import_path : string) (s : state W event)
  (bookmarks : list row) (w : W)
  (Hload : json_load_from import_path (world s) = (Ok bookmarks, w))
  (Hincomplete : Exists incomplete bookmarks) :
  is_ok (fst (import_bookmarks db_path import_path s)) = false /\
  exists t,
    trace (snd (import_bookmarks db_path import_path s)) = trace s ++ t /\
    Forall no_commit t.
Proof.
  unfold import_bookmarks, file_call, get_connection, try_finally, commit, close,
    log, mbind, M_bind, invoke, emit.
  rewrite Hload. simpl.
  destruct (sqlite3_connect db_path w) as [[c|e] w1]; simpl.
  - destruct (import_each_incomplete c bookmarks
                {| world := w1;
                   trace := (trace s ++ [FileCall "json.load" import_path true]) ++
                            [Connected db_path true (Some c)] |})
      as (t & Ht & Hnc & Hfail).
    specialize (Hfail Hincomplete).
    destruct (import_each c bookmarks _) as [[[]|e] s1]; simpl in *; [discriminate|].
    destruct (conn_close c (world s1)) as [[[]|e'] w2]; simpl;
      (split; [reflexivity|]);
      rewrite Ht, <- !app_assoc; eexists; (split; [reflexivity|]);
      simpl;
      repeat first [ exact Hnc | constructor; [exact I|] | apply Forall_app_2
                   | constructor ].
  - split; [reflexivity|]. rewrite <- app_assoc. eexists. split; [reflexivity|].
    repeat constructor.
Qed.

Definition incomplete_file : oracles :=
  {| other_statement := fun _ _ _ db => (Ok [], db);
     backup := backup refusing;
     getsize := getsize refusing;
     exists_ := exists_ refusing;
     json_dump := json_dump refusing;
     json_load := fun _ db =>
       (Ok [ [("url", Text "https://a.example/"); ("title", Text "A")];
             [("title", Text "no address")] ], db) |}.

Lemma import_incomplete_never_commits_witness :
  let run := import_bookmarks (H := mini_sqlite incomplete_file) "aluminum_data.db"
               "bookmarks.json" (start fresh) in
  is_ok (fst run) = false /\
  exists t, trace (snd run) = [] ++ t /\ Forall no_commit t.
Proof.
  apply (import_incomplete_never_commits (H := mini_sqlite incomplete_file)
           "aluminum_data.db" "bookmarks.json" (start fresh)
           [ [("url", Text "https://a.example/"); ("title", Text "A")];
             [("title", Text "no address")] ] fresh).
  - reflexivity.
  - right. left. left. reflexivity.
Defined.

(** ** Statements, the commit and the log line of a writing method *)

Definition statement (e : event) : Prop :=
  match e with
  | Executed _ _ _ _ => True
  | _ => False
  end.

(** A statement that returned. *)
Definition succeeded (e : event) : Prop :=
  match e with
  | Executed _ _ _ ok => ok = true
  | _ => False
  end.

(** The line a method logs before it returns. *)
Definition success_line (op : operation) : option (level * string) :=
  match op with
  | Create_tables => Some (Info, "Database tables created successfully")
  | Add_history_entry url _ => Some (Debug, "Added history entry: " +:+ url)
  | Add_bookmark url title _ =>
      Some (Info, "Added bookmark: " +:+ title +:+ " - " +:+ url)
  | Update_setting key _ => Some (Info, "Updated setting: " +:+ key)
  | Add_to_cache url _ => Some (Debug, "Added to cache: " +:+ url)
  | Clear_cache => Some (Info, "Cache cleared")
  | Delete_history_entry url => Some (Info, "Deleted history entry: " +:+ url)
  | Clear_history days =>
      Some (Info, "Cleared history "
                  +:+ match days with
                      | None => "completely"
                      | Some d => "older than " +:+ pretty d +:+ " days"
                      end)
  | Import_bookmarks import_path =>
      Some (Info, "Bookmarks imported from: " +:+ import_path)
  | _ => None
  end.

(** The traces of a write on the database at [db_path] whose line is
    [line], by whether the call returns: the connection, the statements,
    the commit, the close and the line, cut short by the first call that
    raises, except that a connection once opened is closed. *)
Inductive write_trace (db_path : string) (line : event) : bool -> list event -> Prop :=
| write_refused :
    write_trace db_path line false [Connected db_path true None]
| write_aborted (c : conn) (statements : list event) (closed : bool) :
    Forall statement statements ->
    write_trace db_path line false
      (Connected db_path true (Some c) :: statements ++ [Closed c closed])
| write_uncommitted (c : conn) (statements : list event) (closed : bool) :
    Forall succeeded statements ->
    write_trace db_path line false
      (Connected db_path true (Some c)
       :: statements ++ [Committed c false; Closed c closed])
| write_unclosed (c : conn) (statements : list event) :
    Forall succeeded statements ->
    write_trace db_path line false
      (Connected db_path true (Some c)
       :: statements ++ [Committed c true; Closed c false])
| write_done (c : conn) (statements : list event) :
    Forall succeeded statements ->
    write_trace db_path line true
      (Connected db_path true (Some c)
       :: statements ++ [Committed c true; Closed c true; line]).

Section Transactions.

Context {W : Type} `{Sqlite W}.
Variable db_path : string.

(** A body that only executes statements and raises when one of them does. *)
Definition clean {A} (m : M W A) : Prop :=
  emits m (fun r t => Forall statement t /\ (is_ok r = true -> Forall succeeded t)).

Lemma clean_execute (c : conn) (sql : string) (params : list sql_value) :
  clean (cursor_execute c sql params).
Proof.
  intros s. unfold cursor_execute, invoke.
  destruct (execute c sql params (world s)) as [[rows|e] w]; simpl;
    eexists; (split; [reflexivity|]); split;
    repeat constructor; discriminate.
Qed.

Lemma clean_ret {A} (a : A) : clean (mret a).
Proof.
  intros s. exists []. simpl. rewrite app_nil_r.
  split; [reflexivity|]. split; constructor.
Qed.

Lemma clean_lift {A} (r : result A) : clean (lift r).
Proof.
  intros s. exists []. destruct r; simpl; rewrite app_nil_r;
    (split; [reflexivity|]); split; constructor.
Qed.

Lemma clean_bind {A B} (m : M W A) (k : A -> M W B) :
  clean m -> (forall a, clean (k a)) -> clean (m ≫= k).
Proof.
  intros Hm Hk.
  eapply emits_weaken;
    [apply (emits_bind m k _
              (fun _ r t => Forall statement t /\
                            (is_ok r = true -> Forall succeeded t)) Hm Hk)|].
  intros r t [(e & -> & Hst & _)|(a & t1 & t2 & -> & (H1 & H1') & H2 & H2')].
  - split; [exact Hst|discriminate].
  - split; [apply Forall_app_2; assumption|].
    intros Hok. apply Forall_app_2; [apply H1'; reflexivity|apply H2', Hok].
Qed.

Lemma clean_import_each (c : conn) (bookmarks : list row) :
  clean (import_each c bookmarks).
Proof.
  induction bookmarks as [|bookmark rest IH]; simpl; [apply clean_ret|].
  apply clean_bind; [apply clean_lift|]. intros url.
  apply clean_bind; [apply clean_lift|]. intros title.
  apply clean_bind; [apply clean_execute|]. intros _. exact IH.
Qed.

(** A body that executes statements and then commits, unless one of the
    statements raises. *)
Definition commits_last (c : conn) (m : M W unit) : Prop :=
  emits m (fun r t =>
    exists statements,
      (t = statements /\ Forall statement statements /\ is_ok r = false) \/
      (t = statements ++ [Committed c (is_ok r)] /\ Forall succeeded statements)).

Lemma commits_last_commit (c : conn) : commits_last c (commit c).
Proof.
  intros s. unfold commit, invoke.
  destruct (conn_commit c (world s)) as [r w]. simpl.
  eexists. split; [reflexivity|]. exists []. right.
  split; [reflexivity|constructor].
Qed.

Lemma commits_last_step {A} (c : conn) (m : M W A) (k : A -> M W unit) :
  clean m -> (forall a, commits_last c (k a)) -> commits_last c (m ≫= k).
Proof.
  intros Hm Hk s. unfold mbind, M_bind.
  destruct (Hm s) as (t1 & Ht1 & Hst & Hok).
  destruct (m s) as [[a|e] s1]; simpl in *.
  - destruct (Hk a s1) as (t2 & Ht2 & statements & Hshape).
    exists (t1 ++ t2). rewrite Ht2, Ht1, <- app_assoc.
    split; [reflexivity|]. exists (t1 ++ statements).
    destruct Hshape as [(-> & Hs & Hfail)|[-> Hs]].
    + left. split; [reflexivity|]. split; [apply Forall_app_2; assumption|exact Hfail].
    + right. rewrite <- app_assoc. split; [reflexivity|].
      apply Forall_app_2; [apply Hok; reflexivity|exact Hs].
  - exists t1. split; [exact Ht1|]. exists t1. left. auto.
Qed.

(** [with self.get_connection() as conn: ...; conn.commit()] followed by
    the log line. *)
Lemma transaction_trace (body : conn -> M W unit) (l : level) (m : string) :
  (forall c, commits_last c (body c)) ->
  emits (get_connection db_path body;; log l m)
    (fun r t => write_trace db_path (Logged l m) (is_ok r) t).
Proof.
  intros Hbody s.
  unfold get_connection, invoke, try_finally, mbind, M_bind, close, log,
    emit, invoke.
  destruct (sqlite3_connect db_path (world s)) as [[c|e] w]; simpl.
  - destruct (Hbody c {| world := w;
                         trace := trace s ++ [Connected db_path true (Some c)] |})
      as (t & Ht & statements & Hshape).
    destruct (body c _) as [rb s1]; simpl in *.
    destruct (conn_close c (world s1)) as [rc w3]; simpl.
    destruct Hshape as [(-> & Hs & Hfail)|[-> Hs]].
    + destruct rb as [[]|e]; [discriminate|].
      destruct rc as [[]|e']; simpl; rewrite Ht, <- !app_assoc; simpl;
        eexists; (split; [reflexivity|]); apply write_aborted, Hs.
    + destruct rb as [[]|e], rc as [[]|e']; simpl;
        rewrite Ht, <- !app_assoc; simpl;
        eexists; (split; [reflexivity|]).
      * apply write_done, Hs.
      * apply write_unclosed, Hs.
      * apply write_uncommitted, Hs.
      * apply write_uncommitted, Hs.
  - eexists. split; [reflexivity|]. apply write_refused.
Qed.

Lemma write_trace_returning {A} (m : M W A) (wrap : A -> returned)
  (P : bool -> list event -> Prop) :
  emits m (fun r t => P (is_ok r) t) ->
  emits (returning wrap m) (fun r t => P (is_ok r) t).
Proof.
  intros Hm s. unfold returning, mbind, M_bind.
  destruct (Hm s) as (t & Ht & Hw).
  destruct (m s) as [[a|e] s1]; exists t; auto.
Qed.

End Transactions.

(** X27: the trace of a writing method.  For each of create_tables,
    add_history_entry, add_bookmark, update_setting, add_to_cache,
    clear_cache, delete_history_entry, clear_history and import_bookmarks
    (after its file is read), a call connects, executes its statements,
    commits, closes and logs its line, and is cut short only by a call
    that raises, the close excepted: it never commits after a statement
    that raised, it closes every connection it was given, and it logs its
    line and returns only after the commit and the close have returned. *)
Theorem write_commits_then_logs
  {W : Type} `{Sqlite W} (db_path : string) (op : operation)
  (l : level) (m : string) (s : state W event)
  (Hop : success_line op = Some (l, m)) :
  exists pre t,
    trace (snd (perform db_path op s)) = trace s ++ pre ++ t /\
    Forall outside pre /\
    ((t = [] /\ is_ok (fst (perform db_path op s)) = false) \/
     write_trace db_path (Logged l m) (is_ok (fst (perform db_path op s))) t).
Proof.
  assert (Hwrite : forall method : M W unit,
            emits method
              (fun r t => write_trace db_path (Logged l m) (is_ok r) t) ->
            exists pre t,
              trace (snd (returning (fun _ => NoneReturned) method s))
                = trace s ++ pre ++ t /\
              Forall outside pre /\
              ((t = [] /\
                is_ok (fst (returning (fun _ => NoneReturned) method s)) = false) \/
               write_trace db_path (Logged l m)
                 (is_ok (fst (returning (fun _ => NoneReturned) method s))) t)).
  { intros method Hm.
    destruct (write_trace_returning method (fun _ => NoneReturned) _ Hm s)
      as (t & Ht & Hshape).
    exists [], t. split; [exact Ht|]. split; [constructor|]. right. exact Hshape. }
  destruct op; simpl in Hop; inversion Hop; subst l m; clear Hop;
    cbn [perform].
  - apply Hwrite, transaction_trace. intros c.
    repeat (apply commits_last_step; [apply clean_execute|intros _]).
    apply commits_last_commit.
  - apply Hwrite, transaction_trace. intros c.
    repeat (apply commits_last_step; [apply clean_execute|intros _]).
    apply commits_last_commit.
  - apply Hwrite, transaction_trace. intros c.
    repeat (apply commits_last_step; [apply clean_execute|intros _]).
    apply commits_last_commit.
  - apply Hwrite, transaction_trace. intros c.
    repeat (apply commits_last_step; [apply clean_execute|intros _]).
    apply commits_last_commit.
  - apply Hwrite, transaction_trace. intros c.
    repeat (apply commits_last_step; [apply clean_execute|intros _]).
    apply commits_last_commit.
  - apply Hwrite, transaction_trace. intros c.
    repeat (apply commits_last_step; [apply clean_execute|intros _]).
    apply commits_last_commit.
  - apply Hwrite, transaction_trace. intros c.
    repeat (apply commits_last_step; [apply clean_execute|intros _]).
    apply commits_last_commit.
  - apply Hwrite, transaction_trace. intros c.
    apply commits_last_step; [destruct days; apply clean_execute|intros _].
    apply commits_last_commit.
  - (* import_bookmarks *)
    unfold returning, import_bookmarks, file_call, invoke, mbind, M_bind.
    destruct (json_load_from import_path (world s)) as [[bookmarks|e] w]; simpl.
    + destruct (transaction_trace db_path
                  (fun conn => import_each conn bookmarks;; commit conn)
                  Info ("Bookmarks imported from: " +:+ import_path)
                  ltac:(intros c; apply commits_last_step;
                        [apply clean_import_each
                        |intros _; apply commits_last_commit])
                  {| world := w;
                     trace := trace s ++ [FileCall "json.load" import_path true] |})
        as (t & Ht & Hshape).
      unfold mbind, M_bind in Ht, Hshape.
      match goal with
      | |- context [get_connection db_path ?body ?s0] =>
          destruct (get_connection db_path body s0) as [[[]|e] s1]
      end; simpl in *.
      * exists [FileCall "json.load" import_path true], t.
        rewrite Ht, <- app_assoc.
        split; [reflexivity|]. split; [repeat constructor|]. right. exact Hshape.
      * exists [FileCall "json.load" import_path true], t.
        rewrite Ht, <- app_assoc.
        split; [reflexivity|]. split; [repeat constructor|]. right. exact Hshape.
    + exists [FileCall "json.load" import_path false], [].
      split; [reflexivity|]. split; [repeat constructor|]. left. auto.
Qed.

Lemma write_commits_then_logs_witness :
  let run := perform (H := mini_sqlite incomplete_file) "aluminum_data.db"
               (Update_setting "theme" "dark") (start fresh) in
  exists pre t,
    trace (snd run) = [] ++ pre ++ t /\
    Forall outside pre /\
    ((t = [] /\ is_ok (fst run) = false) \/
     write_trace "aluminum_data.db" (Logged Info "Updated setting: theme")
       (is_ok (fst run)) t).
Proof.
  exact (write_commits_then_logs (H := mini_sqlite incomplete_file)
           "aluminum_data.db" (Update_setting "theme" "dark") Info
           "Updated setting: theme" (start fresh) eq_refl).
Defined.


End DatabaseFacts.


(* ===================================================================== *)
(** * src/sys/History/Atomics.HistoryRemoval.py, further properties        *)
(* ===================================================================== *)

Module HistoryRemovalFacts.
Import HistoryRemoval.

Section Returning.

Context {W : Type} `{OS W}.
Variable env : environment.

(** A [try] whose handler only logs returns [None] whatever its body does. *)
Lemma logged_handler_returns (body : M W unit) (l : level)
  (message : exn -> string) (s : state W) :
  fst (try_except body (fun e => log l (message e)) s) = Ok tt.
Proof.
  unfold try_except. destruct (body s) as [[[]|e] s1]; reflexivity.
Qed.

Lemma clear_related_path_returns (path : Path) (s : state W) :
  fst (clear_related_path path s) = Ok tt.
Proof. unfold clear_related_path. apply logged_handler_returns. Qed.

Lemma clear_related_files_returns (base_path : Path) (s : state W) :
  fst (clear_related_files base_path s) = Ok tt.
Proof.
  unfold clear_related_files. revert s.
  induction (related_paths base_path) as [|path rest IH]; intros s;
    [reflexivity|].
  simpl. unfold mbind, M_bind.
  pose proof (clear_related_path_returns path s) as Hpath.
  destruct (clear_related_path path s) as [[[]|e] s1]; [apply IH|discriminate].
Qed.

Lemma vacuum_database_returns (db_path : Path) (s : state W) :
  fst (vacuum_database db_path s) = Ok tt.
Proof. unfold vacuum_database. apply logged_handler_returns. Qed.

Lemma clear_cache_returns (cache_dir : Path) (s : state W) :
  fst (clear_cache cache_dir s) = Ok tt.
Proof. unfold clear_cache. apply logged_handler_returns. Qed.

(** [remove_history_atomic] only adds to the trace. *)
Lemma remove_history_atomic_extends (s : state W) :
  exists t, trace (snd (remove_history_atomic env s)) = trace s ++ t.
Proof.
  unfold remove_history_atomic.
  destruct (determine_os env) as [os_type|e].
  - destruct (dict_get os_type (history_locations env)) as [hp|].
    + assert (Hhandler : forall e,
                emits (log Error ("History removal failed: " +:+ exn_msg e);;
                       restore_backup env hp)
                  (fun (_ : result unit) (_ : list event) => True)).
      { intros e.
        eapply emits_weaken; [|intros r t _; exact I].
        apply (only_bind (restore_event env hp));
          [apply only_emit; exact I|intros _; apply restore_backup_events]. }
      destruct (emits_try_except _ _ _ (fun _ _ _ => True)
                  (removal_steps_events env hp) Hhandler s) as (t & Ht & _).
      exists t. exact Ht.
    + exists []. simpl. rewrite app_nil_r. reflexivity.
  - exists []. simpl. rewrite app_nil_r. reflexivity.
Qed.

End Returning.

Definition completed : event :=
  Logged Info "History removal completed successfully".

(** X6: steps 3 to 5 never abort a run.  In every world,
    [clear_related_files], [vacuum_database] and [clear_cache] return
    [None] whatever their calls raise (each failure is only logged), so once
    the backup and the removal of the history file have returned, the
    [try] block of [remove_history_atomic] runs to its last line, the method
    returns, and nothing is restored even if a later step failed. *)
Theorem later_steps_never_abort
  {W : Type} `{OS W} (env : environment) (os_type : string) (history_path : Path)
  (s s1 s2 : state W)
  (Hos : determine_os env = Ok os_type)
  (Hpath : dict_get os_type (history_locations env) = Some history_path)
  (Hbackup : create_backup env history_path s = (Ok tt, s1))
  (Hremoval : remove_history_file history_path s1 = (Ok tt, s2)) :
  (forall (p : Path) (s' : state W),
     fst (clear_related_files p s') = Ok tt /\
     fst (vacuum_database p s') = Ok tt /\
     fst (clear_cache p s') = Ok tt) /\
  exists t,
    remove_history_atomic env s = removal_steps env history_path s /\
    fst (removal_steps env history_path s) = Ok tt /\
    trace (snd (removal_steps env history_path s)) = trace s2 ++ t ++ [completed] /\
    Forall (fun e => related_event history_path e \/ vacuum_event history_path e \/
                     cache_event history_path e) t.
Proof.
  split.
  { intros p s'. split; [apply clear_related_files_returns|].
    split; [apply vacuum_database_returns|apply clear_cache_returns]. }
  assert (Hsteps :
            exists t,
              fst (removal_steps env history_path s) = Ok tt /\
              trace (snd (removal_steps env history_path s))
                = trace s2 ++ t ++ [completed] /\
              Forall (fun e => related_event history_path e \/
                               vacuum_event history_path e \/
                               cache_event history_path e) t).
  { unfold removal_steps, mbind, M_bind. rewrite Hbackup, Hremoval.
    pose proof (clear_related_files_returns history_path s2) as H3.
    destruct (clear_related_files_events history_path s2) as (t3 & Ht3 & Hev3).
    destruct (clear_related_files history_path s2) as [[[]|e3] s3];
      [|discriminate]. simpl in Ht3.
    pose proof (vacuum_database_returns
                  (joinpath (parent history_path) "Web Data") s3) as H4.
    destruct (vacuum_database_events history_path s3) as (t4 & Ht4 & Hev4).
    destruct (vacuum_database _ s3) as [[[]|e4] s4]; [|discriminate].
    simpl in Ht4.
    pose proof (clear_cache_returns
                  (joinpath (parent (parent history_path)) "Cache") s4) as H5.
    destruct (clear_cache_events history_path s4) as (t5 & Ht5 & Hev5).
    destruct (clear_cache _ s4) as [[[]|e5] s5]; [|discriminate].
    simpl in Ht5. simpl.
    exists (t3 ++ t4 ++ t5). split; [reflexivity|].
    split; [rewrite Ht5, Ht4, Ht3, <- !app_assoc; reflexivity|].
    repeat (apply Forall_app_2);
      [ eapply Forall_impl; [exact Hev3|]
      | eapply Forall_impl; [exact Hev4|]
      | eapply Forall_impl; [exact Hev5|] ]; simpl; tauto. }
  destruct Hsteps as (t & Hok & Htrace & Hev).
  exists t. split; [|auto].
  unfold remove_history_atomic. rewrite Hos, Hpath. unfold try_except.
  destruct (removal_steps env history_path s) as [[[]|e] s']; [reflexivity|].
  discriminate.
Qed.

(** The sample profile, whose cache directory does not exist: step 5 only
    logs a warning. *)
Lemma later_steps_never_abort_witness :
  let s := start (sample_fs [Byte.x01; Byte.x02; Byte.x03]) in
  (forall (p : Path) (s' : state memfs),
     fst (clear_related_files p s') = Ok tt /\
     fst (vacuum_database p s') = Ok tt /\
     fst (clear_cache p s') = Ok tt) /\
  exists t,
    remove_history_atomic linux s = removal_steps linux history_file s /\
    fst (removal_steps linux history_file s) = Ok tt /\
    trace (snd (removal_steps linux history_file s))
      = trace (snd (remove_history_file history_file
                      (snd (create_backup linux history_file s))))
        ++ t ++ [completed] /\
    Forall (fun e => related_event history_file e \/ vacuum_event history_file e \/
                     cache_event history_file e) t.
Proof.
  intros s.
  apply (later_steps_never_abort linux "linux" history_file s
           (snd (create_backup linux history_file s))
           (snd (remove_history_file history_file
                   (snd (create_backup linux history_file s))))).
  - reflexivity.
  - reflexivity.
  - vm_compute. reflexivity.
  - vm_compute. reflexivity.
Defined.

Definition started : event :=
  Logged Info ("Starting " +:+ browser_name +:+ " history removal process").

Definition finished : event :=
  Logged Info (browser_name +:+ " history removal process completed").

(** X7: [run] never raises, in any world and on any system: it logs its
    first line, runs [remove_history_atomic], and logs its last line.  On a
    system that [determine_os] does not know ([os.name] neither ['nt'] nor
    ['posix']) it makes no call at all: the world is left as it was and the
    [OSError] is only logged as critical. *)
Theorem run_never_raises
  {W : Type} `{OS W} (env : environment) (s : state W) :
  fst (run env s) = Ok tt /\
  (exists t, trace (snd (run env s)) = trace s ++ started :: t ++ [finished]) /\
  (forall e : exn,
     determine_os env = Raise e ->
     e = Exn OSError "Unsupported operating system" /\
     os_name env <> "nt" /\ os_name env <> "posix" /\
     world (snd (run env s)) = world s /\
     trace (snd (run env s)) =
       trace s ++
       [ started;
         Logged Critical
           "Critical error during history removal: Unsupported operating system";
         finished ]).
Proof.
  unfold run, try_finally, try_except, mbind, M_bind, log, emit. simpl.
  split; [|split].
  - destruct (remove_history_atomic env _) as [[[]|e] s1]; reflexivity.
  - match goal with
    | |- context [remove_history_atomic env ?s0] =>
        destruct (remove_history_atomic_extends env s0) as (t & Ht)
    end.
    destruct (remove_history_atomic env _) as [[[]|e] s1]; simpl in *;
      rewrite Ht, <- !app_assoc; simpl.
    + exists t. reflexivity.
    + eexists (t ++ [_]). rewrite <- app_assoc. reflexivity.
  - intros e Hos. unfold remove_history_atomic. rewrite Hos. simpl.
    unfold determine_os in Hos.
    destruct (String.eqb (os_name env) "nt") eqn:Hnt; [discriminate|].
    destruct (String.eqb (os_name env) "posix") eqn:Hposix.
    { destruct (String.eqb (Str.lower (sysname env)) "darwin"); discriminate. }
    inversion Hos; subst e. simpl.
    split; [reflexivity|].
    split; [intros Heq; rewrite Heq in Hnt; discriminate|].
    split; [intros Heq; rewrite Heq in Hposix; discriminate|].
    split; [reflexivity|]. rewrite <- !app_assoc. reflexivity.
Qed.

End HistoryRemovalFacts.


(* ===================================================================== *)
(** * src/tools/webapps/Utility.Calcuator.py, further properties           *)
(* ===================================================================== *)

Module CalculatorFacts.
Import Calculator.

(** ** The conversion to RPN *)

Definition is_operator (token : string) : bool :=
  bool_decide (is_Some (precedence token)).

(** The tokens [_infix_to_rpn] acts on. *)
Definition known (token : string) : bool :=
  is_number_token token || Str.mem token _get_supported_functions
  || String.eqb token "(" || String.eqb token ")" || is_operator token.

Definition paren (token : string) : bool :=
  String.eqb token "(" || String.eqb token ")".

Lemma precedence_cases (op : string) (p : nat) :
  precedence op = Some p ->
  (op = "+" /\ p = 1) \/ (op = "-" /\ p = 1) \/ (op = "*" /\ p = 2) \/
  (op = "/" /\ p = 2) \/ (op = "^" /\ p = 3).
Proof.
  unfold precedence. intros Hp.
  repeat match type of Hp with
         | (if String.eqb ?a ?b then _ else _) = _ =>
             destruct (String.eqb_spec a b) as [->|_]
         end;
    inversion Hp; tauto.
Qed.

(** An operator is no number, function name or parenthesis. *)
Lemma operator_step (op : string) (p : nat) (output operators : list string) :
  precedence op = Some p ->
  infix_step (output, operators) op =
    Ok (fst (pop_higher p output operators), op :: snd (pop_higher p output operators)).
Proof.
  intros Hp.
  destruct (precedence_cases op p Hp) as [[-> ->]|[[-> ->]|[[-> ->]|[[-> ->]|[-> ->]]]]];
    unfold infix_step; simpl;
    destruct (pop_higher _ output operators); reflexivity.
Qed.

Lemma number_step (token : string) (output operators : list string) :
  is_number_token token = true ->
  infix_step (output, operators) token = Ok (output ++ [token], operators).
Proof. intros Hn. unfold infix_step. rewrite Hn. reflexivity. Qed.

Lemma loop_ok (st st' : list string * list string) (token : string)
  (rest : list string) :
  infix_step st token = Ok st' ->
  infix_loop st (token :: rest) = infix_loop st' rest.
Proof. intros Hstep. simpl. rewrite Hstep. reflexivity. Qed.

Section Grouping.

Context {R : Type} `{Number R}.
Variable py_pow : R -> R -> result R.
Variable math : string -> list R -> result R.

(** X8: two operators in a row without parentheses.  For number tokens [a],
    [b], [c], the tokens [a o1 b o2 c] become [a b o1 c o2] (the left
    operator first) whenever [o2] does not bind tighter than [o1], and
    [a b c o2 o1] otherwise.  Operators of equal precedence so group from
    the left, ['^'] included: [2^3^2] is evaluated as [(2 ** 3) ** 2], not
    as Python's [2 ** 3 ** 2]. *)
Theorem operators_group_left (a b c o1 o2 : string) (p1 p2 : nat)
  (Ha : is_number_token a = true) (Hb : is_number_token b = true)
  (Hc : is_number_token c = true)
  (H1 : precedence o1 = Some p1) (H2 : precedence o2 = Some p2) :
  _infix_to_rpn [a; o1; b; o2; c] =
    Ok (if Nat.leb p2 p1 then [a; b; o1; c; o2] else [a; b; c; o2; o1]) /\
  _safe_eval py_pow math "2^3^2" =
    (x ← py_pow (of_decimal 2 0) (of_decimal 3 0); py_pow x (of_decimal 2 0)).
Proof.
  split.
  - assert (Hopen : String.eqb o1 "(" = false).
    { destruct (precedence_cases o1 p1 H1)
        as [[-> _]|[[-> _]|[[-> _]|[[-> _]|[-> _]]]]]; reflexivity. }
    unfold _infix_to_rpn.
    rewrite (loop_ok _ _ _ _ (number_step a _ _ Ha)).
    rewrite (loop_ok _ _ _ _ (operator_step o1 p1 _ _ H1)).
    rewrite (loop_ok _ _ _ _ (number_step b _ _ Hb)).
    rewrite (loop_ok _ _ _ _ (operator_step o2 p2 _ _ H2)).
    rewrite (loop_ok _ _ _ _ (number_step c _ _ Hc)).
    simpl. rewrite Hopen, H1. simpl.
    destruct (Nat.leb p2 p1); reflexivity.
  - cbv.
    repeat match goal with
           | |- context [py_pow ?x ?y] => destruct (py_pow x y)
           end; reflexivity.
Qed.

End Grouping.

(** [a ** b] on rationals, for a whole exponent. *)
Definition whole_power (a b : Q) : result Q := Ok (Qpower a (Qnum b)).

Lemma operators_group_left_witness :
  _infix_to_rpn ["8"; "-"; "3"; "-"; "2"] = Ok ["8"; "3"; "-"; "2"; "-"] /\
  _safe_eval whole_power (fun _ _ => Raise (Exn ValueError "")) "2^3^2" = Ok 64%Q.
Proof.
  destruct (operators_group_left (R := Q) whole_power
              (fun _ _ => Raise (Exn ValueError ""))
              "8" "3" "2" "-" "-" 1 1 eq_refl eq_refl eq_refl eq_refl eq_refl)
    as [Hrpn Heval].
  split; [exact Hrpn|]. rewrite Heval. reflexivity.
Defined.

(** ** Parentheses that do not match *)

Definition not_open (token : string) : Prop := token <> "(".

Lemma pop_to_paren_no_open (output operators : list string) :
  Forall not_open operators -> snd (pop_to_paren output operators) = [].
Proof.
  revert output. induction operators as [|top below IH]; intros output Hops;
    [reflexivity|].
  inversion Hops as [|? ? Htop Hbelow]; subst. simpl.
  destruct (String.eqb_spec top "(") as [->|_]; [contradiction|].
  apply IH, Hbelow.
Qed.

Lemma pop_higher_keeps (P : string -> Prop) (p : nat) (output operators : list string) :
  Forall P operators -> Forall P (snd (pop_higher p output operators)).
Proof.
  revert output. induction operators as [|top below IH]; intros output Hops;
    [constructor|].
  inversion Hops as [|? ? Htop Hbelow]; subst. simpl.
  destruct (negb (String.eqb top "(") && Nat.leb p (default 0 (precedence top)));
    [apply IH, Hbelow|exact Hops].
Qed.

(** The only exception of a turn of the loop. *)
Lemma infix_step_raises (st : list string * list string) (token : string) (e : exn) :
  infix_step st token = Raise e -> e = Exn IndexError "pop from empty list".
Proof.
  destruct st as [output operators]. unfold infix_step.
  destruct (is_number_token token); [discriminate|].
  destruct (Str.mem token _get_supported_functions); [discriminate|].
  destruct (String.eqb token "("); [discriminate|].
  destruct (String.eqb token ")").
  - destruct (pop_to_paren output operators) as [output' [|top below]];
      [|discriminate].
    intros Heq. inversion Heq. reflexivity.
  - destruct (precedence token); [|discriminate].
    destruct (pop_higher _ output operators). discriminate.
Qed.

Lemma infix_step_no_open (output operators : list string) (token : string)
  (st : list string * list string) :
  Forall not_open operators -> not_open token ->
  infix_step (output, operators) token = Ok st -> Forall not_open (snd st).
Proof.
  intros Hops Htoken. unfold infix_step.
  destruct (is_number_token token); [intros Heq; inversion Heq; exact Hops|].
  destruct (Str.mem token _get_supported_functions);
    [intros Heq; inversion Heq; constructor; assumption|].
  destruct (String.eqb_spec token "(") as [->|_]; [contradiction|].
  destruct (String.eqb token ")").
  - pose proof (pop_to_paren_no_open output operators Hops) as Hempty.
    destruct (pop_to_paren output operators) as [output' operators'].
    simpl in Hempty. subst operators'. discriminate.
  - destruct (precedence token) as [p|];
      [|intros Heq; inversion Heq; exact Hops].
    pose proof (pop_higher_keeps not_open p output operators Hops) as Hkept.
    destruct (pop_higher p output operators) as [output' operators'].
    intros Heq. inversion Heq. constructor; assumption.
Qed.

Lemma close_without_open (output operators : list string) :
  Forall not_open operators ->
  infix_step (output, operators) ")" = Raise (Exn IndexError "pop from empty list").
Proof.
  intros Hops. unfold infix_step. simpl.
  pose proof (pop_to_paren_no_open output operators Hops) as Hempty.
  destruct (pop_to_paren output operators) as [output' operators'].
  simpl in Hempty. subst operators'. reflexivity.
Qed.

Lemma bind_ok {A B} (a : A) (k : A -> result B) : (Ok a ≫= k) = k a.
Proof. reflexivity. Qed.

Lemma infix_loop_cons (st : list string * list string) (token : string)
  (rest : list string) :
  infix_loop st (token :: rest) = (st' ← infix_step st token; infix_loop st' rest).
Proof. reflexivity. Qed.

Lemma infix_loop_stray_close (pre suf : list string) :
  Forall not_open pre ->
  forall output operators,
    Forall not_open operators ->
    infix_loop (output, operators) (pre ++ ")" :: suf)
      = Raise (Exn IndexError "pop from empty list").
Proof.
  induction 1 as [|token pre Htoken Hpre IH]; intros output operators Hops.
  - rewrite app_nil_l, infix_loop_cons, close_without_open by exact Hops.
    reflexivity.
  - rewrite <- app_comm_cons, infix_loop_cons.
    destruct (infix_step (output, operators) token) as [[output' operators']|e]
      eqn:Hstep; simpl.
    + apply IH. apply (infix_step_no_open _ _ _ _ Hops Htoken Hstep).
    + apply infix_step_raises in Hstep. subst e. reflexivity.
Qed.

(** X9: a [')'] with no ['('] before it.  Whatever the other tokens are,
    [_infix_to_rpn] pops the empty operator stack and raises
    [IndexError("pop from empty list")]; [_safe_eval] raises it too, and
    [evaluate] returns the text ["Error: pop from empty list"]. *)
Theorem stray_close_paren_raises
  {R : Type} `{Number R}
  (py_pow : R -> R -> result R) (math : string -> list R -> result R)
  (pre suf : list string)
  (Hpre : Forall not_open pre) :
  _infix_to_rpn (pre ++ ")" :: suf) = Raise (Exn IndexError "pop from empty list") /\
  (forall expression : string,
     let text := Str.lower (Str.replace " " "" expression) in
     Str.any (fun c => negb (allowed_char c)) text = false ->
     tokenize text = pre ++ ")" :: suf ->
     _safe_eval py_pow math expression
       = Raise (Exn IndexError "pop from empty list")) /\
  (forall (self : calculator) (expression : string),
     let text :=
       Str.lower (Str.replace " " "" (substitute_constants (constants self) expression)) in
     Str.any (fun c => negb (allowed_char c)) text = false ->
     tokenize text = pre ++ ")" :: suf ->
     evaluate py_pow math self expression
       = (Message "Error: pop from empty list", self)).
Proof.
  assert (Hrpn : _infix_to_rpn (pre ++ ")" :: suf)
                 = Raise (Exn IndexError "pop from empty list")).
  { unfold _infix_to_rpn.
    rewrite (infix_loop_stray_close pre suf Hpre [] []) by constructor.
    reflexivity. }
  split; [exact Hrpn|]. split.
  - intros expression text Hchars Htokens. unfold _safe_eval. fold text.
    rewrite Hchars, Htokens, Hrpn. reflexivity.
  - intros self expression text Hchars Htokens. unfold evaluate, _safe_eval.
    fold text. rewrite Hchars, Htokens, Hrpn. reflexivity.
Qed.

Lemma stray_close_paren_raises_witness :
  Forall not_open ["2"; "+"; "3"] /\
  _safe_eval (R := float) (fun _ _ => Raise (Exn OverflowError ""))
    (fun _ _ => Raise (Exn ValueError "")) "2 + 3)"
    = Raise (Exn IndexError "pop from empty list").
Proof.
  assert (Hpre : Forall not_open ["2"; "+"; "3"])
    by (repeat constructor; discriminate).
  split; [exact Hpre|].
  apply (proj1 (proj2 (stray_close_paren_raises (R := float)
                         (fun _ _ => Raise (Exn OverflowError ""))
                         (fun _ _ => Raise (Exn ValueError ""))
                         ["2"; "+"; "3"] [] Hpre))); reflexivity.
Defined.

(** An operator stack with a ['('] at its bottom behaves like the stack
    without it, as long as no parenthesis arrives. *)
Lemma pop_higher_under_open (p : nat) (output operators : list string) :
  pop_higher p output (operators ++ ["("]) =
    (fst (pop_higher p output operators),
     snd (pop_higher p output operators) ++ ["("]).
Proof.
  revert output. induction operators as [|top below IH]; intros output;
    [reflexivity|].
  simpl.
  destruct (negb (String.eqb top "(") && Nat.leb p (default 0 (precedence top)));
    [apply IH|reflexivity].
Qed.

Definition no_paren (token : string) : Prop := paren token = false.

Lemma infix_loop_under_open (tokens : list string) :
  Forall no_paren tokens ->
  forall output operators,
    infix_loop (output, operators ++ ["("]) tokens =
      (st ← infix_loop (output, operators) tokens;
       Ok (fst st, snd st ++ ["("])).
Proof.
  induction 1 as [|token tokens Htoken Htokens IH]; intros output operators;
    [reflexivity|].
  unfold no_paren, paren in Htoken. apply orb_false_elim in Htoken as [Hopen Hclose].
  rewrite !infix_loop_cons. unfold infix_step. rewrite Hopen, Hclose.
  destruct (is_number_token token); [rewrite !bind_ok; apply IH|].
  destruct (Str.mem token _get_supported_functions);
    [rewrite !bind_ok; apply (IH output (token :: operators))|].
  destruct (precedence token) as [p|]; [|rewrite !bind_ok; apply IH].
  rewrite pop_higher_under_open.
  destruct (pop_higher p output operators) as [output' operators'].
  cbv beta iota. rewrite !bind_ok.
  apply (IH output' (token :: operators')).
Qed.

Section Evaluation.

Context {R : Type} `{Number R}.
Variable py_pow : R -> R -> result R.
Variable math : string -> list R -> result R.

(** [_evaluate_rpn] passes over a ['('] in its input. *)
Lemma evaluate_rpn_open (rpn : list string) :
  _evaluate_rpn py_pow math (rpn ++ ["("]) = _evaluate_rpn py_pow math rpn.
Proof.
  unfold _evaluate_rpn. rewrite rpn_loop_app.
  destruct (rpn_loop py_pow math [] rpn) as [stack|e]; reflexivity.
Qed.

End Evaluation.

(** X10: a ['('] that is never closed is not an error.  For tokens without
    parentheses, [_infix_to_rpn] leaves the ['('] on the operator stack and
    appends it to its output, where [_evaluate_rpn] passes over it: the
    expression with the opening parenthesis in front evaluates exactly as
    the one without.  (A stray [')'] raises, see above.) *)
Theorem unclosed_paren_is_ignored
  {R : Type} `{Number R}
  (py_pow : R -> R -> result R) (math : string -> list R -> result R)
  (tokens : list string)
  (Htokens : Forall no_paren tokens) :
  _infix_to_rpn ("(" :: tokens) = (rpn ← _infix_to_rpn tokens; Ok (rpn ++ ["("])) /\
  (rpn ← _infix_to_rpn ("(" :: tokens); _evaluate_rpn py_pow math rpn) =
  (rpn ← _infix_to_rpn tokens; _evaluate_rpn py_pow math rpn).
Proof.
  assert (Hrpn : _infix_to_rpn ("(" :: tokens)
                 = (rpn ← _infix_to_rpn tokens; Ok (rpn ++ ["("]))).
  { unfold _infix_to_rpn.
    rewrite infix_loop_cons.
    change (infix_step ([], []) "(") with (Ok (@nil string, [] ++ ["("])).
    rewrite bind_ok, (infix_loop_under_open tokens Htokens [] []).
    destruct (infix_loop ([], []) tokens) as [[output operators]|e];
      [|reflexivity].
    rewrite !bind_ok. cbv beta iota. cbn [fst snd]. rewrite ?bind_ok, app_assoc.
    reflexivity. }
  split; [exact Hrpn|]. rewrite Hrpn.
  destruct (_infix_to_rpn tokens) as [rpn|e]; simpl; [|reflexivity].
  apply evaluate_rpn_open.
Qed.

Lemma unclosed_paren_is_ignored_witness :
  Forall no_paren ["2"; "+"; "3"] /\
  _safe_eval (R := Q) whole_power (fun _ _ => Raise (Exn ValueError "")) "(2+3"
    = Ok 5%Q.
Proof.
  assert (Htokens : Forall no_paren ["2"; "+"; "3"]) by (repeat constructor).
  split; [exact Htokens|].
  pose proof (proj2 (unclosed_paren_is_ignored (R := Q) whole_power
                       (fun _ _ => Raise (Exn ValueError ""))
                       ["2"; "+"; "3"] Htokens)) as Heval.
  change (_safe_eval (R := Q) whole_power (fun _ _ => Raise (Exn ValueError "")) "(2+3")
    with (rpn ← _infix_to_rpn ("(" :: ["2"; "+"; "3"]);
          _evaluate_rpn (R := Q) whole_power (fun _ _ => Raise (Exn ValueError "")) rpn).
  rewrite Heval. reflexivity.
Defined.

(** ** Tokens the converter does not know *)

Lemma unknown_step (st : list string * list string) (token : string) :
  known token = false -> infix_step st token = Ok st.
Proof.
  destruct st as [output operators]. unfold known, is_operator, infix_step.
  intros Hk.
  repeat (apply orb_false_elim in Hk as [Hk ?]).
  rewrite Hk.
  repeat match goal with
         | Heq : ?b = false |- context [if ?b then _ else _] => rewrite Heq
         end.
  destruct (precedence token); [|reflexivity].
  match goal with
  | Hop : bool_decide _ = false |- _ =>
      apply bool_decide_eq_false in Hop; exfalso; apply Hop; eauto
  end.
Qed.

Lemma infix_loop_filter (tokens : list string) (st : list string * list string) :
  infix_loop st tokens = infix_loop st (List.filter known tokens).
Proof.
  revert st. induction tokens as [|token tokens IH]; intros st; [reflexivity|].
  simpl. destruct (known token) eqn:Hk; simpl.
  - destruct (infix_step st token); simpl; [apply IH|reflexivity].
  - rewrite unknown_step by exact Hk. simpl. apply IH.
Qed.

(** X11: [_infix_to_rpn] drops, without an error, every token that is not a
    number, a supported function name, a parenthesis or an operator: the
    result is that of the known tokens alone.  A misspelt function name or
    any other word is so lost from the expression ([sine(0)] is evaluated
    as [(0)]). *)
Theorem unknown_tokens_are_dropped
  {R : Type} `{Number R}
  (py_pow : R -> R -> result R) (math : string -> list R -> result R)
  (tokens : list string) :
  _infix_to_rpn tokens = _infix_to_rpn (List.filter known tokens) /\
  _safe_eval py_pow math "sine(0)" = Ok (of_decimal 0 0) /\
  _safe_eval py_pow math "2x+3" = Ok (add (of_decimal 2 0) (of_decimal 3 0)).
Proof.
  split; [|split; reflexivity].
  unfold _infix_to_rpn. rewrite infix_loop_filter. reflexivity.
Qed.


(** ** Number tokens of the tokenizer *)

Lemma span_spec (p : ascii -> bool) (s a b : string) :
  Str.span p s = (a, b) ->
  s = a +:+ b /\ Str.all p a = true /\
  match b with
  | EmptyString => True
  | String c _ => p c = false
  end.
Proof.
  revert a b. induction s as [|c r IH]; intros a b Hspan; simpl in Hspan.
  - inversion Hspan. auto.
  - destruct (p c) eqn:Hc.
    + destruct (Str.span p r) as [a' b'] eqn:Hr. inversion Hspan; subst.
      destruct (IH a' b eq_refl) as (-> & Hall & Hb).
      split; [reflexivity|]. split; [simpl; rewrite Hc; exact Hall|exact Hb].
    + inversion Hspan; subst. simpl. rewrite Hc. auto.
Qed.

(** The longest run of [a +:+ b] is [a] when [b] does not go on with it. *)
Lemma span_app (p : ascii -> bool) (a b : string) :
  Str.all p a = true ->
  match b with
  | EmptyString => True
  | String c _ => p c = false
  end ->
  Str.span p (a +:+ b) = (a, b).
Proof.
  intros Hall Hb. induction a as [|c a IH].
  - change ("" +:+ b) with b.
    destruct b as [|c b]; [reflexivity|]. simpl. rewrite Hb. reflexivity.
  - simpl in Hall. apply andb_prop in Hall as [Hc Hall].
    rewrite StrFacts.app_cons. simpl. rewrite Hc, (IH Hall). reflexivity.
Qed.

Lemma point_split (r1 : string) :
  match r1 with
  | String "."%char r2 => (".", r2)
  | _ => ("", r1)
  end =
  match r1 with
  | String d r2 => if Ascii.eqb d "." then (".", r2) else ("", r1)
  | EmptyString => ("", r1)
  end.
Proof.
  destruct r1 as [|d r2]; [reflexivity|].
  destruct d as [[] [] [] [] [] [] [] []]; reflexivity.
Qed.

Lemma app_empty_r (s : string) : s +:+ "" = s.
Proof. induction s as [|c s IH]; [reflexivity|]. rewrite StrFacts.app_cons, IH. reflexivity. Qed.

Section NumberTokens.

Context {R : Type} `{Number R}.

(** [float] accepts digits, a point, digits, when there is a first digit. *)
Lemma float_of_number (c : ascii) (int_part frac : string) :
  Str.is_digit c = true ->
  Str.all Str.is_digit int_part = true ->
  Str.all Str.is_digit frac = true ->
  is_ok (float_of_token (R := R) (String c int_part +:+ "." +:+ frac)) = true /\
  is_ok (float_of_token (R := R) (String c int_part)) = true.
Proof.
  intros Hc Hint Hfrac.
  assert (Hall : Str.all Str.is_digit (String c int_part) = true)
    by (simpl; rewrite Hc; exact Hint).
  split.
  - unfold float_of_token.
    rewrite (span_app Str.is_digit (String c int_part) ("." +:+ frac) Hall)
      by reflexivity.
    change ("." +:+ frac) with (String "." frac). cbv beta iota.
    rewrite Hfrac. reflexivity.
  - unfold float_of_token.
    pose proof (span_app Str.is_digit (String c int_part) "" Hall I) as Hspan.
    rewrite app_empty_r in Hspan. rewrite Hspan. reflexivity.
Qed.

(** What [findall] yields: a number that [float] accepts, one of the
    characters [+-*/^()], or a word of lower-case letters. *)
Definition token_shape (token : string) : Prop :=
  (is_number_token token = true /\ is_ok (float_of_token (R := R) token) = true) \/
  (is_number_token token = false /\
   ((exists c, token = String c "" /\ is_op_char c = true) \/
    (token <> "" /\ Str.all Str.is_lower token = true))).

Lemma digit_no_point_prefix (c : ascii) (s : string) :
  Str.is_digit c = true -> String.prefix "." (String c s) = false.
Proof.
  intros Hd.
  change (String.prefix "." (String c s))
    with (if ascii_dec "." c then String.prefix "" s else false).
  destruct (ascii_dec "." c) as [<-|]; [discriminate Hd|reflexivity].
Qed.

Lemma replace_point_digits (s : string) :
  Str.all Str.is_digit s = true -> Str.replace_from "." "" 0 s = s.
Proof.
  induction s as [|c s IH]; intros Hall; [reflexivity|].
  simpl in Hall. apply andb_prop in Hall as [Hc Hall].
  rewrite StrFacts.replace_from_cons0, (digit_no_point_prefix c s Hc).
  f_equal. apply IH, Hall.
Qed.

Lemma replace_from_app_digits (a b : string) :
  Str.all Str.is_digit a = true ->
  Str.replace_from "." "" 0 (a +:+ b) = a +:+ Str.replace_from "." "" 0 b.
Proof.
  induction a as [|c a IH]; intros Hall; [reflexivity|].
  simpl in Hall. apply andb_prop in Hall as [Hc Hall].
  rewrite !StrFacts.app_cons, StrFacts.replace_from_cons0,
    (digit_no_point_prefix c _ Hc).
  f_equal. apply IH, Hall.
Qed.

Lemma all_app (p : ascii -> bool) (a b : string) :
  Str.all p (a +:+ b) = Str.all p a && Str.all p b.
Proof.
  induction a as [|c a IH]; [reflexivity|].
  rewrite StrFacts.app_cons. simpl. rewrite IH, andb_assoc. reflexivity.
Qed.

Lemma number_is_number_token (c : ascii) (int_part point frac : string) :
  Str.is_digit c = true ->
  Str.all Str.is_digit int_part = true ->
  Str.all Str.is_digit frac = true ->
  point = "." \/ point = "" ->
  is_number_token (String c int_part +:+ point +:+ frac) = true.
Proof.
  intros Hc Hint Hfrac Hpoint.
  assert (Hall : Str.all Str.is_digit (String c int_part) = true)
    by (simpl; rewrite Hc; exact Hint).
  unfold is_number_token, Str.replace. simpl (String.eqb "." "").
  cbv iota. rewrite (replace_from_app_digits _ _ Hall).
  assert (Hrest : Str.replace_from "." "" 0 (point +:+ frac) = frac).
  { destruct Hpoint as [->| ->].
    - change ("." +:+ frac) with (String "." frac).
      rewrite StrFacts.replace_from_cons0. simpl.
      destruct frac as [|d frac]; [reflexivity|].
      apply (replace_point_digits (String d frac) Hfrac).
    - apply replace_point_digits, Hfrac. }
  rewrite Hrest. unfold Str.isdigit.
  rewrite all_app, Hall, Hfrac. reflexivity.
Qed.

Lemma op_char_token (c : ascii) :
  is_op_char c = true -> is_number_token (String c "") = false.
Proof.
  destruct c as [[] [] [] [] [] [] [] []]; intros Hop;
    first [discriminate Hop|reflexivity].
Qed.

Lemma lower_not_digit (c : ascii) : Str.is_lower c = true -> Str.is_digit c = false.
Proof.
  unfold Str.is_lower, Str.is_digit, Str.in_range. intros Hl.
  apply andb_prop in Hl as [Hlo _]. apply N.leb_le in Hlo.
  apply andb_false_iff. right. apply N.leb_gt. lia.
Qed.

Lemma word_token (c : ascii) (word : string) :
  Str.is_lower c = true -> is_number_token (String c word) = false.
Proof.
  intros Hl. unfold is_number_token, Str.replace. simpl (String.eqb "." "").
  cbv iota. rewrite StrFacts.replace_from_cons0.
  assert (Hp : String.prefix "." (String c word) = false).
  { change (String.prefix "." (String c word))
      with (if ascii_dec "." c then String.prefix "" word else false).
    destruct (ascii_dec "." c) as [<-|]; [discriminate Hl|reflexivity]. }
  rewrite Hp. unfold Str.isdigit. simpl.
  rewrite (lower_not_digit c Hl). reflexivity.
Qed.

Lemma findall_shapes (fuel : nat) (s : string) :
  Forall token_shape (findall fuel s).
Proof.
  revert s. induction fuel as [|fuel IH]; intros s; [constructor|].
  destruct s as [|c r]; [constructor|].
  cbn [findall].
  destruct (Str.is_digit c) eqn:Hd.
  - cbn [Str.span]. rewrite Hd.
    destruct (Str.span Str.is_digit r) as [int_part r1] eqn:Hspan.
    apply span_spec in Hspan as (_ & Hint & Hmax).
    rewrite point_split.
    assert (Hnumber : forall point frac : string,
              point = "." \/ (point = "" /\ frac = "") ->
              Str.all Str.is_digit frac = true ->
              token_shape (String c int_part +:+ point +:+ frac)).
    { intros point frac Hpoint Hfrac. left. split.
      - apply number_is_number_token; try assumption. tauto.
      - destruct Hpoint as [->|[-> ->]].
        + apply (float_of_number c int_part frac Hd Hint Hfrac).
        + change ("" +:+ "") with "". rewrite app_empty_r.
          apply (float_of_number c int_part "" Hd Hint eq_refl). }
    destruct r1 as [|d r2].
    + simpl. constructor; [|apply IH]. apply (Hnumber "" ""); auto.
    + destruct (Ascii.eqb d ".") eqn:Hpoint.
      * destruct (Str.span Str.is_digit r2) as [frac r3] eqn:Hfrac.
        apply span_spec in Hfrac as (_ & Hfrac & _).
        constructor; [|apply IH]. apply (Hnumber "." frac); auto.
      * simpl. rewrite Hmax.
        constructor; [|apply IH]. apply (Hnumber "" ""); auto.
  - destruct (is_op_char c) eqn:Hop.
    + constructor; [|apply IH]. right.
      split; [apply op_char_token, Hop|]. left. eauto.
    + destruct (Str.is_lower c) eqn:Hl; [|apply IH].
      cbn [Str.span]. rewrite Hl.
      destruct (Str.span Str.is_lower r) as [word r1] eqn:Hspan.
      apply span_spec in Hspan as (_ & Hword & _).
      constructor; [|apply IH]. right.
      split; [apply word_token, Hl|]. right.
      split; [discriminate|]. simpl. rewrite Hl. exact Hword.
Qed.

End NumberTokens.

(** X12: every token of the tokenizer that [_evaluate_rpn] takes for a
    number (its test is [token.replace('.', '').isdigit()]) is accepted by
    [float]: the pattern [\d+\.?\d*] yields digits with at most one point,
    after a first digit.  The [ValueError] of [float(token)] cannot occur in
    [_safe_eval]. *)
Theorem number_tokens_convert
  {R : Type} `{Number R} (expression token : string)
  (Htoken : In token (tokenize expression))
  (Hnumber : is_number_token token = true) :
  exists x : R, float_of_token token = Ok x.
Proof.
  pose proof (findall_shapes (R := R) (String.length expression) expression) as Hall.
  rewrite Forall_forall in Hall.
  specialize (Hall token (proj2 (list_elem_of_In _ _) Htoken)).
  destruct Hall as [[_ Hok]|[Hno _]]; [|congruence].
  destruct (float_of_token token) as [x|e]; [eauto|discriminate].
Qed.

Lemma number_tokens_convert_witness :
  In "3.14" (tokenize "3.14*r") /\ is_number_token "3.14" = true /\
  exists x : Q, float_of_token "3.14" = Ok x.
Proof.
  assert (Hin : In "3.14" (tokenize "3.14*r")) by (left; reflexivity).
  split; [exact Hin|]. split; [reflexivity|].
  exact (number_tokens_convert (R := Q) "3.14*r" "3.14" Hin eq_refl).
Defined.


(** ** [calculate_percentage] *)

Section Percentage.

Context {R : Type} `{Number R}.

(** The dictionary [calculate_percentage] returns; [None] stands for
    Python's [None]. *)
Record percentages : Type := {
  percentage_amount : R;
  total_with_percentage : R;
  total_less_percentage : R;
  is_what_percent_of : option R
}.

Definition hundred : R := of_decimal 100 0.

Definition calculate_percentage (value percentage : R) : result percentages :=
  amount ← truediv (mul value percentage) hundred;
  increase ← truediv (mul value percentage) hundred;
  decrease ← truediv (mul value percentage) hundred;
  share ← (if negb (is_zero value)
           then ratio ← truediv percentage value; Ok (Some (mul ratio hundred))
           else Ok None);
  Ok {| percentage_amount := amount;
        total_with_percentage := add value increase;
        total_less_percentage := sub value decrease;
        is_what_percent_of := share |}.

(** The only division by an argument is guarded. *)
Lemma calculate_percentage_returns (value percentage : R) :
  is_zero hundred = false ->
  exists r,
    calculate_percentage value percentage = Ok r /\
    (is_what_percent_of r = None <-> is_zero value = true).
Proof.
  intros Hhundred. unfold calculate_percentage, truediv. rewrite Hhundred.
  rewrite !bind_ok.
  destruct (is_zero value) eqn:Hz; cbn [negb]; rewrite ?bind_ok; cbv beta iota.
  - eexists. split; [reflexivity|]. simpl. tauto.
  - rewrite ?bind_ok. eexists. split; [reflexivity|]. simpl.
    split; [discriminate|discriminate].
Qed.

End Percentage.

(** X15: [calculate_percentage] never raises, on binary64 floats and on
    rationals alike: the division by [value] is made only when
    [value != 0], and ['is_what_percent_of'] is [None] exactly when
    [value == 0].  On rationals the three amounts are [value * percentage
    / 100], [value] plus it and [value] minus it, so the two totals add up
    to twice [value]. *)
Theorem calculate_percentage_never_raises :
  (forall value percentage : float,
     exists r,
       calculate_percentage value percentage = Ok r /\
       (is_what_percent_of r = None <-> PrimFloat.eqb value 0 = true)) /\
  (forall value percentage : Q,
     exists r,
       calculate_percentage value percentage = Ok r /\
       (is_what_percent_of r = None <-> value == 0) /\
       percentage_amount r == value * percentage / 100 /\
       total_with_percentage r + total_less_percentage r == 2 * value).
Proof.
  split.
  - intros value percentage.
    assert (Hhundred : is_zero (R := float) hundred = false) by reflexivity.
    destruct (calculate_percentage_returns value percentage Hhundred)
      as (r & Hr & Hnone).
    exists r. split; [exact Hr|exact Hnone].
  - intros value percentage.
    assert (Hhundred : is_zero (R := Q) hundred = false) by reflexivity.
    destruct (calculate_percentage_returns value percentage Hhundred)
      as (r & Hr & Hnone).
    exists r. split; [exact Hr|].
    split; [rewrite Hnone; apply Qeq_bool_iff|].
    unfold calculate_percentage, truediv in Hr.
    rewrite Hhundred in Hr. rewrite !bind_ok in Hr.
    destruct (is_zero value); cbn [negb] in Hr; cbv beta iota in Hr;
      rewrite ?bind_ok in Hr; inversion Hr; subst r; simpl.
    all: change (Q_of_decimal 100 0) with 100%Q; split; field.
Qed.

(** ** The memory, the history and the table of constants *)

Section Object.

Context {R : Type} `{Number R}.

Definition store_in_memory (self : @calculator R) (value : R) : @calculator R :=
  {| memory := value; history := history self; constants := constants self |}.

Definition recall_from_memory (self : @calculator R) : R := memory self.

Definition clear_memory (self : @calculator R) : @calculator R :=
  {| memory := of_decimal 0 0; history := history self;
     constants := constants self |}.

Definition get_history (self : @calculator R) : list (string * R) := history self.

Definition clear_history (self : @calculator R) : @calculator R :=
  {| memory := memory self; history := []; constants := constants self |}.

Definition get_constants (self : @calculator R) : list (string * string) :=
  constants self.

(** [name.isalpha()] on ASCII text *)
Definition isalpha (name : string) : bool :=
  negb (String.eqb name "")
  && Str.all (fun c => Str.is_lower c || Str.is_upper c) name.

(** [{'pi', 'e', 'phi', 'c', 'g'}] *)
Definition builtin_names : list string := ["pi"; "e"; "phi"; "c"; "g"].

(** [del d[key]] for a key of [d] *)
Fixpoint dict_del {V} (key : string) (d : list (string * V)) : list (string * V) :=
  match d with
  | [] => []
  | (k, v) :: rest =>
      if String.eqb key k then rest else (k, v) :: dict_del key rest
  end.

(** [value] is the text [str] gives for the number, which is what
    [evaluate] substitutes. *)
Definition add_custom_constant (self : @calculator R) (name value : string)
  : result (@calculator R) :=
  if negb (isalpha name) then
    Raise (Exn ValueError "Constant name must contain only alphabetic characters")
  else if dict_in name (constants self) then
    Raise (Exn ValueError ("Constant '" +:+ name +:+ "' already exists"))
  else
    Ok {| memory := memory self; history := history self;
          constants := constants self ++ [(name, value)] |}.

Definition remove_custom_constant (self : @calculator R) (name : string)
  : result (@calculator R) :=
  if negb (dict_in name (constants self)) then
    Raise (Exn ValueError ("Constant '" +:+ name +:+ "' does not exist"))
  else if Str.mem name builtin_names then
    Raise (Exn ValueError ("Cannot remove built-in constant '" +:+ name +:+ "'"))
  else
    Ok {| memory := memory self; history := history self;
          constants := dict_del name (constants self) |}.

(** A call on the object: [self] stays as it was when the call raises. *)
Inductive request : Type :=
| AddConstant (name value : string)
| RemoveConstant (name : string).

Definition serve (self : @calculator R) (r : request) : @calculator R :=
  let outcome :=
    match r with
    | AddConstant name value => add_custom_constant self name value
    | RemoveConstant name => remove_custom_constant self name
    end in
  match outcome with
  | Ok self' => self'
  | Raise _ => self
  end.

Lemma dict_in_app {V} (key : string) (d1 d2 : list (string * V)) :
  dict_in key (d1 ++ d2) = dict_in key d1 || dict_in key d2.
Proof.
  unfold dict_in. induction d1 as [|[k v] d1 IH]; simpl.
  - reflexivity.
  - destruct (String.eqb key k); [|exact IH].
    rewrite bool_decide_eq_true_2 by eauto. reflexivity.
Qed.

Lemma dict_del_app {V} (key : string) (d1 d2 : list (string * V)) :
  dict_in key d1 = false -> dict_del key (d1 ++ d2) = d1 ++ dict_del key d2.
Proof.
  unfold dict_in. induction d1 as [|[k v] d1 IH]; simpl; intros Hout.
  - reflexivity.
  - destruct (String.eqb key k).
    + apply bool_decide_eq_false in Hout. exfalso. apply Hout. eauto.
    + rewrite IH by exact Hout. reflexivity.
Qed.

Lemma dict_del_keeps {V} (P : string * V -> Prop) (key : string)
  (d : list (string * V)) :
  Forall P d -> Forall P (dict_del key d).
Proof.
  induction 1 as [|[k v] d Hkv Hd IH]; simpl; [constructor|].
  destruct (String.eqb key k); [exact Hd|constructor; assumption].
Qed.

Definition custom (entry : string * string) : Prop :=
  Str.mem (fst entry) builtin_names = false.

Lemma builtin_in_init (name : string) :
  Str.mem name builtin_names = dict_in name (constants init).
Proof.
  unfold Str.mem, builtin_names, dict_in. simpl.
  repeat (destruct (String.eqb name _); [reflexivity|]). reflexivity.
Qed.

(** The built-in entries stay in front, in their order. *)
Lemma serve_keeps_builtins (self : @calculator R) (r : request) (extra : list (string * string)) :
  constants self = constants init ++ extra -> Forall custom extra ->
  exists extra',
    constants (serve self r) = constants init ++ extra' /\ Forall custom extra'.
Proof.
  intros Hself Hextra. unfold serve.
  destruct r as [name value|name].
  - unfold add_custom_constant.
    destruct (negb (isalpha name)); [eauto|].
    destruct (dict_in name (constants self)) eqn:Hin; [eauto|].
    cbn [constants]. exists (extra ++ [(name, value)]).
    rewrite Hself, <- app_assoc. split; [reflexivity|].
    apply Forall_app_2; [exact Hextra|]. constructor; [|constructor].
    unfold custom. cbn [fst]. rewrite builtin_in_init.
    rewrite Hself, dict_in_app in Hin. apply orb_false_elim in Hin as [Hin _].
    exact Hin.
  - unfold remove_custom_constant.
    destruct (negb (dict_in name (constants self))); [eauto|].
    destruct (Str.mem name builtin_names) eqn:Hb; [eauto|].
    cbn [constants]. exists (dict_del name extra).
    rewrite Hself, dict_del_app by (rewrite <- builtin_in_init; exact Hb).
    split; [reflexivity|]. apply dict_del_keeps, Hextra.
Qed.

End Object.

(** X16: the built-in constants cannot be touched through
    [add_custom_constant] and [remove_custom_constant].  After any sequence
    of such calls on a new calculator (calls that raise included), the
    table of constants still starts with the five entries of [__init__], in
    their order and with their values, followed by entries of other names
    only; so a custom constant never replaces or shadows [pi], [e], [phi],
    [c] or [g]. *)
Theorem builtin_constants_stay
  {R : Type} `{Number R} (requests : list request) :
  exists extra : list (string * string),
    constants (fold_left serve requests init) = constants init ++ extra /\
    Forall custom extra /\
    (forall name : string,
       Str.mem name builtin_names = true ->
       dict_get name (constants (fold_left serve requests init))
         = dict_get name (constants init)).
Proof.
  assert (Hinv : forall (self : @calculator R) extra,
            constants self = constants init ++ extra -> Forall custom extra ->
            exists extra',
              constants (fold_left serve requests self) = constants init ++ extra' /\
              Forall custom extra').
  { induction requests as [|r requests IH]; intros self extra Hself Hextra.
    - exists extra. auto.
    - simpl. destruct (serve_keeps_builtins self r extra Hself Hextra)
        as (extra' & Hself' & Hextra').
      apply (IH (serve self r) extra' Hself' Hextra'). }
  destruct (Hinv init [] (eq_sym (app_nil_r _)) (List.Forall_nil _))
    as (extra & Hfinal & Hextra).
  exists extra. split; [exact Hfinal|]. split; [exact Hextra|].
  intros name Hname. rewrite Hfinal.
  unfold Str.mem, builtin_names in Hname. simpl in Hname. simpl.
  repeat (destruct (String.eqb name _); [reflexivity|]). discriminate.
Qed.

(** X17: adding a custom constant and removing it again.  When
    [add_custom_constant] accepts a name that is not one of the five
    built-in ones, a second [add_custom_constant] of that name raises
    [ValueError] (the stored value cannot be overwritten), and
    [remove_custom_constant] gives back the object as it was before. *)
Theorem add_then_remove_restores
  {R : Type} `{Number R} (self added : @calculator R) (name value : string)
  (Hcustom : Str.mem name builtin_names = false)
  (Hadd : add_custom_constant self name value = Ok added) :
  isalpha name = true /\
  dict_get name (constants added) = Some value /\
  (forall other : string,
     add_custom_constant added name other =
       Raise (Exn ValueError ("Constant '" +:+ name +:+ "' already exists"))) /\
  remove_custom_constant added name = Ok self.
Proof.
  unfold add_custom_constant in Hadd.
  destruct (isalpha name) eqn:Halpha; [|discriminate]. simpl in Hadd.
  destruct (dict_in name (constants self)) eqn:Hin; [discriminate|].
  inversion Hadd; subst added; clear Hadd.
  assert (Hnow : dict_get name (constants self ++ [(name, value)]) = Some value).
  { clear Halpha Hcustom. unfold dict_in in Hin.
    induction (constants self) as [|[k v] d IH]; simpl in *.
    - rewrite String.eqb_refl. reflexivity.
    - destruct (String.eqb name k).
      + apply bool_decide_eq_false in Hin. exfalso. apply Hin. eauto.
      + apply IH, Hin. }
  split; [reflexivity|]. split; [exact Hnow|]. split.
  - intros other. unfold add_custom_constant. rewrite Halpha.
    cbn [negb constants]. rewrite (dict_in_get _ _ _ Hnow). reflexivity.
  - unfold remove_custom_constant. cbn [constants memory history].
    rewrite (dict_in_get _ _ _ Hnow), Hcustom. cbn [negb]. cbv beta iota.
    rewrite dict_del_app by exact Hin. cbn [dict_del].
    rewrite String.eqb_refl, app_nil_r.
    destruct self; reflexivity.
Qed.

Lemma add_then_remove_restores_witness :
  let added : calculator (R := float) :=
    {| memory := memory init; history := history init;
       constants := constants init ++ [("tau", "6.283185307179586")] |} in
  isalpha "tau" = true /\
  dict_get "tau" (constants added) = Some "6.283185307179586" /\
  (forall other : string,
     add_custom_constant added "tau" other =
       Raise (Exn ValueError ("Constant '" +:+ "tau" +:+ "' already exists"))) /\
  remove_custom_constant added "tau" = Ok init.
Proof.
  exact (add_then_remove_restores (R := float) init _ "tau" "6.283185307179586"
           eq_refl eq_refl).
Defined.


(** ** [solve_quadratic_equation] *)

Section Quadratic.

Context {R : Type} `{Number R}.
Variable py_pow : R -> R -> result R.
Variable math : string -> list R -> result R.

(** [x > 0] and [-x] *)
Variable positive : R -> bool.
Variable neg : R -> R.

Inductive root : Type :=
| RealRoot (x : R)
| ComplexRoot (real imag : R).

Record quadratic : Type := {
  discriminant : R;
  nature : string;
  solutions : list root
}.

Definition solve_quadratic_equation (a b c : R) : result quadratic :=
  square ← py_pow b (of_decimal 2 0);
  let discriminant := sub square (mul (mul (of_decimal 4 0) a) c) in
  let nature :=
    if positive discriminant then "Real and distinct"
    else if is_zero discriminant then "Real and equal"
    else "Complex" in
  if positive discriminant || is_zero discriminant then
    r1 ← math "sqrt" [discriminant];
    x1 ← truediv (add (neg b) r1) (mul (of_decimal 2 0) a);
    r2 ← math "sqrt" [discriminant];
    x2 ← truediv (sub (neg b) r2) (mul (of_decimal 2 0) a);
    Ok {| discriminant := discriminant; nature := nature;
          solutions := [RealRoot x1; RealRoot x2] |}
  else
    real_part ← truediv (neg b) (mul (of_decimal 2 0) a);
    magnitude ← math "abs" [discriminant];
    r ← math "sqrt" [magnitude];
    imag_part ← truediv r (mul (of_decimal 2 0) a);
    Ok {| discriminant := discriminant; nature := nature;
          solutions := [ComplexRoot real_part imag_part;
                        ComplexRoot real_part (neg imag_part)] |}.

End Quadratic.

(** X24: [solve_quadratic_equation] has no case for [a == 0].  Whenever
    [2*a == 0] the call never returns, whatever [b] and [c] are: each branch
    divides by [2*a].  When [b**2], [math.sqrt] and [abs] return, the
    exception is [ZeroDivisionError]: a linear equation [b*x + c = 0] is
    answered by a division by zero. *)
Theorem quadratic_needs_nonzero_a
  {R : Type} `{Number R}
  (py_pow : R -> R -> result R) (math : string -> list R -> result R)
  (positive : R -> bool) (neg : R -> R) (a b c : R)
  (Ha : is_zero (mul (of_decimal 2 0) a) = true) :
  is_ok (solve_quadratic_equation py_pow math positive neg a b c) = false /\
  (is_ok (py_pow b (of_decimal 2 0)) = true ->
   (forall name args, is_ok (math name args) = true) ->
   solve_quadratic_equation py_pow math positive neg a b c =
     Raise (Exn ZeroDivisionError "float division by zero")).
Proof.
  unfold solve_quadratic_equation, truediv. rewrite Ha.
  destruct (py_pow b (of_decimal 2 0)) as [square|e]; [|split; [reflexivity|discriminate]].
  rewrite bind_ok.
  destruct (positive _ || is_zero _).
  - destruct (math "sqrt" _) as [r|e] eqn:Hsqrt; [split; reflexivity|].
    split; [reflexivity|]. intros _ Hmath. specialize (Hmath "sqrt" [sub square (mul (mul (of_decimal 4 0) a) c)]).
    rewrite Hsqrt in Hmath. discriminate.
  - split; reflexivity.
Qed.

Lemma quadratic_needs_nonzero_a_witness :
  solve_quadratic_equation (R := float)
    (fun x _ => Ok (x * x)%float) (fun _ args => Ok (List.hd 0%float args))
    (PrimFloat.ltb 0) PrimFloat.opp 0%float 2%float 1%float
  = Raise (Exn ZeroDivisionError "float division by zero").
Proof.
  apply (quadratic_needs_nonzero_a (R := float)
           (fun x _ => Ok (x * x)%float) (fun _ args => Ok (List.hd 0%float args))
           (PrimFloat.ltb 0) PrimFloat.opp 0%float 2%float 1%float);
    reflexivity.
Defined.


(** ** Function names in the conversion to RPN *)

Lemma function_step (f : string) (output operators : list string) :
  Str.mem f _get_supported_functions = true ->
  infix_step (output, operators) f = Ok (output, f :: operators).
Proof.
  intros Hf. unfold infix_step. rewrite Hf.
  assert (Hnumber : is_number_token f = false).
  { unfold Str.mem, _get_supported_functions in Hf. simpl in Hf.
    repeat match type of Hf with
           | (String.eqb ?a ?b || _) = true =>
               destruct (String.eqb_spec a b) as [->|_]; [reflexivity|];
               simpl in Hf
           end.
    discriminate. }
  rewrite Hnumber. reflexivity.
Qed.

Section Functions.

Context {R : Type} `{Number R}.
Variable py_pow : R -> R -> result R.
Variable math : string -> list R -> result R.

(** X25: a function is applied last.  [_infix_to_rpn] leaves a function
    name on the operator stack when its [')'] arrives, and no operator pops
    it (a name has precedence [0]): for a supported function [f], number
    tokens [a], [b] and an operator [o], the tokens [f ( a ) o b] become
    [a b o f], so [f(a) o b] is evaluated as [f(a o b)]; [sqrt(4)+5] is
    [math.sqrt(4.0 + 5.0)].  With the function on the right, [a o f ( b )]
    becomes [a b f o], as expected. *)
Theorem function_is_applied_last (f a b o : string) (p : nat)
  (Hf : Str.mem f _get_supported_functions = true)
  (Ha : is_number_token a = true) (Hb : is_number_token b = true)
  (Ho : precedence o = Some p) :
  _infix_to_rpn [f; "("; a; ")"; o; b] = Ok [a; b; o; f] /\
  _infix_to_rpn [a; o; f; "("; b; ")"] = Ok [a; b; f; o] /\
  _safe_eval py_pow math "sqrt(4)+5" =
    _apply_function math "sqrt" [add (of_decimal 4 0) (of_decimal 5 0)].
Proof.
  assert (Hopen : forall output operators,
            infix_step (output, operators) "(" = Ok (output, "(" :: operators))
    by reflexivity.
  assert (Hfopen : String.eqb f "(" = false).
  { destruct (String.eqb_spec f "(") as [->|]; [discriminate Hf|reflexivity]. }
  split; [|split].
  - unfold _infix_to_rpn.
    rewrite (loop_ok _ _ _ _ (function_step f _ _ Hf)).
    rewrite (loop_ok _ _ _ _ (Hopen _ _)).
    rewrite (loop_ok _ _ _ _ (number_step a _ _ Ha)).
    rewrite (loop_ok ([] ++ [a], ["("; f]) ([] ++ [a], [f]) ")") by reflexivity.
    rewrite (loop_ok _ _ _ _ (operator_step o p _ _ Ho)).
    rewrite (loop_ok _ _ _ _ (number_step b _ _ Hb)).
    simpl. rewrite Hfopen. simpl.
    assert (Hprec : precedence f = None).
    { unfold Str.mem, _get_supported_functions in Hf. simpl in Hf.
      repeat match type of Hf with
             | (String.eqb ?x ?y || _) = true =>
                 destruct (String.eqb_spec x y) as [->|_]; [reflexivity|];
                 simpl in Hf
             end.
      discriminate. }
    rewrite Hprec. simpl.
    destruct (precedence_cases o p Ho)
      as [[_ ->]|[[_ ->]|[[_ ->]|[[_ ->]|[_ ->]]]]]; reflexivity.
  - unfold _infix_to_rpn.
    rewrite (loop_ok _ _ _ _ (number_step a _ _ Ha)).
    rewrite (loop_ok _ _ _ _ (operator_step o p _ _ Ho)).
    rewrite (loop_ok _ _ _ _ (function_step f _ _ Hf)).
    rewrite (loop_ok _ _ _ _ (Hopen _ _)).
    rewrite (loop_ok _ _ _ _ (number_step b _ _ Hb)).
    simpl. reflexivity.
  - cbv. destruct (math _ _); reflexivity.
Qed.

(** X26: no sign in front of a number.  For an operator [o] and a number
    token [a], the tokens [o a] become the RPN [a o], on which
    [_evaluate_rpn] pops an empty stack: [-5] and [+5] raise
    [IndexError("pop from empty list")], and [evaluate] returns that text
    as an error. *)
Theorem leading_operator_raises (o a : string) (p : nat)
  (Ho : precedence o = Some p) (Ha : is_number_token a = true)
  (Hfloat : is_ok (float_of_token (R := R) a) = true) :
  _infix_to_rpn [o; a] = Ok [a; o] /\
  _evaluate_rpn py_pow math [a; o] = Raise (Exn IndexError "pop from empty list") /\
  evaluate py_pow math init "-5" = (Message "Error: pop from empty list", init).
Proof.
  split; [|split; [|reflexivity]].
  - unfold _infix_to_rpn.
    rewrite (loop_ok _ _ _ _ (operator_step o p _ _ Ho)).
    rewrite (loop_ok _ _ _ _ (number_step a _ _ Ha)). reflexivity.
  - unfold _evaluate_rpn, rpn_loop, rpn_step. rewrite Ha.
    destruct (float_of_token a) as [x|e]; [|discriminate]. rewrite !bind_ok.
    destruct (precedence_cases o p Ho)
      as [[-> _]|[[-> _]|[[-> _]|[[-> _]|[-> _]]]]]; reflexivity.
Qed.

End Functions.

Lemma function_is_applied_last_witness :
  _infix_to_rpn ["sqrt"; "("; "4"; ")"; "+"; "5"] = Ok ["4"; "5"; "+"; "sqrt"] /\
  _infix_to_rpn ["4"; "+"; "sqrt"; "("; "5"; ")"] = Ok ["4"; "5"; "sqrt"; "+"].
Proof.
  destruct (function_is_applied_last (R := Q) whole_power
              (fun _ _ => Raise (Exn ValueError ""))
              "sqrt" "4" "5" "+" 1 eq_refl eq_refl eq_refl eq_refl)
    as (Hleft & Hright & _).
  split; [exact Hleft|exact Hright].
Defined.

Lemma leading_operator_raises_witness :
  _evaluate_rpn (R := float) (fun _ _ => Raise (Exn OverflowError ""))
    (fun _ _ => Raise (Exn ValueError "")) ["5"; "-"]
  = Raise (Exn IndexError "pop from empty list").
Proof.
  apply (leading_operator_raises (R := float) (fun _ _ => Raise (Exn OverflowError ""))
           (fun _ _ => Raise (Exn ValueError "")) "-" "5" 1 eq_refl eq_refl eq_refl).
Defined.


(** ** Precedence of ['*'] over ['+'] *)

Section Precedence.

Variable py_pow : float -> float -> result float.
Variable math : string -> list float -> result float.

Lemma rpn_number (token : string) (x : float) (stack : list float) (rest : list string) :
  is_number_token token = true -> float_of_token token = Ok x ->
  rpn_loop py_pow math stack (token :: rest) = rpn_loop py_pow math (x :: stack) rest.
Proof.
  intros Hn Hx. simpl. unfold rpn_step. rewrite Hn, Hx. reflexivity.
Qed.

End Precedence.

(** C1: ['*'] binds tighter than ['+'] on either side.  For all number
    tokens [a], [b], [c] with float values [x], [y], [z], the tokens
    [a + b * c] become the RPN [a b c * +] and evaluate to [x + y * z],
    and the tokens [a * b + c] become [a b * c +] (the ['*'] is popped when
    the ['+'] arrives) and evaluate to [x * y + z].  In particular
    ["2+3*4"] is tokenised to [2 + 3 * 4] and [_safe_eval], and so
    [evaluate], returns [14.0], which is [2 + (3*4)] and not [(2+3)*4];
    ["2*3+4"] gives [10.0], not [2*(3+4)].  The numbers are binary64
    floats; [py_pow] and [math] are arbitrary. *)
Theorem times_binds_tighter_than_plus
  (py_pow : float -> float -> result float)
  (math : string -> list float -> result float)
  (a b c : string) (x y z : float)
  (Ha : is_number_token a = true) (Hb : is_number_token b = true)
  (Hc : is_number_token c = true)
  (Hx : float_of_token a = Ok x) (Hy : float_of_token b = Ok y)
  (Hz : float_of_token c = Ok z) :
  _infix_to_rpn [a; "+"; b; "*"; c] = Ok [a; b; c; "*"; "+"] /\
  _evaluate_rpn py_pow math [a; b; c; "*"; "+"] = Ok (x + y * z)%float /\
  _infix_to_rpn [a; "*"; b; "+"; c] = Ok [a; b; "*"; c; "+"] /\
  _evaluate_rpn py_pow math [a; b; "*"; c; "+"] = Ok (x * y + z)%float /\
  tokenize "2+3*4" = ["2"; "+"; "3"; "*"; "4"] /\
  _safe_eval py_pow math "2+3*4" = Ok 14%float /\
  _safe_eval py_pow math "2+3*4" <> Ok ((2 + 3) * 4)%float /\
  _safe_eval py_pow math "2*3+4" = Ok 10%float /\
  _safe_eval py_pow math "2*3+4" <> Ok (2 * (3 + 4))%float /\
  evaluate py_pow math init "2+3*4" =
    (Value 14%float,
     {| memory := memory init;
        history := [("2+3*4", 14%float)];
        constants := constants init |}).
Proof.
  assert (Hplus : precedence "+" = Some 1) by reflexivity.
  assert (Htimes : precedence "*" = Some 2) by reflexivity.
  split; [|split; [|split; [|split]]].
  - unfold _infix_to_rpn.
    rewrite (loop_ok _ _ _ _ (number_step a _ _ Ha)).
    rewrite (loop_ok _ _ _ _ (operator_step "+" 1 _ _ Hplus)).
    rewrite (loop_ok _ _ _ _ (number_step b _ _ Hb)).
    rewrite (loop_ok _ _ _ _ (operator_step "*" 2 _ _ Htimes)).
    rewrite (loop_ok _ _ _ _ (number_step c _ _ Hc)).
    reflexivity.
  - unfold _evaluate_rpn.
    rewrite (rpn_number py_pow math a x _ _ Ha Hx).
    rewrite (rpn_number py_pow math b y _ _ Hb Hy).
    rewrite (rpn_number py_pow math c z _ _ Hc Hz).
    reflexivity.
  - unfold _infix_to_rpn.
    rewrite (loop_ok _ _ _ _ (number_step a _ _ Ha)).
    rewrite (loop_ok _ _ _ _ (operator_step "*" 2 _ _ Htimes)).
    rewrite (loop_ok _ _ _ _ (number_step b _ _ Hb)).
    rewrite (loop_ok _ _ _ _ (operator_step "+" 1 _ _ Hplus)).
    rewrite (loop_ok _ _ _ _ (number_step c _ _ Hc)).
    reflexivity.
  - unfold _evaluate_rpn.
    rewrite (rpn_number py_pow math a x _ _ Ha Hx).
    rewrite (rpn_number py_pow math b y _ _ Hb Hy).
    change (rpn_loop py_pow math [y; x] ["*"; c; "+"])
      with (rpn_loop py_pow math [(x * y)%float] [c; "+"]).
    rewrite (rpn_number py_pow math c z _ _ Hc Hz).
    reflexivity.
  - repeat split; try reflexivity.
    + vm_compute. intros Heq. discriminate Heq.
    + vm_compute. intros Heq. discriminate Heq.
Qed.

Lemma times_binds_tighter_than_plus_witness :
  _infix_to_rpn ["2"; "*"; "3"; "+"; "4"] = Ok ["2"; "3"; "*"; "4"; "+"] /\
  _evaluate_rpn (fun _ _ => Raise (Exn OverflowError ""))
    (fun _ _ => Raise (Exn ValueError "")) ["2"; "3"; "*"; "4"; "+"]
    = Ok (2 * 3 + 4)%float /\
  _safe_eval (fun _ _ => Raise (Exn OverflowError ""))
    (fun _ _ => Raise (Exn ValueError "")) "2+3*4" = Ok 14%float.
Proof.
  destruct (times_binds_tighter_than_plus
              (fun _ _ => Raise (Exn OverflowError ""))
              (fun _ _ => Raise (Exn ValueError ""))
              "2" "3" "4" 2%float 3%float 4%float
              eq_refl eq_refl eq_refl eq_refl eq_refl eq_refl)
    as (_ & _ & Hrpn & Heval & _ & Hsafe & _).
  split; [exact Hrpn|]. split; [exact Heval|exact Hsafe].
Defined.

(** ** [convert_units] on binary64 floats *)






End CalculatorFacts.


(* ===================================================================== *)
(** * src/sys/History/BrowserHistory.py, further properties                *)
(* ===================================================================== *)

Module BrowserHistoryFacts.
Import BrowserHistory.

(** ** The order and the size of what [get_history] returns *)

(** [a] may come before [b] under [ORDER BY last_visit_time DESC]. *)
Definition before (a b : url_row) : Prop :=
  sql_leb (row_last_visit_time b) (row_last_visit_time a) = true.

Lemma sql_leb_total (a b : sql_value) : sql_leb a b = false -> sql_leb b a = true.
Proof.
  destruct a as [|x|x], b as [|y|y]; simpl; try congruence.
  - intros Hxy. apply Z.leb_gt in Hxy. apply Z.leb_le. lia.
  - intros Hxy. destruct (String.leb_total x y); congruence.
Qed.

Lemma insert_desc_hd (r x : url_row) (sorted : list url_row) :
  before x r -> HdRel before x sorted -> HdRel before x (insert_desc r sorted).
Proof.
  intros Hxr Hhd. destruct sorted as [|y rest]; simpl.
  - constructor. exact Hxr.
  - destruct (negb (sql_leb (row_last_visit_time y) (row_last_visit_time r)));
      constructor; [inversion Hhd; assumption|exact Hxr].
Qed.

Lemma insert_desc_sorted (r : url_row) (sorted : list url_row) :
  Sorted before sorted -> Sorted before (insert_desc r sorted).
Proof.
  induction 1 as [|x rest Hrest IH Hhd]; simpl.
  - repeat constructor.
  - destruct (sql_leb (row_last_visit_time x) (row_last_visit_time r)) eqn:Hle;
      simpl.
    + constructor; [constructor; assumption|]. constructor. exact Hle.
    + constructor; [exact IH|].
      apply insert_desc_hd; [|exact Hhd].
      apply sql_leb_total, Hle.
Qed.

Lemma order_by_sorted (rows : list url_row) :
  Sorted before (order_by_last_visit_desc rows).
Proof.
  unfold order_by_last_visit_desc.
  induction rows as [|r rows IH]; simpl; [constructor|].
  apply insert_desc_sorted, IH.
Qed.

Lemma insert_desc_In (r x : url_row) (sorted : list url_row) :
  In x (insert_desc r sorted) <-> x = r \/ In x sorted.
Proof.
  induction sorted as [|y rest IH]; simpl; [intuition|].
  destruct (negb (sql_leb (row_last_visit_time y) (row_last_visit_time r)));
    simpl; rewrite ?IH; intuition.
Qed.

Lemma insert_desc_length (r : url_row) (sorted : list url_row) :
  length (insert_desc r sorted) = S (length sorted).
Proof.
  induction sorted as [|y rest IH]; simpl; [reflexivity|].
  destruct (negb (sql_leb (row_last_visit_time y) (row_last_visit_time r)));
    simpl; rewrite ?IH; reflexivity.
Qed.

Lemma order_by_In (x : url_row) (rows : list url_row) :
  In x (order_by_last_visit_desc rows) <-> In x rows.
Proof.
  unfold order_by_last_visit_desc.
  induction rows as [|r rows IH]; simpl; [tauto|].
  rewrite insert_desc_In, IH. intuition.
Qed.

Lemma order_by_length (rows : list url_row) :
  length (order_by_last_visit_desc rows) = length rows.
Proof.
  unfold order_by_last_visit_desc.
  induction rows as [|r rows IH]; simpl; [reflexivity|].
  rewrite insert_desc_length, IH. reflexivity.
Qed.

Section Sublists.

Context {A : Type}.
Variable R : A -> A -> Prop.

Lemma Sorted_drop (n : nat) (l : list A) : Sorted R l -> Sorted R (drop n l).
Proof.
  revert l. induction n as [|n IH]; intros l Hl; [destruct l; exact Hl|].
  destruct l as [|x l]; [constructor|]. simpl.
  apply IH. inversion Hl; assumption.
Qed.

Lemma Sorted_take (n : nat) (l : list A) : Sorted R l -> Sorted R (take n l).
Proof.
  intros Hsorted. revert n. induction Hsorted as [|x l Hl IH Hhd]; intros n;
    [destruct n; constructor|].
  destruct n as [|n]; [constructor|]. simpl.
  constructor; [apply IH|].
  destruct Hhd as [|y l' Hxy]; [destruct n; constructor|].
  destruct n; constructor. exact Hxy.
Qed.

End Sublists.

Lemma select_history_sorted (limit offset : Z) (urls : list url_row) :
  Sorted before (select_history limit offset urls).
Proof.
  unfold select_history, limit_offset.
  destruct (limit <? 0)%Z; [|apply Sorted_take]; apply Sorted_drop, order_by_sorted.
Qed.

Lemma In_drop {A} (x : A) (n : nat) (l : list A) : In x (drop n l) -> In x l.
Proof.
  revert l. induction n as [|n IH]; intros l; [destruct l; auto|].
  destruct l as [|y l]; simpl; [auto|]. intros Hx. right. apply IH, Hx.
Qed.

Lemma In_take {A} (x : A) (n : nat) (l : list A) : In x (take n l) -> In x l.
Proof.
  revert l. induction n as [|n IH]; intros l; [destruct l; simpl; tauto|].
  destruct l as [|y l]; simpl; [auto|]. intros [Hx|Hx]; [auto|].
  right. apply IH, Hx.
Qed.

Lemma select_history_In (limit offset : Z) (urls : list url_row) (x : url_row) :
  In x (select_history limit offset urls) -> In x urls.
Proof.
  unfold select_history, limit_offset. intros Hx. apply order_by_In.
  destruct (limit <? 0)%Z; [|apply In_take in Hx]; apply In_drop in Hx; exact Hx.
Qed.

Lemma select_history_length (limit offset : Z) (urls : list url_row) :
  length (select_history limit offset urls) <= length urls - Z.to_nat offset /\
  ((0 <= limit)%Z -> length (select_history limit offset urls) <= Z.to_nat limit).
Proof.
  unfold select_history, limit_offset.
  pose proof (order_by_length urls) as Hlen.
  destruct (limit <? 0)%Z eqn:Hneg.
  - rewrite length_drop, Hlen. split; [lia|]. apply Z.ltb_lt in Hneg. lia.
  - rewrite length_take, length_drop, Hlen. lia.
Qed.

(** The rows and the entries made of them, one to one. *)
Lemma entries_of_rows_each (rows : list url_row) (es : list entry) :
  entries_of_rows rows = Ok es ->
  Forall2 (fun row e => entry_of_row row = Ok e) rows es.
Proof.
  revert es. induction rows as [|row rows IH]; intros es Hes; simpl in Hes.
  - inversion Hes. constructor.
  - destruct (entry_of_row row) as [e|x] eqn:He; [|discriminate]. simpl in Hes.
    destruct (entries_of_rows rows) as [es'|x] eqn:Hes'; [|discriminate].
    inversion Hes; subst. constructor; [exact He|]. apply IH. reflexivity.
Qed.

Definition visited (e : entry) : Z := microseconds_since_1601 (last_visit_time e).

(** [a] was visited no earlier than [b]. *)
Definition newer (a b : entry) : Prop := (visited b <= visited a)%Z.

Lemma entry_of_row_time (row : url_row) (e : entry) :
  entry_of_row row = Ok e ->
  row_last_visit_time row = Integer (visited e) /\
  id e = row_id row /\ url e = row_url row /\ title e = row_title row /\
  visit_count e = row_visit_count row.
Proof.
  unfold entry_of_row, _convert_chrome_time.
  destruct (row_last_visit_time row) as [|us|s]; simpl; try discriminate.
  destruct ((datetime_min <=? us)%Z && (us <=? datetime_max)%Z); simpl;
    [|discriminate].
  intros He. inversion He. unfold visited. simpl. auto.
Qed.

Lemma entries_sorted (rows : list url_row) (es : list entry) :
  Forall2 (fun row e => entry_of_row row = Ok e) rows es ->
  Sorted before rows -> Sorted newer es.
Proof.
  induction 1 as [|row e rows es He Hes IH]; intros Hsorted; [constructor|].
  apply Sorted_inv in Hsorted as [Hrows Hhd].
  constructor; [apply IH, Hrows|].
  destruct Hes as [|row' e' rows' es' He' _]; constructor.
  inversion Hhd as [|? ? Hb]; subst.
  unfold before in Hb. unfold newer.
  apply entry_of_row_time in He as [He _], He' as [He' _].
  rewrite He, He' in Hb. simpl in Hb. apply Z.leb_le, Hb.
Qed.

(** X18: what [get_history] returns when it returns.  The entries come
    newest first (each was visited no earlier than all the ones after it),
    each is made of a row of [urls] with its [id], [url], [title] and
    [visit_count] unchanged, there are at most [limit] of them when
    [limit >= 0], and never more than the table holds after the offset. *)
Theorem get_history_newest_first
  (urls : list url_row) (limit offset : Z) (history : list entry)
  (Hget : get_history urls limit offset = Ok history) :
  StronglySorted newer history /\
  Forall (fun e => exists row, In row urls /\ entry_of_row row = Ok e /\
                               row_last_visit_time row = Integer (visited e)) history /\
  ((0 <= limit)%Z -> length history <= Z.to_nat limit) /\
  length history <= length urls - Z.to_nat offset.
Proof.
  unfold get_history in Hget. apply entries_of_rows_each in Hget.
  pose proof (select_history_sorted limit offset urls) as Hsorted.
  pose proof (select_history_length limit offset urls) as [Hrest Hlimit].
  pose proof (select_history_In limit offset urls) as Hin.
  pose proof (Forall2_length _ _ _ Hget) as Hlen.
  split; [|split; [|split]].
  - apply Sorted_StronglySorted.
    + intros a b c Hab Hbc. unfold newer in *. lia.
    + apply (entries_sorted _ _ Hget Hsorted).
  - clear Hsorted Hrest Hlimit Hlen.
    induction Hget as [|row e rows es He Hes IH]; constructor.
    + exists row. split; [apply Hin; left; reflexivity|].
      split; [exact He|]. apply (entry_of_row_time row e He).
    + apply IH. intros x Hx. apply Hin. right. exact Hx.
  - intros Hpos. rewrite <- Hlen. apply Hlimit, Hpos.
  - rewrite <- Hlen. exact Hrest.
Qed.

Definition visit (n : Z) (address : string) (time : Z) : url_row :=
  {| row_id := Integer n; row_url := Text address; row_title := Text "";
     row_visit_count := Integer 1; row_last_visit_time := Integer time |}.

Definition three_visits : list url_row :=
  [ visit 1 "https://a.example/" 13350000000000000;
    visit 2 "https://b.example/" 13370000000000000;
    visit 3 "https://c.example/" 13360000000000000 ].

Lemma get_history_newest_first_witness :
  exists history,
    get_history three_visits 2 0 = Ok history /\
    List.map id history = [Integer 2; Integer 3] /\
    StronglySorted newer history /\ length history <= 2.
Proof.
  eexists. split; [reflexivity|]. split; [reflexivity|].
  pose proof (get_history_newest_first three_visits 2 0 _ eq_refl)
    as (Hsorted & _ & Hlimit & _).
  split; [exact Hsorted|]. apply Hlimit. lia.
Defined.

(** ** A row whose time is text *)







(** ** [get_browsing_stats] *)

(** A Python number: [int] or [float]. *)
Inductive py_number : Type :=
| PyInt (z : Z)
| PyFloat (f : float).

(** The dictionary [get_browsing_stats] returns. *)
Record stats : Type := {
  total_urls : Z;
  total_visits : option py_number;
  avg_visits_per_url : py_number;
  most_recent_visit : datetime;
  oldest_visit : datetime
}.

Definition present (v : sql_value) : bool :=
  match v with Null => false | _ => true end.

(** [MAX(column)] and [MIN(column)]: the largest and the smallest value
    that is not [NULL] in SQLite's order, [NULL] when there is none. *)
Fixpoint sql_max (values : list sql_value) : sql_value :=
  match values with
  | [] => Null
  | v :: rest =>
      let m := sql_max rest in
      if negb (present v) then m
      else if negb (present m) then v
      else if sql_leb m v then v else m
  end.

Fixpoint sql_min (values : list sql_value) : sql_value :=
  match values with
  | [] => Null
  | v :: rest =>
      let m := sql_min rest in
      if negb (present v) then m
      else if negb (present m) then v
      else if sql_leb v m then v else m
  end.

(** [int(z)] as a float, and [n / d] for ints with [0 < d]: the nearest
    binary64 number. *)
Definition float_of_ratio (n d : Z) : float :=
  if (n <? 0)%Z
  then PrimFloat.opp (SF2Prim (Calculator.nearest_binary64 (- n) d))
  else SF2Prim (Calculator.nearest_binary64 n d).

Section BrowsingStats.

(** The total SQLite gives as a [REAL], when one of the values summed is
    text. *)
Variable real_sum : list sql_value -> float.

Definition in_int64 (z : Z) : bool :=
  (- 2 ^ 63 <=? z)%Z && (z <? 2 ^ 63)%Z.

(** The values as integers, when each of them is one. *)
Fixpoint integers (values : list sql_value) : option (list Z) :=
  match values with
  | [] => Some []
  | Integer z :: rest => zs ← integers rest; Some (z :: zs)
  | _ :: rest => None
  end.

Fixpoint sum_integers (total : Z) (values : list Z) : result Z :=
  match values with
  | [] => Ok total
  | v :: rest =>
      if in_int64 (total + v) then sum_integers (total + v) rest
      else Raise (Exn OperationalError "integer overflow")
  end.

(** [SUM(column)]: [NULL] values are passed over; [NULL] when nothing is
    left; an integer when all that is left are integers. *)
Definition sql_sum (values : list sql_value) : result (option py_number) :=
  match List.filter present values with
  | [] => Ok None
  | v :: rest =>
      match integers (v :: rest) with
      | Some zs => total ← sum_integers 0 zs; Ok (Some (PyInt total))
      | None => Ok (Some (PyFloat (real_sum (v :: rest))))
      end
  end.

(** [stats['total_visits'] / stats['total_urls'] if stats['total_urls'] > 0 else 0] *)
Definition average (visits : option py_number) (urls : Z) : result py_number :=
  if (0 <? urls)%Z then
    match visits with
    | None =>
        Raise (Exn TypeError "unsupported operand type(s) for /: 'NoneType' and 'int'")
    | Some (PyInt n) => Ok (PyFloat (float_of_ratio n urls))
    | Some (PyFloat f) => Ok (PyFloat (PrimFloat.div f (float_of_ratio urls 1)))
    end
  else Ok (PyInt 0).

Definition get_browsing_stats (urls : list url_row) : result stats :=
  (* Total number of URLs visited *)
  let count := Z.of_nat (length urls) in
  (* Total number of visits *)
  visits ← sql_sum (List.map row_visit_count urls);
  (* Average visits per URL *)
  avg ← average visits count;
  (* Most recent visit *)
  most_recent ← _convert_chrome_time (sql_max (List.map row_last_visit_time urls));
  (* Oldest visit *)
  oldest ← _convert_chrome_time (sql_min (List.map row_last_visit_time urls));
  Ok {| total_urls := count;
        total_visits := visits;
        avg_visits_per_url := avg;
        most_recent_visit := most_recent;
        oldest_visit := oldest |}.

End BrowsingStats.

Lemma sql_max_absent (values : list sql_value) :
  Forall (fun v => v = Null) values -> sql_max values = Null.
Proof.
  induction 1 as [|v values Hv _ IH]; [reflexivity|].
  simpl. rewrite Hv, IH. reflexivity.
Qed.






Lemma convert_chrome_time_ok (v : sql_value) (d : datetime) :
  _convert_chrome_time v = Ok d -> v = Integer (microseconds_since_1601 d).
Proof.
  unfold _convert_chrome_time. destruct v as [|us|s]; try discriminate.
  destruct ((datetime_min <=? us)%Z && (us <=? datetime_max)%Z); [|discriminate].
  intros Hd. inversion Hd. reflexivity.
Qed.

(** X20: [get_browsing_stats] needs a visit.  On a [urls] table without
    rows it raises [TypeError]: [MAX(last_visit_time)] is [NULL] there and
    [_convert_chrome_time(None)] fails, although the division is guarded
    against the empty table.  The same holds for every table in which no
    row has a [last_visit_time]: the call never returns. *)
Theorem browsing_stats_need_a_visit (real_sum : list sql_value -> float) :
  get_browsing_stats real_sum [] =
    Raise (Exn TypeError
             "unsupported type for timedelta microseconds component: NoneType") /\
  (forall urls : list url_row,
     Forall (fun row => row_last_visit_time row = Null) urls ->
     is_ok (get_browsing_stats real_sum urls) = false).
Proof.
  split; [reflexivity|].
  intros urls Hnull. unfold get_browsing_stats.
  destruct (sql_sum real_sum (List.map row_visit_count urls)) as [visits|e];
    [|reflexivity]. simpl.
  destruct (average visits (Z.of_nat (length urls))) as [avg|e]; [|reflexivity].
  simpl. rewrite sql_max_absent; [reflexivity|].
  induction Hnull; constructor; assumption.
Qed.




(** ** [_convert_datetime_to_chrome_time] *)

(** What a caller may pass for a date: a [datetime.date] (days since
    0001-01-01) or a [datetime.datetime]. *)
Inductive py_date : Type :=
| Date (ordinal : Z)
| DateTime (dt : datetime).

(** [int(x)] for a float: the value cut towards zero. *)
Definition int_of_float (x : float) : result Z :=
  match Prim2SF x with
  | S754_zero _ => Ok 0%Z
  | S754_finite negative m e =>
      let magnitude :=
        if (0 <=? e)%Z then (Z.pos m * 2 ^ e)%Z else (Z.pos m / 2 ^ (- e))%Z in
      Ok (if negative then (- magnitude)%Z else magnitude)
  | S754_infinity _ =>
      Raise (Exn OverflowError "cannot convert float infinity to integer")
  | S754_nan => Raise (Exn ValueError "cannot convert float NaN to integer")
  end.

(** [delta.total_seconds()] is the quotient of the microseconds by [10**6]
    as a float; the product with [1000000] is a float product. *)
Definition _convert_datetime_to_chrome_time (dt : py_date) : result Z :=
  match dt with
  | Date _ =>
      Raise (Exn TypeError
               "unsupported operand type(s) for -: 'datetime.date' and 'datetime.datetime'")
  | DateTime dt =>
      let total_seconds := float_of_ratio (microseconds_since_1601 dt) 1000000 in
      int_of_float (PrimFloat.mul total_seconds 1000000%float)
  end.

Lemma digits2_pos_bound (m : positive) : (Z.pos m < 2 ^ Z.pos (digits2_pos m))%Z.
Proof.
  induction m as [m IH|m IH|]; simpl digits2_pos;
    rewrite ?Pos2Z.inj_succ, ?Z.pow_succ_r by lia; lia.
Qed.

(** A float of magnitude [2^53] or more is an even integer. *)
Lemma int_of_float_even (x : float) (r : Z) :
  int_of_float x = Ok r -> (2 ^ 53 <= Z.abs r)%Z -> Z.even r = true.
Proof.
  unfold int_of_float. pose proof (Prim2SF_valid x) as Hvalid.
  destruct (Prim2SF x) as [s|s| |s m e]; try discriminate.
  - intros Hr. inversion Hr. reflexivity.
  - simpl in Hvalid. unfold bounded, canonical_mantissa, fexp in Hvalid.
    apply andb_prop in Hvalid as [Hcanon _]. apply Z.eqb_eq in Hcanon.
    pose proof (digits2_pos_bound m) as Hm.
    assert (Hdigits : (Z.pos (digits2_pos m) <= 53)%Z).
    { unfold SpecFloat.emin, emax, prec in Hcanon. lia. }
    assert (Hlt : (Z.pos m < 2 ^ 53)%Z).
    { eapply Z.lt_le_trans; [exact Hm|]. apply Z.pow_le_mono_r; lia. }
    intros Hr Hbig.
    assert (Hmag : exists magnitude,
              (if (0 <=? e)%Z then (Z.pos m * 2 ^ e)%Z else (Z.pos m / 2 ^ (- e))%Z)
              = magnitude /\ Z.abs r = Z.abs magnitude /\
              Z.even r = Z.even magnitude).
    { eexists. split; [reflexivity|].
      destruct s; inversion Hr; [rewrite Z.abs_opp, Z.even_opp|]; auto. }
    destruct Hmag as (magnitude & Hmagnitude & Habs & Heven).
    rewrite Heven. rewrite Habs in Hbig. clear Hr Habs Heven.
    destruct (0 <=? e)%Z eqn:He.
    + apply Z.leb_le in He. subst magnitude.
      destruct (Z.eq_dec e 0%Z) as [->|Hne].
      * rewrite Z.mul_1_r in Hbig. lia.
      * replace e with (Z.succ (e - 1)) by lia.
        rewrite Z.pow_succ_r by lia.
        rewrite Z.even_mul, Z.even_mul. simpl. rewrite orb_true_r. reflexivity.
    + apply Z.leb_gt in He. subst magnitude.
      assert (Hpow : (0 < 2 ^ (- e))%Z) by (apply Z.pow_pos_nonneg; lia).
      assert (Hsmall : (Z.pos m / 2 ^ (- e) <= Z.pos m)%Z)
        by (apply Z.div_le_upper_bound; [exact Hpow|nia]).
      assert (0 <= Z.pos m / 2 ^ (- e))%Z by (apply Z.div_pos; lia).
      lia.
Qed.

(** X22: [_convert_datetime_to_chrome_time] goes through a float of
    seconds.  Whenever it returns a number of [2^53] microseconds or more
    (any time after the year 1886), that number is even; so it is not the
    inverse of [_convert_chrome_time]: for an odd timestamp [t >= 2^53],
    converting the [datetime] of [t] back never gives [t]. *)
Theorem chrome_time_round_trip_loses_odd (t : Z) (dt : datetime)
  (Hbig : (2 ^ 53 <= t)%Z) (Hodd : Z.odd t = true)
  (Htime : _convert_chrome_time (Integer t) = Ok dt) :
  microseconds_since_1601 dt = t /\
  _convert_datetime_to_chrome_time (DateTime dt) <> Ok t /\
  (forall r : Z,
     _convert_datetime_to_chrome_time (DateTime dt) = Ok r ->
     (2 ^ 53 <= Z.abs r)%Z -> Z.even r = true).
Proof.
  assert (Hdt : microseconds_since_1601 dt = t).
  { apply convert_chrome_time_ok in Htime. inversion Htime. reflexivity. }
  assert (Heven : forall r : Z,
            _convert_datetime_to_chrome_time (DateTime dt) = Ok r ->
            (2 ^ 53 <= Z.abs r)%Z -> Z.even r = true).
  { intros r Hr. apply (int_of_float_even _ r Hr). }
  split; [exact Hdt|]. split; [|exact Heven].
  intros Hback. specialize (Heven t Hback).
  rewrite <- Z.negb_odd, Hodd in Heven.
  assert (Habs : (2 ^ 53 <= Z.abs t)%Z) by lia.
  specialize (Heven Habs). discriminate.
Qed.

Lemma chrome_time_round_trip_loses_odd_witness :
  _convert_chrome_time (Integer 13350000000000001)
    = Ok {| microseconds_since_1601 := 13350000000000001 |} /\
  _convert_datetime_to_chrome_time
    (DateTime {| microseconds_since_1601 := 13350000000000001 |})
    = Ok 13350000000000002%Z.
Proof.
  pose proof (chrome_time_round_trip_loses_odd 13350000000000001
                {| microseconds_since_1601 := 13350000000000001 |}
                ltac:(vm_compute; discriminate) eq_refl eq_refl)
    as (_ & Hback & _).
  split; [reflexivity|]. vm_compute. reflexivity.
Defined.

End BrowserHistoryFacts.
